(** * OGRE: compute-HLMS pipeline cache, scene-node importer and GL3+ texture-buffer binding

    A shallow embedding of
    - [GL3PlusTexBufferPacked::bindBuffer]  (RenderSystems/GL3Plus/src/Vao/OgreGL3PlusTexBufferPacked.cpp),
    - [SceneFormatImporter::importSceneNode(s)]  (Components/SceneFormat/src/OgreSceneFormatImporter.cpp),
    - [HlmsCompute::compileShader], [clearShaderCache] and [dispatch]  (OgreMain/src/OgreHlmsCompute.cpp),
    - the constructor of [GL3PlusTexBufferPacked], the rest of
      [SceneFormatImporter] (the decoders, [importNode], [importMovableObject],
      [importRenderable], [importItems], [importScene]) and of [HlmsCompute]
      ([_changeRenderSystem] and the jobs by name),
    followed by the properties established about them. *)

From stdpp Require Import gmap strings list fin_maps pretty.
From Stdlib Require Import ZArith Lia.

Local Open Scope Z_scope.

(** * The program *)

(** ** Machine integers

    [size_t] is taken to be 64 bits wide (the x64 build, the one for which the
    source selects [MurmurHash3_x64_128]); [uint32] and [uint16] are what their
    names say.  Unsigned arithmetic wraps. *)
Module Machine.

Definition SIZE_MOD : Z := 2 ^ 64.
Definition UINT32_MOD : Z := 2 ^ 32.

Definition wrap_size (z : Z) : Z := z mod SIZE_MOD.
Definition wrap_u32 (z : Z) : Z := z mod UINT32_MOD.

(** [(size_t)-1]. *)
Definition SIZE_MAX : Z := SIZE_MOD - 1.

Definition is_size (z : Z) : Prop := 0 <= z < SIZE_MOD.
Definition is_u32 (z : Z) : Prop := 0 <= z < UINT32_MOD.

End Machine.

(** ** GL3PlusTexBufferPacked *)
Module TexBuffer.
Import Machine.

(** The GL entry points [bindBuffer] calls, with its arguments as the
    expressions of the source evaluate, in [size_t] where they are sizes; the
    conversion to the signed types of the parameters is [received], with the
    constructor. *)
Inductive GLTarget := GL_TEXTURE_2D | GL_TEXTURE_BUFFER.

Inductive GLCall :=
| glActiveTexture (unit : Z)
| glBindTexture (target : GLTarget) (texture : Z)
| glTexBufferRange (internalformat buffer offset size : Z)
| glPixelStorei_UNPACK_ALIGNMENT (param : Z)
| glBindBuffer_PIXEL_UNPACK_BUFFER (buffer : Z)
| glTexSubImage2D (width height format type data : Z).

Definition GL_TEXTURE0 : Z := 0x84C0.

(** The members [bindBuffer] reads.  [bufferInterfaceIsGL3Plus] is the result of
    the [dynamic_cast] of [mBufferInterface] and [vboName] what its
    [getVboName()] returns.  The members from [mUseLegacyTechnique] on exist
    only under [OGRE_LEGACY_GL_COMPATIBLE]; a build without the macro is a
    buffer with [mUseLegacyTechnique = false]. *)
Record GL3PlusTexBufferPacked := {
  mNumElements : Z;
  mBytesPerElement : Z;
  mFinalBufferStart : Z;
  mTexName : Z;
  mInternalFormat : Z;
  bufferInterfaceIsGL3Plus : bool;
  vboName : Z;
  mUseLegacyTechnique : bool;
  mMaxTexSize : Z;
  mInternalNumElemBytes : Z;
  mInternalNumElements : Z;
  mOriginFormat : Z;
  mOriginDataType : Z
}.

(** How a call ends: an [assert] aborts (numbered in source order), a division
    by zero is undefined, otherwise the GL calls are issued in order. *)
Inductive BindResult :=
| AssertionFailed (n : nat)
| Undefined
| Issued (calls : list GLCall).

(** [mNumElements * mBytesPerElement], as [size_t]. *)
Definition totalSizeBytes (b : GL3PlusTexBufferPacked) : Z :=
  wrap_size (mNumElements b * mBytesPerElement b).

(** [bindBuffer( slot, offset, sizeBytes )].  [ndebug] tells whether the build
    defines [NDEBUG], which compiles the [assert]s away. *)
Definition bindBuffer (ndebug : bool) (b : GL3PlusTexBufferPacked)
    (slot offset sizeBytes : Z) : BindResult :=
  if negb ndebug && negb (bufferInterfaceIsGL3Plus b) then AssertionFailed 1
  else if negb ndebug && negb (offset <? wrap_size (totalSizeBytes b - 1))
  then AssertionFailed 2
  else if negb ndebug && negb (wrap_size (offset + sizeBytes) <=? totalSizeBytes b)
  then AssertionFailed 3
  else
    let sizeBytes :=
      if sizeBytes =? 0 then wrap_size (totalSizeBytes b - offset) else sizeBytes in
    if mUseLegacyTechnique b then
      if mInternalNumElemBytes b =? 0 then Undefined
      else
        let numModifiedElements := sizeBytes / mInternalNumElemBytes b in
        if negb ndebug && negb (sizeBytes mod mInternalNumElemBytes b =? 0)
        then AssertionFailed 4
        else
          let texWidth :=
            Z.min numModifiedElements (Z.min (mMaxTexSize b) (mInternalNumElements b)) in
          if mMaxTexSize b =? 0 then Undefined
          else
            let texHeight :=
              wrap_size (numModifiedElements + mMaxTexSize b - 1) / mMaxTexSize b in
            let misaligned := negb (Z.land (mBytesPerElement b) 4 =? 4) in
            Issued
              ((if misaligned then [glPixelStorei_UNPACK_ALIGNMENT 1] else [])
               ++ [ glBindBuffer_PIXEL_UNPACK_BUFFER (vboName b);
                    glActiveTexture (GL_TEXTURE0 + slot);
                    glBindTexture GL_TEXTURE_2D (mTexName b);
                    glTexSubImage2D texWidth texHeight (mOriginFormat b)
                      (mOriginDataType b)
                      (wrap_size (mFinalBufferStart b * mBytesPerElement b + offset));
                    glActiveTexture GL_TEXTURE0 ]
               ++ (if misaligned then [glPixelStorei_UNPACK_ALIGNMENT 4] else []))
    else
      Issued
        [ glActiveTexture (GL_TEXTURE0 + slot);
          glBindTexture GL_TEXTURE_BUFFER (mTexName b);
          glTexBufferRange (mInternalFormat b) (vboName b)
            (wrap_size (mFinalBufferStart b * mBytesPerElement b + offset)) sizeBytes;
          glActiveTexture GL_TEXTURE0 ].

(** The per-stage entry points all forward to [bindBuffer]. *)
Definition bindBufferVS := bindBuffer.
Definition bindBufferPS := bindBuffer.
Definition bindBufferGS := bindBuffer.
Definition bindBufferHS := bindBuffer.
Definition bindBufferDS := bindBuffer.
Definition bindBufferCS := bindBuffer.

(** The call binds the bytes [lo, hi) of the buffer: it issues a
    [glTexBufferRange] that starts [lo] bytes after the buffer's first byte in
    the VBO and is [hi - lo] bytes long. *)
Definition bindsRange (b : GL3PlusTexBufferPacked) (r : BindResult) (lo hi : Z) : Prop :=
  exists calls,
    r = Issued calls /\
    In (glTexBufferRange (mInternalFormat b) (vboName b)
          (wrap_size (mFinalBufferStart b * mBytesPerElement b + lo)) (hi - lo)) calls.

(** Every internal assertion of the call holds. *)
Definition passesAssertions (r : BindResult) : Prop :=
  forall n, r <> AssertionFailed n.

(** A 16-byte buffer of four 4-byte elements on the native path. *)
Definition buf16 : GL3PlusTexBufferPacked :=
  {| mNumElements := 4; mBytesPerElement := 4; mFinalBufferStart := 0;
     mTexName := 1; mInternalFormat := 0x8814; bufferInterfaceIsGL3Plus := true;
     vboName := 7; mUseLegacyTechnique := false; mMaxTexSize := 0;
     mInternalNumElemBytes := 0; mInternalNumElements := 0;
     mOriginFormat := 0; mOriginDataType := 0 |}.

End TexBuffer.

(** ** Control: how a call of the modelled C++ ends

    The code threads the members of an object through its methods and leaves
    them by [OGRE_EXCEPT], by a failed assertion or by undefined behaviour; a
    recursion may also never return. *)
Module Exec.

Inductive ExceptionCodes := ERR_INVALIDPARAMS | ERR_ITEM_NOT_FOUND.

(** What [OGRE_EXCEPT( number, description, source )] throws. *)
Record Exception := {
  number : ExceptionCodes;
  description : string;
  source : string
}.

Inductive Outcome (S A : Type) :=
| Ret (a : A) (s : S)           (* normal return, with the members afterwards *)
| Raise (e : Exception) (s : S) (* OGRE_EXCEPT, with the members at the throw *)
| AssertFailed                  (* assert / RAPIDJSON_ASSERT on a false condition *)
| UndefinedBehaviour            (* e.g. dereferencing an end() iterator *)
| StackExhausted.               (* the recursion went deeper than the budget *)
Arguments Ret {S A} a s.
Arguments Raise {S A} e s.
Arguments AssertFailed {S A}.
Arguments UndefinedBehaviour {S A}.
Arguments StackExhausted {S A}.

Definition M (S A : Type) : Type := S -> Outcome S A.

Definition bindM {S A B} (f : A -> M S B) (m : M S A) : M S B :=
  fun s =>
    match m s with
    | Ret a s' => f a s'
    | Raise e s' => Raise e s'
    | AssertFailed => AssertFailed
    | UndefinedBehaviour => UndefinedBehaviour
    | StackExhausted => StackExhausted
    end.

#[global] Instance M_ret {S} : MRet (M S) := fun A a s => Ret a s.
#[global] Instance M_bind {S} : MBind (M S) := fun A B f m => bindM f m.

Definition get {S} : M S S := fun s => Ret s s.
Definition put {S} (s : S) : M S unit := fun _ => Ret tt s.
Definition modify {S} (f : S -> S) : M S unit := fun s => Ret tt (f s).
Definition OGRE_EXCEPT {S A} (n : ExceptionCodes) (desc src : string) : M S A :=
  fun s => Raise {| number := n; description := desc; source := src |} s.
Definition assertFailed {S A} : M S A := fun _ => AssertFailed.
Definition undefined {S A} : M S A := fun _ => UndefinedBehaviour.
Definition stackExhausted {S A} : M S A := fun _ => StackExhausted.

(** [m] returns normally from [s], with a result and members satisfying [Q]. *)
Definition returns {S A} (m : M S A) (s : S) (Q : A -> S -> Prop) : Prop :=
  exists a s', m s = Ret a s' /\ Q a s'.

(** [m] keeps [R] between the members before and the members it leaves
    behind, whether it returns or raises. *)
Definition frames {S A} (R : S -> S -> Prop) (m : M S A) : Prop :=
  forall s, match m s with
            | Ret _ s' | Raise _ s' => R s s'
            | _ => True
            end.

(** The members an outcome leaves behind, [s] when it leaves none. *)
Definition stateOf {S A} (o : Outcome S A) (s : S) : S :=
  match o with
  | Ret _ s' | Raise _ s' => s'
  | _ => s
  end.

End Exec.

(** ** rapidjson values, as far as the importer looks at them

    The accessors of an object ([FindMember], [MemberBegin], [MemberEnd]) are
    guarded by [RAPIDJSON_ASSERT( IsObject() )] and those of an array ([Size],
    [operator[]]) by [RAPIDJSON_ASSERT( IsArray() )]; the macro is [assert]
    unless redefined, and is modelled as checked. *)
Module Json.
Import Machine Exec.

#[local] Set Warnings "-register-all".
Inductive Value :=
| JNull
| JBool (b : bool)
| JInt (z : Z)               (* a number written as an integer *)
| JReal                      (* any other number *)
| JString (s : string)
| JArray (elements : list Value)
| JObject (members : list (string * Value)).

Definition IsObject (v : Value) : bool := match v with JObject _ => true | _ => false end.
Definition IsArray (v : Value) : bool := match v with JArray _ => true | _ => false end.
Definition IsBool (v : Value) : bool := match v with JBool _ => true | _ => false end.
Definition IsUint (v : Value) : bool :=
  match v with JInt z => (0 <=? z) && (z <? UINT32_MOD) | _ => false end.

(** [GetBool()] and [GetUint()]; the code calls them behind [IsBool()] and
    [IsUint()] only. *)
Definition GetBool (v : Value) : bool := match v with JBool b => b | _ => false end.
Definition GetUint (v : Value) : Z := match v with JInt z => z | _ => 0 end.

Fixpoint findMember (members : list (string * Value)) (name : string) : option Value :=
  match members with
  | [] => None
  | (n, v) :: rest => if String.eqb n name then Some v else findMember rest name
  end.

(** [v.FindMember( name )]: the first member of that name, [None] for
    [MemberEnd()].  Like all object accessors of rapidjson it asserts
    [IsObject()]. *)
Definition FindMember {S} (v : Value) (name : string) : M S (option Value) :=
  match v with
  | JObject members => mret (findMember members name)
  | _ => assertFailed
  end.

(** The range [v.MemberBegin() .. v.MemberEnd()]; both assert [IsObject()]. *)
Definition MemberRange {S} (v : Value) : M S (list (string * Value)) :=
  match v with
  | JObject members => mret members
  | _ => assertFailed
  end.

(** [v.Size()]; asserts [IsArray()]. *)
Definition Size {S} (v : Value) : M S Z :=
  match v with
  | JArray elements => mret (Z.of_nat (length elements))
  | _ => assertFailed
  end.

(** [v[index]]; asserts [IsArray()] and [index < size]. *)
Definition at_ {S} (v : Value) (index : Z) : M S Value :=
  match v with
  | JArray elements =>
      match elements !! Z.to_nat index with
      | Some e => if 0 <=? index then mret e else assertFailed
      | None => assertFailed
      end
  | _ => assertFailed
  end.

(** The idiom [it = v.FindMember( name ); if( it != v.MemberEnd() && it->value.IsT() )]. *)
Definition memberIf {S} (v : Value) (name : string) (isT : Value -> bool)
  : M S (option Value) :=
  it ← FindMember v name;
  mret (match it with
        | Some x => if isT x then Some x else None
        | None => None
        end).

(** The statement form of the idiom: [if( it != v.MemberEnd() &&
    it->value.IsT() ) body( it->value )]. *)
Definition whenMember {S} (v : Value) (name : string) (isT : Value -> bool)
    (body : Value -> M S unit) : M S unit :=
  it ← memberIf v name isT;
  match it with
  | Some x => body x
  | None => mret tt
  end.

End Json.

(** ** SceneFormatImporter *)
Module SceneFormat.
Import Machine Exec Json.

Inductive SceneMemoryMgrTypes := SCENE_DYNAMIC | SCENE_STATIC.

(** A [SceneNode*]: the position of the node in the scene manager's store. *)
Abbreviation SceneNodePtr := nat.

(** A [float] is kept as its 32-bit pattern, which is how the file carries it
    ([decodeFloat] reinterprets the bits of [GetUint()]). *)
Abbreviation float := Z.
Definition decodeFloat (jsonValue : Value) : float := GetUint jsonValue.

Definition float_zero : float := 0.
Definition float_one : float := 0x3F800000.

(** What the importer sets or reads on a [SceneNode]. *)
Record SceneNode := {
  parent : option SceneNodePtr;
  sceneType : SceneMemoryMgrTypes;
  position : list float;       (* x y z *)
  orientation : list float;    (* w x y z, as handed to setOrientation *)
  scale : list float;          (* x y z *)
  inheritOrientation : bool;
  inheritScale : bool
}.

(** Modelled from the spec: the scene manager, whose code (OgreSceneManager.cpp,
    OgreSceneNode.cpp) is not among the sources.  It owns the nodes; the two
    designated roots, one per memory-manager type, exist from the start;
    [createSceneNode] makes an independent top-level node and
    [createChildSceneNode] a node beneath its receiver. *)
Record SceneManager := {
  nodes : list SceneNode
}.

Definition newNode (p : option SceneNodePtr) (t : SceneMemoryMgrTypes) : SceneNode :=
  {| parent := p; sceneType := t;
     position := [float_zero; float_zero; float_zero];
     orientation := [float_one; float_zero; float_zero; float_zero];
     scale := [float_one; float_one; float_one];
     inheritOrientation := true; inheritScale := true |}.

Definition getRootSceneNode (t : SceneMemoryMgrTypes) : SceneNodePtr :=
  match t with SCENE_DYNAMIC => 0%nat | SCENE_STATIC => 1%nat end.

Definition initialSceneManager : SceneManager :=
  {| nodes := [newNode None SCENE_DYNAMIC; newNode None SCENE_STATIC] |}.

(** The importer's members. *)
Record SceneFormatImporter := {
  mSceneManager : SceneManager;
  mCreatedSceneNodes : gmap Z SceneNodePtr;
  mFilename : string
}.

Definition initialImporter : SceneFormatImporter :=
  {| mSceneManager := initialSceneManager; mCreatedSceneNodes := ∅; mFilename := "" |}.

Definition createSceneNode (t : SceneMemoryMgrTypes) : M SceneFormatImporter SceneNodePtr :=
  fun s =>
    let sm := mSceneManager s in
    Ret (length (nodes sm))
        {| mSceneManager := {| nodes := nodes sm ++ [newNode None t] |};
           mCreatedSceneNodes := mCreatedSceneNodes s; mFilename := mFilename s |}.

Definition createChildSceneNode (parentNode : SceneNodePtr) (t : SceneMemoryMgrTypes)
  : M SceneFormatImporter SceneNodePtr :=
  fun s =>
    let sm := mSceneManager s in
    Ret (length (nodes sm))
        {| mSceneManager := {| nodes := nodes sm ++ [newNode (Some parentNode) t] |};
           mCreatedSceneNodes := mCreatedSceneNodes s; mFilename := mFilename s |}.

(** A setter of [Node], applied to the node a pointer designates. *)
Definition updateNode (p : SceneNodePtr) (f : SceneNode -> SceneNode)
  : M SceneFormatImporter unit :=
  fun s =>
    match nodes (mSceneManager s) !! p with
    | Some n =>
        Ret tt {| mSceneManager := {| nodes := <[p := f n]> (nodes (mSceneManager s)) |};
                  mCreatedSceneNodes := mCreatedSceneNodes s; mFilename := mFilename s |}
    | None => UndefinedBehaviour
    end.

Definition setPosition (v : list float) (n : SceneNode) : SceneNode :=
  {| parent := parent n; sceneType := sceneType n; position := v;
     orientation := orientation n; scale := scale n;
     inheritOrientation := inheritOrientation n; inheritScale := inheritScale n |}.
Definition setOrientation (q : list float) (n : SceneNode) : SceneNode :=
  {| parent := parent n; sceneType := sceneType n; position := position n;
     orientation := q; scale := scale n;
     inheritOrientation := inheritOrientation n; inheritScale := inheritScale n |}.
Definition setScale (v : list float) (n : SceneNode) : SceneNode :=
  {| parent := parent n; sceneType := sceneType n; position := position n;
     orientation := orientation n; scale := v;
     inheritOrientation := inheritOrientation n; inheritScale := inheritScale n |}.
Definition setInheritOrientation (b : bool) (n : SceneNode) : SceneNode :=
  {| parent := parent n; sceneType := sceneType n; position := position n;
     orientation := orientation n; scale := scale n;
     inheritOrientation := b; inheritScale := inheritScale n |}.
Definition setInheritScale (b : bool) (n : SceneNode) : SceneNode :=
  {| parent := parent n; sceneType := sceneType n; position := position n;
     orientation := orientation n; scale := scale n;
     inheritOrientation := inheritOrientation n; inheritScale := b |}.

(** The loop shared by [decodeVector3Array], [decodeVector4Array] and
    [decodeQuaternionArray]: the first [min( n, Size() )] components are
    overwritten by the elements that are unsigned integers. *)
Fixpoint decodeInto (retVal : list float) (elements : list Value) : list float :=
  match retVal, elements with
  | r :: retVal', e :: elements' =>
      (if IsUint e then decodeFloat e else r) :: decodeInto retVal' elements'
  | _, _ => retVal
  end.

Definition decodeVector3Array (jsonArray : Value) : M SceneFormatImporter (list float) :=
  match jsonArray with
  | JArray elements => mret (decodeInto [float_zero; float_zero; float_zero] elements)
  | _ => assertFailed
  end.

Definition decodeQuaternionArray (jsonArray : Value) : M SceneFormatImporter (list float) :=
  match jsonArray with
  | JArray elements =>
      mret (decodeInto [float_one; float_zero; float_zero; float_zero] elements)
  | _ => assertFailed
  end.

(** [importNode( nodeValue, node )]. *)
Definition importNode (nodeValue : Value) (node : SceneNodePtr) : M SceneFormatImporter unit :=
  _ ← whenMember nodeValue "position" IsArray
        (fun a => v ← decodeVector3Array a; updateNode node (setPosition v));
  _ ← whenMember nodeValue "rotation" IsArray
        (fun a => q ← decodeQuaternionArray a; updateNode node (setOrientation q));
  _ ← whenMember nodeValue "scale" IsArray
        (fun a => v ← decodeVector3Array a; updateNode node (setScale v));
  _ ← whenMember nodeValue "inherit_orientation" IsBool
        (fun b => updateNode node (setInheritOrientation (GetBool b)));
  whenMember nodeValue "inherit_scale" IsBool
    (fun b => updateNode node (setInheritScale (GetBool b))).

(** [mCreatedSceneNodes[nodeIdx] = sceneNode]. *)
Definition recordCreated (nodeIdx : Z) (sceneNode : SceneNodePtr) : M SceneFormatImporter unit :=
  modify (fun s =>
    {| mSceneManager := mSceneManager s;
       mCreatedSceneNodes := <[nodeIdx := sceneNode]> (mCreatedSceneNodes s);
       mFilename := mFilename s |}).

(** [importSceneNode( sceneNodeValue, nodeIdx, sceneNodesJson )].  The C++
    function calls itself for a parent that is not created yet; [depth] is the
    number of nested calls the stack has room for. *)
Fixpoint importSceneNode (depth : nat) (sceneNodeValue : Value) (nodeIdx : Z)
    (sceneNodesJson : Value) {struct depth} : M SceneFormatImporter SceneNodePtr :=
  match depth with
  | O => stackExhausted
  | S depth' =>
    itTmp ← memberIf sceneNodeValue "node" IsObject;
    match itTmp with
    | Some nodeValue =>
        itTmp ← memberIf nodeValue "parent_id" IsUint;
        let parentIdx := match itTmp with Some v => GetUint v | None => nodeIdx end in
        itTmp ← memberIf nodeValue "is_static" IsBool;
        let isStatic := match itTmp with Some v => GetBool v | None => false end in
        let sceneNodeType := if isStatic then SCENE_STATIC else SCENE_DYNAMIC in
        sceneNode ←
          (if negb (parentIdx =? nodeIdx) then
             s ← get;
             parentNode ←
               match mCreatedSceneNodes s !! parentIdx with
               | None =>
                   (* Our parent node will be created after us. Initialize it now. *)
                   size ← Size sceneNodesJson;
                   parentNode ←
                     (if parentIdx <? size then
                        parentValue ← at_ sceneNodesJson parentIdx;
                        if IsObject parentValue then
                          p ← importSceneNode depth' parentValue parentIdx sceneNodesJson;
                          mret (Some p)
                        else mret None
                      else mret None);
                   match parentNode with
                   | Some p => mret p
                   | None =>
                       OGRE_EXCEPT ERR_ITEM_NOT_FOUND
                         ("Node " +:+ pretty nodeIdx +:+ " is child of " +:+
                          pretty parentIdx +:+
                          " but we could not find it or create it. This file is malformed.")
                         "SceneFormatImporter::importSceneNode"
                   end
               | Some p => mret p (* Parent was already created *)
               end;
             createChildSceneNode parentNode sceneNodeType
           else
             (* Has no parent. Could be root scene node,
                or a loose node whose parent wasn't exported. *)
             itTmp ← memberIf sceneNodeValue "is_root_node" IsBool;
             let isRootNode := match itTmp with Some v => GetBool v | None => false end in
             if isRootNode then mret (getRootSceneNode sceneNodeType)
             else createSceneNode sceneNodeType);
        _ ← importNode nodeValue sceneNode;
        _ ← recordCreated nodeIdx sceneNode;
        mret sceneNode
    | None =>
        s ← get;
        OGRE_EXCEPT ERR_ITEM_NOT_FOUND
          ("Object 'node' must be present in a scene_node. SceneNode: " +:+
           pretty nodeIdx +:+ " File: " +:+ mFilename s)
          "SceneFormatImporter::importSceneNodes"
    end
  end.

(** The loop of [importSceneNodes] from the iterator at position [nodeIdx] on. *)
Fixpoint importSceneNodesFrom (depth : nat) (rest : list (string * Value)) (nodeIdx : Z)
    (json : Value) : M SceneFormatImporter unit :=
  match rest with
  | [] => mret tt
  | (_, value) :: rest' =>
      s ← get;
      _ ← (if IsObject value &&
              negb (bool_decide (is_Some (mCreatedSceneNodes s !! wrap_u32 nodeIdx)))
           then _ ← importSceneNode depth value (wrap_u32 nodeIdx) json; mret tt
           else mret tt);
      importSceneNodesFrom depth rest' (nodeIdx + 1) json
  end.

(** [importSceneNodes( json )]: the walk is over [json.MemberBegin()] ..
    [json.MemberEnd()], with [itor->value] the entry and [itor - begin] its
    index. *)
Definition importSceneNodes (depth : nat) (json : Value) : M SceneFormatImporter unit :=
  members ← MemberRange json;
  importSceneNodesFrom depth members 0 json.

(** The scene-node step of [importScene], on the parsed document [d]:
    [itor = d.FindMember( "scene_nodes" ); if( itor != d.MemberEnd() &&
    itor->value.IsArray() ) importSceneNodes( itor->value )]. *)
Definition importScene_scene_nodes (depth : nat) (d : Value) : M SceneFormatImporter unit :=
  itor ← memberIf d "scene_nodes" IsArray;
  match itor with
  | Some a => importSceneNodes depth a
  | None => mret tt
  end.

(** The part of the scene graph the resolution decides: for each node of the
    store, its parent and its memory-manager type. *)
Definition shape (n : SceneNode) : option SceneNodePtr * SceneMemoryMgrTypes :=
  (parent n, sceneType n).
Definition hierarchy (s : SceneFormatImporter) : list (option SceneNodePtr * SceneMemoryMgrTypes) :=
  shape <$> nodes (mSceneManager s).

(** [s'] differs from [s] in transforms at most: the same entries are created
    and the graph has the same shape. *)
Definition sameShape (s s' : SceneFormatImporter) : Prop :=
  mCreatedSceneNodes s' = mCreatedSceneNodes s /\
  mFilename s' = mFilename s /\
  hierarchy s' = hierarchy s.

(** What [importSceneNode] reads off an entry: the parent index and the type
    from the members of its "node" object, the root flag from the members of
    the entry itself. *)
Definition parentIdxOf (nodeMembers : list (string * Value)) (nodeIdx : Z) : Z :=
  match findMember nodeMembers "parent_id" with
  | Some v => if IsUint v then GetUint v else nodeIdx
  | None => nodeIdx
  end.
Definition sceneNodeTypeOf (nodeMembers : list (string * Value)) : SceneMemoryMgrTypes :=
  match findMember nodeMembers "is_static" with
  | Some v => if IsBool v && GetBool v then SCENE_STATIC else SCENE_DYNAMIC
  | None => SCENE_DYNAMIC
  end.
Definition isRootNodeOf (entryMembers : list (string * Value)) : bool :=
  match findMember entryMembers "is_root_node" with
  | Some v => IsBool v && GetBool v
  | None => false
  end.

(** The document of the specification's example, with [is_root_node] inside
    the "node" object, and the same with the flag on the scene_nodes entry. *)
Definition entry_child_of_1 : Value :=
  JObject [("node", JObject [("parent_id", JInt 1)])].
Definition specNodes : list Value :=
  [ entry_child_of_1;
    JObject [("node", JObject [("parent_id", JInt 1); ("is_root_node", JBool true)])] ].
Definition flaggedNodes : list Value :=
  [ entry_child_of_1;
    JObject [("node", JObject [("parent_id", JInt 1)]); ("is_root_node", JBool true)] ].

(** Two entries that name each other as parent. *)
Definition entry_child_of_0 : Value :=
  JObject [("node", JObject [("parent_id", JInt 0)])].
Definition cycleNodes : list Value := [ entry_child_of_1; entry_child_of_0 ].

End SceneFormat.

(** ** HlmsCompute *)
Module HlmsCompute.
Import Machine Exec.

(** The property identifiers defined at the top of OgreHlmsCompute.cpp. *)
Module ComputeProperty.
Definition ThreadsPerGroupX : string := "threads_per_group_x".
Definition ThreadsPerGroupY : string := "threads_per_group_y".
Definition ThreadsPerGroupZ : string := "threads_per_group_z".
Definition NumThreadGroupsX : string := "num_thread_groups_x".
Definition NumThreadGroupsY : string := "num_thread_groups_y".
Definition NumThreadGroupsZ : string := "num_thread_groups_z".
End ComputeProperty.

(** Modelled from the spec: the identifiers of the base class that
    [compileShader] uses; their definitions (OgreHlms.cpp) are not among the
    sources.  All that matters is that they are pairwise distinct and distinct
    from the six above. *)
Module HlmsBaseProp.
Definition Skeleton : string := "hlms_skeleton".
Definition Pose : string := "hlms_pose".
Definition DisableStage : string := "hlms_disable_stage".
Definition GL3Plus : string := "GL3+".
Definition HighQuality : string := "hlms_high_quality".
End HlmsBaseProp.

(** Modelled from the spec: a property set is a mapping from identifiers to
    [int32] without duplicate keys, so that two sets with the same keys and
    values are equal however they were filled; [Hlms::setProperty] and
    [Hlms::getProperty] (OgreHlms.cpp, not among the sources) write a key and
    read it, an absent key reading as 0. *)
Abbreviation HlmsPropertyVec := (gmap string Z).

Definition setProperty (key : string) (value : Z) (m : HlmsPropertyVec) : HlmsPropertyVec :=
  <[key := value]> m.
Definition getProperty (m : HlmsPropertyVec) (key : string) : Z :=
  default 0 (m !! key).

(** The 128-bit [Hash], [uint64 hashVal[2]]. *)
Abbreviation Hash := (Z * Z)%type.

(** A [HlmsComputeJob*]: the address of the job. *)
Abbreviation JobPtr := nat.

(** A [GpuProgramPtr]: null, or the program the manager keeps at that position. *)
Abbreviation GpuProgramPtr := (option nat).

(** What [compileShader] sets on the program it creates. *)
Record HighLevelGpuProgram := {
  progName : string;
  progLanguage : string;
  progSource : string;
  progDebugFilename : string;
  progParameters : list (string * string);
  skeletalAnimationIncluded : bool;
  morphAnimationIncluded : bool;
  poseAnimationIncluded : Z;
  vertexTextureFetchRequired : bool;
  loaded : bool
}.

Record HlmsComputePso := {
  computeShader : GpuProgramPtr;
  mThreadsPerGroup : Z * Z * Z;
  mNumThreadGroups : Z * Z * Z
}.

(** [pso.initialize()]. *)
Definition initializedPso : HlmsComputePso :=
  {| computeShader := None; mThreadsPerGroup := (0, 0, 0); mNumThreadGroups := (0, 0, 0) |}.

Record ConstBufferSlot := {
  cbSlotIdx : Z;
  cbBuffer : Z
}.

(** A texture or UAV slot; [buffer] is null for an image-backed slot. *)
Record TextureSlot := {
  buffer : option Z;
  slotIdx : Z;
  offset : Z;
  sizeBytes : Z;
  texture : Z;
  samplerblock : Z;
  access : Z;
  mipmapLevel : Z;
  textureArrayIndex : Z;
  pixelFormat : Z
}.

(** The members of [HlmsComputeJob] that [HlmsCompute] touches. *)
Record HlmsComputeJob := {
  mSetProperties : HlmsPropertyVec;
  mPsoCacheHash : Z;
  mSourceFilename : string;
  mIncludedPieceFiles : list string;
  mConstBuffers : list ConstBufferSlot;
  mTextureSlots : list TextureSlot;
  mUavSlots : list TextureSlot
}.

Definition job_setProperties (p : HlmsPropertyVec) (j : HlmsComputeJob) : HlmsComputeJob :=
  {| mSetProperties := p; mPsoCacheHash := mPsoCacheHash j;
     mSourceFilename := mSourceFilename j; mIncludedPieceFiles := mIncludedPieceFiles j;
     mConstBuffers := mConstBuffers j; mTextureSlots := mTextureSlots j;
     mUavSlots := mUavSlots j |}.
Definition job_setPsoCacheHash (h : Z) (j : HlmsComputeJob) : HlmsComputeJob :=
  {| mSetProperties := mSetProperties j; mPsoCacheHash := h;
     mSourceFilename := mSourceFilename j; mIncludedPieceFiles := mIncludedPieceFiles j;
     mConstBuffers := mConstBuffers j; mTextureSlots := mTextureSlots j;
     mUavSlots := mUavSlots j |}.

(** An entry of [mComputeShaderCache]. *)
Record ComputePsoCache := {
  job : JobPtr;
  setProperties : HlmsPropertyVec;
  pso : HlmsComputePso
}.

(** Modelled from the spec: [ComputePsoCache::operator==], declared in
    OgreHlmsCompute.h, which is not among the sources.  Entries are compared
    by the content of their property sets, not by identity and not by the job
    pointer. *)
Definition ComputePsoCache_eq (a b : ComputePsoCache) : Prop :=
  setProperties a = setProperties b.

#[global] Instance ComputePsoCache_eq_dec a b : Decision (ComputePsoCache_eq a b).
Proof. unfold ComputePsoCache_eq. apply _. Defined.

(** The calls that reach the render system and the buffers, in order. *)
Inductive RenderSystemCall :=
| _hlmsComputePipelineStateObjectCreated (p : HlmsComputePso)
| _hlmsComputePipelineStateObjectDestroyed (p : HlmsComputePso)
| ConstBuffer_bindBufferCS (buf slot : Z)
| TexBuffer_bindBufferCS (buf slot offs size : Z)
| UavBuffer_bindBufferCS (buf slot offs size : Z)
| _setTexture (slot : Z) (enabled : bool) (tex : Z)
| _setHlmsSamplerblock (slot samplerblk : Z)
| _bindTextureUavCS (slot tex acc mip arrayIndex pf : Z)
| _setComputePso (p : HlmsComputePso)
| _dispatch (p : HlmsComputePso).

(** The members [compileShader] only reads: they are set when the render
    system is chosen. *)
Record HlmsSettings := {
  mRsSpecificExtensions : list string;
  mShaderProfile : string;
  mShaderFileExt : string;
  mHighQuality : bool;
  mDebugOutput : bool;
  mOutputPath : string;
  mComputeShaderTarget : option string
}.

(** The members of [HlmsCompute] and of its base, together with what it
    reaches through pointers and singletons: the jobs by address, the
    programs of the [HighLevelGpuProgramManager], the calls made on the render
    system and the lines sent to the log.  [this_mSetProperties] is
    [this->mSetProperties], as opposed to a job's. *)
Record HlmsCompute := {
  settings : HlmsSettings;
  this_mSetProperties : HlmsPropertyVec;
  mShaderCache : list Z;
  mCompiledShaderCache : gmap Hash GpuProgramPtr;
  mComputeShaderCache : list ComputePsoCache;
  jobs : gmap JobPtr HlmsComputeJob;
  programs : list HighLevelGpuProgram;
  renderSystem : list RenderSystemCall;
  logMessages : list string
}.

Definition with_mSetProperties (x : HlmsPropertyVec) (h : HlmsCompute) : HlmsCompute :=
  {| settings := settings h;
     this_mSetProperties := x;
     mShaderCache := mShaderCache h;
     mCompiledShaderCache := mCompiledShaderCache h;
     mComputeShaderCache := mComputeShaderCache h;
     jobs := jobs h;
     programs := programs h;
     renderSystem := renderSystem h;
     logMessages := logMessages h |}.
Definition with_mShaderCache (x : list Z) (h : HlmsCompute) : HlmsCompute :=
  {| settings := settings h;
     this_mSetProperties := this_mSetProperties h;
     mShaderCache := x;
     mCompiledShaderCache := mCompiledShaderCache h;
     mComputeShaderCache := mComputeShaderCache h;
     jobs := jobs h;
     programs := programs h;
     renderSystem := renderSystem h;
     logMessages := logMessages h |}.
Definition with_mCompiledShaderCache (x : gmap Hash GpuProgramPtr) (h : HlmsCompute) : HlmsCompute :=
  {| settings := settings h;
     this_mSetProperties := this_mSetProperties h;
     mShaderCache := mShaderCache h;
     mCompiledShaderCache := x;
     mComputeShaderCache := mComputeShaderCache h;
     jobs := jobs h;
     programs := programs h;
     renderSystem := renderSystem h;
     logMessages := logMessages h |}.
Definition with_mComputeShaderCache (x : list ComputePsoCache) (h : HlmsCompute) : HlmsCompute :=
  {| settings := settings h;
     this_mSetProperties := this_mSetProperties h;
     mShaderCache := mShaderCache h;
     mCompiledShaderCache := mCompiledShaderCache h;
     mComputeShaderCache := x;
     jobs := jobs h;
     programs := programs h;
     renderSystem := renderSystem h;
     logMessages := logMessages h |}.
Definition with_jobs (x : gmap JobPtr HlmsComputeJob) (h : HlmsCompute) : HlmsCompute :=
  {| settings := settings h;
     this_mSetProperties := this_mSetProperties h;
     mShaderCache := mShaderCache h;
     mCompiledShaderCache := mCompiledShaderCache h;
     mComputeShaderCache := mComputeShaderCache h;
     jobs := x;
     programs := programs h;
     renderSystem := renderSystem h;
     logMessages := logMessages h |}.
Definition with_programs (x : list HighLevelGpuProgram) (h : HlmsCompute) : HlmsCompute :=
  {| settings := settings h;
     this_mSetProperties := this_mSetProperties h;
     mShaderCache := mShaderCache h;
     mCompiledShaderCache := mCompiledShaderCache h;
     mComputeShaderCache := mComputeShaderCache h;
     jobs := jobs h;
     programs := x;
     renderSystem := renderSystem h;
     logMessages := logMessages h |}.
Definition with_renderSystem (x : list RenderSystemCall) (h : HlmsCompute) : HlmsCompute :=
  {| settings := settings h;
     this_mSetProperties := this_mSetProperties h;
     mShaderCache := mShaderCache h;
     mCompiledShaderCache := mCompiledShaderCache h;
     mComputeShaderCache := mComputeShaderCache h;
     jobs := jobs h;
     programs := programs h;
     renderSystem := x;
     logMessages := logMessages h |}.
Definition with_logMessages (x : list string) (h : HlmsCompute) : HlmsCompute :=
  {| settings := settings h;
     this_mSetProperties := this_mSetProperties h;
     mShaderCache := mShaderCache h;
     mCompiledShaderCache := mCompiledShaderCache h;
     mComputeShaderCache := mComputeShaderCache h;
     jobs := jobs h;
     programs := programs h;
     renderSystem := renderSystem h;
     logMessages := x |}.

(** Calls on the render system and on the log. *)
Definition rsCall (c : RenderSystemCall) : M HlmsCompute unit :=
  modify (fun h => with_renderSystem (renderSystem h ++ [c]) h).
Definition logMessage (msg : string) : M HlmsCompute unit :=
  modify (fun h => with_logMessages (logMessages h ++ [msg]) h).

(** [*job]; a pointer to no job is not dereferenced in defined behaviour. *)
Definition deref (job : JobPtr) : M HlmsCompute HlmsComputeJob :=
  fun h => match jobs h !! job with
           | Some j => Ret j h
           | None => UndefinedBehaviour
           end.
Definition store (job : JobPtr) (j : HlmsComputeJob) : M HlmsCompute unit :=
  modify (fun h => with_jobs (<[job := j]> (jobs h)) h).

(** [this->setProperty( key, value )] and [this->getProperty( key )]. *)
Definition this_setProperty (key : string) (value : Z) : M HlmsCompute unit :=
  modify (fun h => with_mSetProperties (setProperty key value (this_mSetProperties h)) h).
Definition this_getProperty (key : string) : M HlmsCompute Z :=
  fun h => Ret (getProperty (this_mSetProperties h) key) h.

(** Conversion of an [int32] property to the [uint32] members of the PSO. *)
Definition to_uint32 (v : Z) : Z := wrap_u32 v.

(** A [while( itor != end )] loop over a container. *)
Fixpoint forEach {S A} (l : list A) (body : A -> M S unit) : M S unit :=
  match l with
  | [] => mret tt
  | x :: rest => _ ← body x; forEach rest body
  end.

(** Modelled from the spec: [HighLevelGpuProgramManager::createProgram]
    followed by the setters and [load()]; the manager (not among the sources)
    hands out a new program object on every call. *)
Definition createProgram (gp : HighLevelGpuProgram) : M HlmsCompute GpuProgramPtr :=
  fun h => Ret (Some (length (programs h))) (with_programs (programs h ++ [gp]) h).

(** Modelled from the spec: [Hlms::clearShaderCache] (OgreHlms.cpp, not among
    the sources) empties the caches of the base class; it cannot reach the
    private members of [HlmsCompute]. *)
Definition Hlms_clearShaderCache : M HlmsCompute unit :=
  modify (with_mShaderCache []).

Definition invalidParamsMessage : string :=
  "Shader or C++ must set threads_per_group_x, threads_per_group_y & " +:+
  "threads_per_group_z and num_thread_groups_x through num_thread_groups_z." +:+
  " Otherwise we can't run on Metal. Use @pset( threads_per_group_x, 512 );" +:+
  " or read the value using @value( threads_per_group_x ) if you've already" +:+
  " set it from C++ or the JSON material".

Section Collaborators.

(** [HlmsComputeJob::_updateAutoProperties] (OgreHlmsComputeJob.cpp, not among
    the sources): it works on the members of the job. *)
Variable _updateAutoProperties : HlmsComputeJob -> HlmsComputeJob.

(** The template preprocessor of the base class (OgreHlms.cpp, not among the
    sources), for lines 165 to 198 of [compileShader]: from the name of the
    source file, the piece files and the property set it gives the syntax-error
    flag, the expanded text and the property set as the template left it. *)
Variable parseTemplate :
  string -> list string -> HlmsPropertyVec -> bool * string * HlmsPropertyVec.

(** [OGRE_HASH128_FUNC( text, size, IdString::Seed, &hashVal )] (MurmurHash3,
    not among the sources). *)
Variable OGRE_HASH128_FUNC : string -> Hash.

(** [compileShader], lines 151 to 217: the properties of the render system
    are added, the template is expanded, and the name of the debug file is
    made.  Gives [outString] and [debugFilenameOutput].  (Writing the debug
    file itself leaves the members alone.) *)
Definition compileShader_generate (job : JobPtr) (finalHash : Z)
  : M HlmsCompute (string * string) :=
  (* Add RenderSystem-specific properties *)
  h ← get;
  let cfg := settings h in
  _ ← forEach (mRsSpecificExtensions cfg) (fun ext => this_setProperty ext 1);
  j ← deref job;
  _ ← (if String.eqb (mShaderProfile cfg) "glsl"
       then this_setProperty HlmsBaseProp.GL3Plus 330 else mret tt);
  _ ← this_setProperty HlmsBaseProp.HighQuality (Z.b2z (mHighQuality cfg));
  (* Piece files, then the source file *)
  h ← get;
  let '(syntaxError, outString, props) :=
    parseTemplate (mSourceFilename j) (mIncludedPieceFiles j) (this_mSetProperties h) in
  _ ← modify (with_mSetProperties props);
  _ ← (if syntaxError
       then logMessage ("There were HLMS syntax errors while parsing " +:+
                        pretty finalHash +:+ mSourceFilename j +:+ mShaderFileExt cfg)
       else mret tt);
  mret (outString,
        if mDebugOutput cfg
        then mOutputPath cfg +:+ "./" +:+ pretty finalHash +:+ mSourceFilename j +:+
             mShaderFileExt cfg
        else "").

(** The program [compileShader] makes at lines 237 to 255. *)
Definition newProgram (cfg : HlmsSettings) (j : HlmsComputeJob) (finalHash : Z)
    (outString debugFilenameOutput : string) (skeleton pose : Z) : HighLevelGpuProgram :=
  {| progName := pretty finalHash +:+ mSourceFilename j;
     progLanguage := mShaderProfile cfg;
     progSource := outString;
     progDebugFilename := debugFilenameOutput;
     progParameters :=
       match mComputeShaderTarget cfg with
       | Some target => [("target", target); ("entry_point", "main")]
       | None => []
       end;
     skeletalAnimationIncluded := negb (skeleton =? 0);
     morphAnimationIncluded := false;
     poseAnimationIncluded := pose mod 2 ^ 16;
     vertexTextureFetchRequired := false;
     loaded := true |}.

(** [compileShader], lines 219 to 261: the program for the expanded text.
    Gives [shader]. *)
Definition compileShader_program (job : JobPtr) (finalHash : Z)
    (outString debugFilenameOutput : string) : M HlmsCompute GpuProgramPtr :=
  (* Don't create and compile if template requested not to *)
  disableStage ← this_getProperty HlmsBaseProp.DisableStage;
  if disableStage =? 0 then
    let hashVal := OGRE_HASH128_FUNC outString in
    h ← get;
    match mCompiledShaderCache h !! hashVal with
    | None =>
        (* itor == mCompiledShaderCache.end(): shader = itor->second *)
        undefined
    | Some _ =>
        j ← deref job;
        skeleton ← this_getProperty HlmsBaseProp.Skeleton;
        pose ← this_getProperty HlmsBaseProp.Pose;
        gp ← createProgram
               (newProgram (settings h) j finalHash outString debugFilenameOutput
                  skeleton pose);
        (* shader = gp; mCompiledShaderCache[hashVal] = shader *)
        _ ← modify (fun h =>
               with_mCompiledShaderCache (<[hashVal := gp]> (mCompiledShaderCache h)) h);
        mret gp
    end
  else mret None.

(** The condition of the check at lines 276 and 277, on [uint32] products. *)
Definition hasZeroProduct (p : HlmsComputePso) : bool :=
  let '(tx, ty, tz) := mThreadsPerGroup p in
  let '(nx, ny, nz) := mNumThreadGroups p in
  (wrap_u32 (wrap_u32 (tx * ty) * tz) =? 0) || (wrap_u32 (wrap_u32 (nx * ny) * nz) =? 0).

(** [compileShader], lines 263 to 289: the PSO. *)
Definition compileShader_pso (shader : GpuProgramPtr) : M HlmsCompute HlmsComputePso :=
  (* Reset the disable flag. *)
  _ ← this_setProperty HlmsBaseProp.DisableStage 0;
  tx ← this_getProperty ComputeProperty.ThreadsPerGroupX;
  ty ← this_getProperty ComputeProperty.ThreadsPerGroupY;
  tz ← this_getProperty ComputeProperty.ThreadsPerGroupZ;
  nx ← this_getProperty ComputeProperty.NumThreadGroupsX;
  ny ← this_getProperty ComputeProperty.NumThreadGroupsY;
  nz ← this_getProperty ComputeProperty.NumThreadGroupsZ;
  let pso :=
    {| computeShader := shader;
       mThreadsPerGroup := (to_uint32 tx, to_uint32 ty, to_uint32 tz);
       mNumThreadGroups := (to_uint32 nx, to_uint32 ny, to_uint32 nz) |} in
  if hasZeroProduct pso
  then OGRE_EXCEPT ERR_INVALIDPARAMS invalidParamsMessage "HlmsCompute::compileShader"
  else
    _ ← rsCall (_hlmsComputePipelineStateObjectCreated pso);
    mret pso.

(** [compileShader( job, finalHash )]. *)
Definition compileShader (job : JobPtr) (finalHash : Z) : M HlmsCompute HlmsComputePso :=
  '(outString, debugFilenameOutput) ← compileShader_generate job finalHash;
  shader ← compileShader_program job finalHash outString debugFilenameOutput;
  compileShader_pso shader.

(** [clearShaderCache()]. *)
Definition clearShaderCache : M HlmsCompute unit :=
  h ← get;
  _ ← forEach (mComputeShaderCache h) (fun itor =>
        _ ← rsCall (_hlmsComputePipelineStateObjectDestroyed (pso itor));
        j ← deref (job itor);
        store (job itor) (job_setPsoCacheHash SIZE_MAX j));
  _ ← Hlms_clearShaderCache;
  _ ← modify (with_mCompiledShaderCache ∅);
  modify (with_mComputeShaderCache []).

(** [std::find( mComputeShaderCache.begin(), mComputeShaderCache.end(), psoCache )]:
    the position of the first entry equal to [psoCache], none for [end()]. *)
Definition std_find (cache : list ComputePsoCache) (psoCache : ComputePsoCache) : option nat :=
  fst <$> list_find (fun e => ComputePsoCache_eq e psoCache) cache.

Definition bindTextureSlot (itTex : TextureSlot) : M HlmsCompute unit :=
  match buffer itTex with
  | Some b => rsCall (TexBuffer_bindBufferCS b (slotIdx itTex) (offset itTex) (sizeBytes itTex))
  | None =>
      _ ← rsCall (_setTexture (slotIdx itTex) true (texture itTex));
      rsCall (_setHlmsSamplerblock (slotIdx itTex) (samplerblock itTex))
  end.

Definition bindUavSlot (itUav : TextureSlot) : M HlmsCompute unit :=
  match buffer itUav with
  | Some b => rsCall (UavBuffer_bindBufferCS b (slotIdx itUav) (offset itUav) (sizeBytes itUav))
  | None =>
      rsCall (_bindTextureUavCS (slotIdx itUav) (texture itUav) (access itUav)
                (mipmapLevel itUav) (textureArrayIndex itUav) (pixelFormat itUav))
  end.

(** The first half of [dispatch( job )], lines 325 to 364: making
    [job->mPsoCacheHash] designate an entry of the cache. *)
Definition dispatch_lookup (job : JobPtr) : M HlmsCompute unit :=
  h ← get;
  j ← deref job;
  if Z.of_nat (length (mComputeShaderCache h)) <=? mPsoCacheHash j then
    (* Potentially needs to recompile. *)
    let j := _updateAutoProperties j in
    _ ← store job j;
    (* To perform the search, temporarily borrow the properties *)
    let psoCache := {| job := job; setProperties := mSetProperties j; pso := initializedPso |} in
    _ ← store job (job_setProperties ∅ j);
    match std_find (mComputeShaderCache h) psoCache with
    | None =>
        (* Needs to recompile.  Return back the borrowed properties and make a
           hard copy for starting the compilation. *)
        _ ← store job (job_setProperties (setProperties psoCache) j);
        let psoCache := {| job := job; setProperties := ∅; pso := initializedPso |} in
        _ ← modify (with_mSetProperties (mSetProperties j));
        (* Compile and add the PSO to the cache. *)
        h ← get;
        compiled ← compileShader job (wrap_u32 (Z.of_nat (length (mComputeShaderCache h))));
        _ ← modify (fun h =>
               with_mComputeShaderCache
                 (mComputeShaderCache h ++
                  [{| job := job; setProperties := setProperties psoCache; pso := compiled |}])
                 h);
        (* The PSO in the cache doesn't have the properties. Make a hard copy. *)
        j ← deref job;
        _ ← modify (fun h =>
               with_mComputeShaderCache
                 (alter (fun back => {| job := job; setProperties := mSetProperties j;
                                        pso := pso back |})
                    (pred (length (mComputeShaderCache h))) (mComputeShaderCache h))
                 h);
        h ← get;
        store job (job_setPsoCacheHash
                     (wrap_size (Z.of_nat (length (mComputeShaderCache h)) - 1)) j)
    | Some itor =>
        (* It was already in the cache. Return back the borrowed properties
           and set the proper index to the cache. *)
        _ ← store job (job_setProperties (setProperties psoCache) j);
        store job (job_setPsoCacheHash (Z.of_nat itor)
                     (job_setProperties (setProperties psoCache) j))
    end
  else mret tt.

(** The second half of [dispatch( job )], lines 366 to 419: the bindings are
    applied, then the PSO, then the dispatch is issued. *)
Definition dispatch_bindings (job : JobPtr) : M HlmsCompute unit :=
  h ← get;
  j ← deref job;
  match mComputeShaderCache h !! Z.to_nat (mPsoCacheHash j) with
  | None => undefined
  | Some psoCache =>
      _ ← forEach (mConstBuffers j) (fun itConst =>
            rsCall (ConstBuffer_bindBufferCS (cbBuffer itConst) (cbSlotIdx itConst)));
      _ ← forEach (mTextureSlots j) bindTextureSlot;
      _ ← forEach (mUavSlots j) bindUavSlot;
      _ ← rsCall (_setComputePso (pso psoCache));
      rsCall (_dispatch (pso psoCache))
  end.

(** [dispatch( job )]. *)
Definition dispatch (job : JobPtr) : M HlmsCompute unit :=
  _ ← dispatch_lookup job;
  dispatch_bindings job.

(** The members [compileShader] is called with on a miss: the job refreshed,
    its property set back in place, and a copy of it in [this]. *)
Definition beforeCompile (h : HlmsCompute) (job : JobPtr) (j : HlmsComputeJob) : HlmsCompute :=
  with_mSetProperties (mSetProperties (_updateAutoProperties j))
    (with_jobs (<[job := _updateAutoProperties j]> (jobs h)) h).

End Collaborators.

(** The property set [compileShader] hands to the preprocessor: that of
    [this] with the properties of the render system added (lines 153 to 174). *)
Definition mergedProperties (cfg : HlmsSettings) (props : HlmsPropertyVec) : HlmsPropertyVec :=
  let props := foldl (fun m ext => setProperty ext 1 m) props (mRsSpecificExtensions cfg) in
  let props := if String.eqb (mShaderProfile cfg) "glsl"
               then setProperty HlmsBaseProp.GL3Plus 330 props else props in
  setProperty HlmsBaseProp.HighQuality (Z.b2z (mHighQuality cfg)) props.

(** The PSO lines 266 to 274 fill in from a property set. *)
Definition psoOf (shader : GpuProgramPtr) (props : HlmsPropertyVec) : HlmsComputePso :=
  {| computeShader := shader;
     mThreadsPerGroup :=
       (to_uint32 (getProperty props ComputeProperty.ThreadsPerGroupX),
        to_uint32 (getProperty props ComputeProperty.ThreadsPerGroupY),
        to_uint32 (getProperty props ComputeProperty.ThreadsPerGroupZ));
     mNumThreadGroups :=
       (to_uint32 (getProperty props ComputeProperty.NumThreadGroupsX),
        to_uint32 (getProperty props ComputeProperty.NumThreadGroupsY),
        to_uint32 (getProperty props ComputeProperty.NumThreadGroupsZ)) |}.

Definition invalidParams : Exception :=
  {| number := ERR_INVALIDPARAMS; description := invalidParamsMessage;
     source := "HlmsCompute::compileShader" |}.

(** *** Relations between the members before and after a call *)

(** What [compileShader] leaves alone: the jobs, the PSO cache, the settings. *)
Definition sameJobsAndPsos (h h' : HlmsCompute) : Prop :=
  jobs h' = jobs h /\
  mComputeShaderCache h' = mComputeShaderCache h /\
  settings h' = settings h.

(** [h'] differs from [h] in [this->mSetProperties] and the log at most. *)
Definition sameButProperties (h h' : HlmsCompute) : Prop :=
  settings h' = settings h /\
  mShaderCache h' = mShaderCache h /\
  mCompiledShaderCache h' = mCompiledShaderCache h /\
  mComputeShaderCache h' = mComputeShaderCache h /\
  jobs h' = jobs h /\
  programs h' = programs h /\
  renderSystem h' = renderSystem h.

(** The members the loop of [clearShaderCache] does not touch. *)
Definition sameCaches (h h' : HlmsCompute) : Prop :=
  settings h' = settings h /\
  this_mSetProperties h' = this_mSetProperties h /\
  mShaderCache h' = mShaderCache h /\
  mCompiledShaderCache h' = mCompiledShaderCache h /\
  mComputeShaderCache h' = mComputeShaderCache h /\
  programs h' = programs h.

(** *** Sample configurations *)

(** A job without automatic properties, a source file without directives (its
    text goes through unchanged and no property is set by it), and a GL3+
    render system. *)
Definition noAutoProperties (j : HlmsComputeJob) : HlmsComputeJob := j.
Definition plainTemplate (sourceFilename : string) (pieceFiles : list string)
    (props : HlmsPropertyVec) : bool * string * HlmsPropertyVec :=
  (false, "void main() {}", props).

Definition glslSettings : HlmsSettings :=
  {| mRsSpecificExtensions := []; mShaderProfile := "glsl"; mShaderFileExt := ".glsl";
     mHighQuality := false; mDebugOutput := false; mOutputPath := "";
     mComputeShaderTarget := None |}.

(** [HlmsCompute] right after construction, with the given jobs. *)
Definition newHlmsCompute (js : gmap JobPtr HlmsComputeJob) : HlmsCompute :=
  {| settings := glslSettings; this_mSetProperties := ∅; mShaderCache := [];
     mCompiledShaderCache := ∅; mComputeShaderCache := []; jobs := js;
     programs := []; renderSystem := []; logMessages := [] |}.

(** A new job: its cache index is the invalid sentinel. *)
Definition newJob (sourceFilename : string) (props : HlmsPropertyVec) : HlmsComputeJob :=
  {| mSetProperties := props; mPsoCacheHash := SIZE_MAX;
     mSourceFilename := sourceFilename; mIncludedPieceFiles := [];
     mConstBuffers := []; mTextureSlots := []; mUavSlots := [] |}.

(** Property sets that give the dispatch shape; the second also asks for no
    shader stage. *)
Definition shapeProperties (tx ty tz nx ny nz : Z) : HlmsPropertyVec :=
  setProperty ComputeProperty.ThreadsPerGroupX tx
    (setProperty ComputeProperty.ThreadsPerGroupY ty
       (setProperty ComputeProperty.ThreadsPerGroupZ tz
          (setProperty ComputeProperty.NumThreadGroupsX nx
             (setProperty ComputeProperty.NumThreadGroupsY ny
                (setProperty ComputeProperty.NumThreadGroupsZ nz ∅))))).
Definition stagelessProperties (tx ty tz nx ny nz : Z) : HlmsPropertyVec :=
  setProperty HlmsBaseProp.DisableStage 1 (shapeProperties tx ty tz nx ny nz).

(** A hash function for the samples; they never have two texts to tell apart. *)
Definition constHash (text : string) : Hash := (0, 0).

(** [HlmsCompute] after job 0 has been looked up with the property set
    [sharedProperties]: one entry, owned by job 0.  Job 1 has the same
    property set and has not been dispatched. *)
Definition sharedProperties : HlmsPropertyVec := stagelessProperties 8 8 1 4 4 1.
Definition oneEntryHlms : HlmsCompute :=
  {| settings := glslSettings;
     this_mSetProperties :=
       setProperty HlmsBaseProp.DisableStage 0 (mergedProperties glslSettings sharedProperties);
     mShaderCache := [];
     mCompiledShaderCache := ∅;
     mComputeShaderCache :=
       [{| job := 0%nat; setProperties := sharedProperties;
           pso := psoOf None sharedProperties |}];
     jobs := {[ 0%nat := job_setPsoCacheHash 0 (newJob "a.glsl" sharedProperties);
                1%nat := newJob "b.glsl" sharedProperties ]};
     programs := [];
     renderSystem := [_hlmsComputePipelineStateObjectCreated (psoOf None sharedProperties)];
     logMessages := [] |}.


(** A job that leaves the number of thread groups unset. *)
Definition shapelessProperties : HlmsPropertyVec :=
  setProperty HlmsBaseProp.DisableStage 1
    (setProperty ComputeProperty.ThreadsPerGroupX 8 ∅).

End HlmsCompute.

(** ** GL3PlusTexBufferPacked: the constructor *)
Module TexBufferConstruction.
Import Machine TexBuffer.

(** What [GL3PlusPixelUtil] and [PixelUtil] (not among the sources) give for
    the pixel format [pf]. *)
Record PixelFormatInfo := {
  getGLImageInternalFormat : Z;
  getGLOriginFormat : Z;
  getGLOriginDataType : Z;
  getNumElemBytes : Z
}.

Inductive TexParameter :=
| GL_TEXTURE_BASE_LEVEL | GL_TEXTURE_MAX_LEVEL
| GL_TEXTURE_MAG_FILTER | GL_TEXTURE_MIN_FILTER
| GL_TEXTURE_WRAP_S | GL_TEXTURE_WRAP_T.

Inductive TexParameterValue := Level (n : Z) | GL_NEAREST | GL_CLAMP_TO_EDGE.

(** The GL entry points the constructor calls, with the arguments it passes
    ([glTexImage2D]: level, border and the null data pointer are constants). *)
Inductive GLSetupCall :=
| glGenTextures (n : Z)
| glBindTexture_ (target : GLTarget) (texture : Z)
| glTexParameteri (target : GLTarget) (pname : TexParameter) (param : TexParameterValue)
| glTexImage2D (target : GLTarget) (internalformat width height format type : Z).

(** Conversion of a [size_t] argument to [GLsizei], a 32-bit [int]. *)
Definition to_GLsizei (z : Z) : Z :=
  let w := wrap_u32 z in if w <? 2 ^ 31 then w else w - UINT32_MOD.

(** Conversion of a [size_t] argument to [GLintptr] or [GLsizeiptr], which are
    [ptrdiff_t], 64 bits and signed. *)
Definition to_GLintptr (z : Z) : Z :=
  let w := wrap_size z in if w <? 2 ^ 63 then w else w - SIZE_MOD.
Definition to_GLsizeiptr (z : Z) : Z := to_GLintptr z.

(** A call of [bindBuffer] as the entry point receives it:
    [glTexBufferRange( GLenum, GLenum, GLuint, GLintptr offset, GLsizeiptr size )]
    and [glTexSubImage2D( ..., GLsizei width, GLsizei height, ... )] take
    their sizes signed; the other arguments have the type of the parameter
    already. *)
Definition received (c : GLCall) : GLCall :=
  match c with
  | glTexBufferRange internalformat buffer offset size =>
      glTexBufferRange internalformat buffer (to_GLintptr offset) (to_GLsizeiptr size)
  | glTexSubImage2D width height format type data =>
      glTexSubImage2D (to_GLsizei width) (to_GLsizei height) format type data
  | _ => c
  end.

Inductive Constructed :=
| CtorAssertionFailed
| CtorUndefined
| Built (b : GL3PlusTexBufferPacked) (calls : list GLSetupCall).

(** The constructor.  [numElements], [bytesPerElement], [finalBufferStart],
    [bufferInterfaceIsGL3Plus] and [vboName] are the members the constructors
    of the base classes (not among the sources) initialise; [texName] is the
    name [glGenTextures] writes; [legacyBuild] tells whether the build defines
    [OGRE_LEGACY_GL_COMPATIBLE], [renderSystem] is what
    [Root::getSingleton().getRenderSystem()] gives, as the native shading
    language version of the render system when there is one; [uninit] stands
    for the members the constructor leaves uninitialised. *)
Definition construct (legacyBuild ndebug : bool)
    (numElements bytesPerElement finalBufferStart : Z)
    (bufferInterfaceIsGL3Plus : bool) (vboName : Z)
    (pf : PixelFormatInfo) (texName : Z) (renderSystem : option Z) (uninit : Z)
  : Constructed :=
  let native :=
    Built {| mNumElements := numElements; mBytesPerElement := bytesPerElement;
             mFinalBufferStart := finalBufferStart; mTexName := texName;
             mInternalFormat := getGLImageInternalFormat pf;
             bufferInterfaceIsGL3Plus := bufferInterfaceIsGL3Plus; vboName := vboName;
             mUseLegacyTechnique := false; mMaxTexSize := uninit;
             mInternalNumElemBytes := uninit; mInternalNumElements := uninit;
             mOriginFormat := uninit; mOriginDataType := uninit |}
          [ glGenTextures 1; glBindTexture_ GL_TEXTURE_BUFFER texName ] in
  if legacyBuild then
    match renderSystem with
    | None => if ndebug then CtorUndefined else CtorAssertionFailed
    | Some nativeShadingLanguageVersion =>
        if nativeShadingLanguageVersion <? 430 then
          let mMaxTexSize := 2048 in
          let mInternalNumElemBytes := getNumElemBytes pf in
          if mInternalNumElemBytes =? 0 then CtorUndefined
          else
            let mInternalNumElements := numElements / mInternalNumElemBytes in
            let width := Z.min mMaxTexSize mInternalNumElements in
            let texHeight :=
              wrap_size (mInternalNumElements + mMaxTexSize - 1) / mMaxTexSize in
            Built {| mNumElements := numElements; mBytesPerElement := bytesPerElement;
                     mFinalBufferStart := finalBufferStart; mTexName := texName;
                     mInternalFormat := getGLImageInternalFormat pf;
                     bufferInterfaceIsGL3Plus := bufferInterfaceIsGL3Plus;
                     vboName := vboName;
                     mUseLegacyTechnique := true; mMaxTexSize := mMaxTexSize;
                     mInternalNumElemBytes := mInternalNumElemBytes;
                     mInternalNumElements := mInternalNumElements;
                     mOriginFormat := getGLOriginFormat pf;
                     mOriginDataType := getGLOriginDataType pf |}
                  [ glGenTextures 1;
                    glBindTexture_ GL_TEXTURE_2D texName;
                    glTexParameteri GL_TEXTURE_2D GL_TEXTURE_BASE_LEVEL (Level 0);
                    glTexParameteri GL_TEXTURE_2D GL_TEXTURE_MAX_LEVEL (Level 0);
                    glTexParameteri GL_TEXTURE_2D GL_TEXTURE_MAG_FILTER GL_NEAREST;
                    glTexParameteri GL_TEXTURE_2D GL_TEXTURE_MIN_FILTER GL_NEAREST;
                    glTexParameteri GL_TEXTURE_2D GL_TEXTURE_WRAP_S GL_CLAMP_TO_EDGE;
                    glTexParameteri GL_TEXTURE_2D GL_TEXTURE_WRAP_T GL_CLAMP_TO_EDGE;
                    glTexImage2D GL_TEXTURE_2D (getGLImageInternalFormat pf)
                      (to_GLsizei width) (to_GLsizei texHeight)
                      (getGLOriginFormat pf) (getGLOriginDataType pf) ]
        else native
    end
  else native.

(** The 2D texture a constructor run allocates: the width and height of its
    [glTexImage2D] call. *)
Definition allocated (calls : list GLSetupCall) : option (Z * Z) :=
  head (omap (fun c => match c with
                       | glTexImage2D _ _ width height _ _ => Some (width, height)
                       | _ => None
                       end) calls).

(** The rectangle a bind uploads: the width and height of its
    [glTexSubImage2D] call. *)
Definition uploaded (calls : list GLCall) : option (Z * Z) :=
  head (omap (fun c => match c with
                       | glTexSubImage2D width height _ _ _ => Some (width, height)
                       | _ => None
                       end) calls).

(** The texture units a bind selects and the unpack alignments it sets, in
    order. *)
Definition activeTextureUnits (calls : list GLCall) : list Z :=
  omap (fun c => match c with glActiveTexture u => Some u | _ => None end) calls.
Definition unpackAlignments (calls : list GLCall) : list Z :=
  omap (fun c => match c with glPixelStorei_UNPACK_ALIGNMENT a => Some a | _ => None end) calls.

End TexBufferConstruction.

(** ** SceneFormatImporter: items and the whole scene *)
Module SceneFormatItems.
Import Machine Exec Json SceneFormat.

Definition IsString (v : Value) : bool := match v with JString _ => true | _ => false end.
(** [GetString()]: a [const char*] to the characters of the string, all of
    them; the code calls it behind [IsString()] only. *)
Definition GetString (v : Value) : string := match v with JString s => s | _ => "" end.

(** [String( const char* )], [String::operator=( const char* )] and
    [IdString( const char* )]: the characters up to the first NUL, which a
    JSON string may hold (written \u0000).  Every use the importer makes of
    [GetString()] goes through one of them. *)
Fixpoint fromCString (p : string) : string :=
  match p with
  | EmptyString => EmptyString
  | String c rest => if Ascii.eqb c Ascii.zero then EmptyString
                     else String c (fromCString rest)
  end.

Definition decodeVector4Array (jsonArray : Value) : M SceneFormatImporter (list float) :=
  match jsonArray with
  | JArray elements =>
      mret (decodeInto [float_zero; float_zero; float_zero; float_zero] elements)
  | _ => assertFailed
  end.

Record Aabb := {
  mCenter : list float;
  mHalfSize : list float
}.

(** [decodeAabbArray( jsonArray, defaultValue )]. *)
Definition decodeAabbArray (jsonArray : Value) (defaultValue : Aabb)
  : M SceneFormatImporter Aabb :=
  size ← Size jsonArray;
  if size =? 2 then
    e ← at_ jsonArray 0;
    center ← decodeVector3Array e;
    e ← at_ jsonArray 1;
    halfSize ← decodeVector3Array e;
    mret {| mCenter := center; mHalfSize := halfSize |}
  else mret defaultValue.

(** What the importer calls or writes on a [MovableObject] (OgreMovableObject.cpp
    is not among the sources), with the arguments it passes; [attachObject] is
    called on the scene node, with the object as argument. *)
Inductive MovableObjectCall :=
| setName (name : string)
| attachObject (node : SceneNodePtr)
| setRenderQueueGroup (rqId : Z)
| setLocalAabb (aabb : Aabb)
| set_mLocalRadius (radius : float)
| setRenderingDistance (dist : float)
| set_mVisibilityFlags (flags : Z)
| set_mQueryFlags (flags : Z)
| set_mLightMask (mask : Z).

(** The same for a [Renderable]. *)
Inductive RenderableCall :=
| setCustomParameter (index : Z) (value : list float)
| setDatablock (datablockName : string)
| setDatablockOrMaterialName (materialName groupName : string)
| set_mCustomParameter (value : Z)
| setRenderQueueSubGroup (subGroup : Z)
| setPolygonModeOverrideable (override : bool)
| setUseIdentityView (useIdentityView : bool)
| setUseIdentityProjection (useIdentityProjection : bool).

(** An [Item] as the importer sees it: what it was created from, the box
    [getLocalAabb()] returns when the importer asks (once, before it sets
    one), the number of its sub-items, and the calls made on it and on each of
    its sub-items so far. *)
Record Item := {
  meshName : string;
  resourceGroup : string;
  itemType : SceneMemoryMgrTypes;
  getLocalAabb : Aabb;
  objectCalls : list MovableObjectCall;
  subItems : list (list RenderableCall)
}.

(** An [Item*] is the position of the item among those of the scene manager, a
    [SubItem*] an item and the index of the sub-item. *)
Abbreviation ItemPtr := nat.
Abbreviation SubItemPtr := (nat * nat)%type.

(** The importer together with what it reaches beyond the scene nodes: the
    items of the scene manager and the log. *)
Record Import := {
  importer : SceneFormatImporter;
  mItems : list Item;
  logged : list string
}.

Definition initialImport : Import :=
  {| importer := initialImporter; mItems := []; logged := [] |}.

(** A method that works on the importer's own members. *)
Definition onImporter {A} (m : M SceneFormatImporter A) : M Import A :=
  fun s =>
    match m (importer s) with
    | Ret a i => Ret a {| importer := i; mItems := mItems s; logged := logged s |}
    | Raise e i => Raise e {| importer := i; mItems := mItems s; logged := logged s |}
    | AssertFailed => AssertFailed
    | UndefinedBehaviour => UndefinedBehaviour
    | StackExhausted => StackExhausted
    end.

Definition logMessage (msg : string) : M Import unit :=
  modify (fun s =>
    {| importer := importer s; mItems := mItems s; logged := logged s ++ [msg] |}).

Definition derefItem (item : ItemPtr) : M Import Item :=
  fun s => match mItems s !! item with
           | Some it => Ret it s
           | None => UndefinedBehaviour
           end.

Definition callObject (movableObject : ItemPtr) (c : MovableObjectCall) : M Import unit :=
  it ← derefItem movableObject;
  modify (fun s =>
    {| importer := importer s;
       mItems := <[movableObject :=
                     {| meshName := meshName it; resourceGroup := resourceGroup it;
                        itemType := itemType it; getLocalAabb := getLocalAabb it;
                        objectCalls := objectCalls it ++ [c];
                        subItems := subItems it |}]> (mItems s);
       logged := logged s |}).

Definition callRenderable (renderable : SubItemPtr) (c : RenderableCall) : M Import unit :=
  it ← derefItem renderable.1;
  match subItems it !! renderable.2 with
  | None => undefined
  | Some calls =>
      modify (fun s =>
        {| importer := importer s;
           mItems := <[renderable.1 :=
                         {| meshName := meshName it; resourceGroup := resourceGroup it;
                            itemType := itemType it; getLocalAabb := getLocalAabb it;
                            objectCalls := objectCalls it;
                            subItems := <[renderable.2 := calls ++ [c]]> (subItems it) |}]>
                       (mItems s);
           logged := logged s |})
  end.

(** [ResourceGroupManager::AUTODETECT_RESOURCE_GROUP_NAME]; it is defined in
    OgreResourceGroupManager.cpp, which is not among the sources. *)
Definition AUTODETECT_RESOURCE_GROUP_NAME : string := "Autodetect".

(** [importMovableObject( movableObjectValue, movableObject )]. *)
Definition importMovableObject (movableObjectValue : Value) (movableObject : ItemPtr)
  : M Import unit :=
  _ ← whenMember movableObjectValue "name" IsString
        (fun v => callObject movableObject (setName (fromCString (GetString v))));
  _ ← whenMember movableObjectValue "parent_node_id" IsUint
        (fun v =>
           let nodeId := GetUint v in
           s ← get;
           match mCreatedSceneNodes (importer s) !! nodeId with
           | Some node => callObject movableObject (attachObject node)
           | None =>
               logMessage ("WARNING: MovableObject references SceneNode " +:+
                           pretty nodeId +:+
                           " which does not exist or couldn't be created")
           end);
  _ ← whenMember movableObjectValue "render_queue" IsUint
        (fun v => callObject movableObject (setRenderQueueGroup (GetUint v)));
  _ ← whenMember movableObjectValue "local_aabb" IsArray
        (fun v =>
           it ← derefItem movableObject;
           aabb ← onImporter (decodeAabbArray v (getLocalAabb it));
           callObject movableObject (setLocalAabb aabb));
  _ ← whenMember movableObjectValue "local_radius" IsUint
        (fun v => callObject movableObject (set_mLocalRadius (decodeFloat v)));
  _ ← whenMember movableObjectValue "rendering_distance" IsUint
        (fun v => callObject movableObject (setRenderingDistance (decodeFloat v)));
  (* Decode raw flag values *)
  _ ← whenMember movableObjectValue "visibility_flags" IsUint
        (fun v => callObject movableObject (set_mVisibilityFlags (GetUint v)));
  _ ← whenMember movableObjectValue "query_flags" IsUint
        (fun v => callObject movableObject (set_mQueryFlags (GetUint v)));
  whenMember movableObjectValue "light_mask" IsUint
    (fun v => callObject movableObject (set_mLightMask (GetUint v))).

(** [static_cast<uint8>( x )]. *)
Definition to_uint8 (x : Z) : Z := x mod 256.

(** [importRenderable( renderableValue, renderable )].  The name of a member
    is itself a value, which a JSON document has as a string. *)
Definition importRenderable (renderableValue : Value) (renderable : SubItemPtr)
  : M Import unit :=
  _ ← whenMember renderableValue "custom_parameters" IsObject
        (fun v =>
           members ← MemberRange v;
           HlmsCompute.forEach members (fun itor =>
             let name := JString itor.1 in
             if IsUint name && IsArray itor.2 then
               let idxCustomParam := GetUint name in
               value ← onImporter (decodeVector4Array itor.2);
               callRenderable renderable (setCustomParameter idxCustomParam value)
             else mret tt));
  tmpIt ← memberIf renderableValue "is_v1_material" IsBool;
  let isV1Material := match tmpIt with Some v => GetBool v | None => false end in
  _ ← whenMember renderableValue "datablock" IsString
        (fun v =>
           if negb isV1Material
           then callRenderable renderable (setDatablock (fromCString (GetString v)))
           else callRenderable renderable
                  (setDatablockOrMaterialName (fromCString (GetString v))
                     AUTODETECT_RESOURCE_GROUP_NAME));
  _ ← whenMember renderableValue "custom_parameter" IsUint
        (fun v => callRenderable renderable (set_mCustomParameter (to_uint8 (GetUint v))));
  _ ← whenMember renderableValue "render_queue_sub_group" IsUint
        (fun v => callRenderable renderable (setRenderQueueSubGroup (to_uint8 (GetUint v))));
  _ ← whenMember renderableValue "polygon_mode_overrideable" IsBool
        (fun v => callRenderable renderable (setPolygonModeOverrideable (GetBool v)));
  _ ← whenMember renderableValue "use_identity_view" IsBool
        (fun v => callRenderable renderable (setUseIdentityView (GetBool v)));
  whenMember renderableValue "use_identity_projection" IsBool
    (fun v => callRenderable renderable (setUseIdentityProjection (GetBool v))).

(** [importSubItem( subItemValue, subItem )]. *)
Definition importSubItem (subItemValue : Value) (subItem : SubItemPtr) : M Import unit :=
  whenMember subItemValue "renderable" IsObject (fun v => importRenderable v subItem).

Section Collaborators.

(** [SceneManager::createItem] (OgreSceneManager.cpp, not among the sources)
    loads the mesh of that name from that resource group: it throws, or makes
    an item with as many sub-items as the mesh has sub-meshes and with the box
    of the mesh. *)
Variable loadMesh : string -> string -> Exception + (nat * Aabb).

(** [rapidjson::Document::Parse] (not among the sources): the document, or
    none when [HasParseError()]. *)
Variable Parse : string -> option Value.

Definition createItem (meshName resourceGroup : string) (sceneType : SceneMemoryMgrTypes)
  : M Import ItemPtr :=
  fun s =>
    match loadMesh meshName resourceGroup with
    | inl e => Raise e s
    | inr (numSubItems, aabb) =>
        Ret (length (mItems s))
            {| importer := importer s;
               mItems := mItems s ++
                 [{| meshName := meshName; resourceGroup := resourceGroup;
                     itemType := sceneType; getLocalAabb := aabb; objectCalls := [];
                     subItems := replicate numSubItems [] |}];
               logged := logged s |}
    end.

(** The body of the loop of [importItems] for an entry that is an object. *)
Definition importItem (itemValue : Value) : M Import unit :=
  tmpIt ← memberIf itemValue "mesh" IsString;
  let meshName :=
    match tmpIt with Some v => fromCString (GetString v) | None => "" end in
  tmpIt ← memberIf itemValue "mesh_resource_group" IsString;
  let resourceGroup :=
    match tmpIt with Some v => fromCString (GetString v) | None => "" end in
  let resourceGroup :=
    if String.eqb resourceGroup "" then AUTODETECT_RESOURCE_GROUP_NAME else resourceGroup in
  movableObjectValue ← memberIf itemValue "movable_object" IsObject;
  isStatic ←
    match movableObjectValue with
    | Some mo =>
        tmpIt ← memberIf mo "is_static" IsBool;
        mret (match tmpIt with Some v => GetBool v | None => false end)
    | None => mret false
    end;
  let sceneNodeType := if isStatic : bool then SCENE_STATIC else SCENE_DYNAMIC in
  item ← createItem meshName resourceGroup sceneNodeType;
  _ ← match movableObjectValue with
      | Some mo => importMovableObject mo item
      | None => mret tt
      end;
  whenMember itemValue "sub_items" IsArray
    (fun subItemsArray =>
       size ← Size subItemsArray;
       it ← derefItem item;
       let numSubItems := Z.min (Z.of_nat (length (subItems it))) size in
       HlmsCompute.forEach (seqZ 0 numSubItems) (fun i =>
         subItemValue ← at_ subItemsArray i;
         if IsObject subItemValue
         then importSubItem subItemValue (item, Z.to_nat i)
         else mret tt)).

(** [importItems( json )]: like [importSceneNodes], the walk is over
    [json.MemberBegin()] .. [json.MemberEnd()]. *)
Definition importItems (json : Value) : M Import unit :=
  members ← MemberRange json;
  HlmsCompute.forEach members (fun itor =>
    if IsObject itor.2 then importItem itor.2 else mret tt).

(** [importScene( filename, jsonString )]. *)
Definition importScene (depth : nat) (filename jsonString : string) : M Import unit :=
  _ ← onImporter (modify (fun i =>
         {| mSceneManager := mSceneManager i;
            mCreatedSceneNodes := mCreatedSceneNodes i;
            mFilename := filename |}));
  match Parse jsonString with
  | None =>
      OGRE_EXCEPT ERR_INVALIDPARAMS
        "SceneFormatImporter::importScene"
        ("Invalid JSON string in file " +:+ filename)
  | Some d =>
      itor ← memberIf d "scene_nodes" IsArray;
      _ ← match itor with
          | Some a => onImporter (importSceneNodes depth a)
          | None => mret tt
          end;
      itor ← memberIf d "items" IsArray;
      match itor with
      | Some a => importItems a
      | None => mret tt
      end
  end.

End Collaborators.

(** *** Parent chains

    The entry at index [i] of [elements] resolves within [k] nested calls
    when it holds a "node" object whose parent is the entry itself or a node
    created already, or an entry not created yet that resolves within [k - 1]
    nested calls. *)
Fixpoint resolvesWithin (k : nat) (elements : list Value)
    (created : gmap Z SceneNodePtr) (i : Z) : Prop :=
  exists entryMembers nodeMembers,
    0 <= i /\
    elements !! Z.to_nat i = Some (JObject entryMembers) /\
    findMember entryMembers "node" = Some (JObject nodeMembers) /\
    let parentIdx := parentIdxOf nodeMembers i in
    parentIdx = i \/
    is_Some (created !! parentIdx) \/
    match k with
    | O => False
    | S k' => parentIdx <> i /\ created !! parentIdx = None /\
              resolvesWithin k' elements created parentIdx
    end.

(** Every node the importer has recorded, and both roots, are nodes of the
    scene manager. *)
Definition wellFormed (s : SceneFormatImporter) : Prop :=
  (2 <= length (nodes (mSceneManager s)))%nat /\
  forall i p, mCreatedSceneNodes s !! i = Some p ->
              (p < length (nodes (mSceneManager s)))%nat.

(** *** Notions the properties are stated with *)

(** The component a decoded vector has where the array has [element] (none
    beyond its end) and the vector started with [dflt]. *)
Definition component (dflt : float) (element : option Value) : float :=
  match element with
  | Some e => if IsUint e then decodeFloat e else dflt
  | None => dflt
  end.

(** [*p = n]. *)
Definition storeNode (p : SceneNodePtr) (n : SceneNode) (s : SceneFormatImporter)
  : SceneFormatImporter :=
  {| mSceneManager := {| nodes := <[p := n]> (nodes (mSceneManager s)) |};
     mCreatedSceneNodes := mCreatedSceneNodes s; mFilename := mFilename s |}.

(** A member of that name and type, as the idiom of [memberIf] finds it. *)
Definition memberOf (members : list (string * Value)) (name : string)
    (isT : Value -> bool) : option Value :=
  match findMember members name with
  | Some x => if isT x then Some x else None
  | None => None
  end.

(** A call is never left by [OGRE_EXCEPT]. *)
Definition neverRaises {S A} (m : M S A) : Prop :=
  forall s e s', m s <> Raise e s'.

(** The nodes a list of calls attaches the object to. *)
Definition attachments (calls : list MovableObjectCall) : list SceneNodePtr :=
  omap (fun c => match c with attachObject node => Some node | _ => None end) calls.

(** A "local_aabb" value [decodeAabbArray] gets through: an array of two
    elements holds two arrays. *)
Definition aabbDecodes (v : Value) : Prop :=
  match v with
  | JArray [a; b] => IsArray a = true /\ IsArray b = true
  | _ => True
  end.

(** The datablock calls among a list of calls: the name, and whether it went
    through [setDatablockOrMaterialName]. *)
Definition datablockCalls (calls : list RenderableCall) : list (string * bool) :=
  omap (fun c => match c with
                 | setDatablock name => Some (name, false)
                 | setDatablockOrMaterialName name _ => Some (name, true)
                 | _ => None
                 end) calls.

Definition isCustomParameterCall (c : RenderableCall) : bool :=
  match c with setCustomParameter _ _ => true | _ => false end.

(** The members after [added] has been appended to the calls made on an item
    and [lines] to the log; the same for the calls on a sub-item. *)
Definition withObjectCalls (movableObject : ItemPtr) (added : list MovableObjectCall)
    (lines : list string) (s : Import) : Import :=
  {| importer := importer s;
     mItems :=
       alter (fun it =>
                {| meshName := meshName it; resourceGroup := resourceGroup it;
                   itemType := itemType it; getLocalAabb := getLocalAabb it;
                   objectCalls := objectCalls it ++ added;
                   subItems := subItems it |})
             movableObject (mItems s);
     logged := logged s ++ lines |}.

Definition withRenderableCalls (renderable : SubItemPtr) (added : list RenderableCall)
    (s : Import) : Import :=
  {| importer := importer s;
     mItems :=
       alter (fun it =>
                {| meshName := meshName it; resourceGroup := resourceGroup it;
                   itemType := itemType it; getLocalAabb := getLocalAabb it;
                   objectCalls := objectCalls it;
                   subItems := alter (fun calls => calls ++ added) renderable.2 (subItems it) |})
             renderable.1 (mItems s);
     logged := logged s |}.

(** An import with one item of one sub-item, nothing called on it yet. *)
Definition oneItem : Import :=
  {| importer := initialImporter;
     mItems := [{| meshName := "crate.mesh"; resourceGroup := "General";
                   itemType := SCENE_DYNAMIC;
                   getLocalAabb := {| mCenter := [0; 0; 0]; mHalfSize := [0; 0; 0] |};
                   objectCalls := []; subItems := [[]] |}];
     logged := [] |}.

(** What an item was created with. *)
Definition createdAs (it : Item) : string * string * SceneMemoryMgrTypes * Aabb * nat :=
  (meshName it, resourceGroup it, itemType it, getLocalAabb it, length (subItems it)).

(** [s'] differs from [s] in the calls made on [item] and its sub-items and
    in the log at most. *)
Definition touchesOnly (item : ItemPtr) (s s' : Import) : Prop :=
  importer s' = importer s /\
  length (mItems s') = length (mItems s) /\
  (forall k, k <> item -> mItems s' !! k = mItems s !! k) /\
  createdAs <$> mItems s' !! item = createdAs <$> mItems s !! item.

(** What the loop of [importItems] reads off an entry: the mesh, its resource
    group and the type of the item. *)
Definition meshNameOf (itemMembers : list (string * Value)) : string :=
  match memberOf itemMembers "mesh" IsString with
  | Some v => fromCString (GetString v)
  | None => ""
  end.
Definition resourceGroupOf (itemMembers : list (string * Value)) : string :=
  match memberOf itemMembers "mesh_resource_group" IsString with
  | Some v => if String.eqb (fromCString (GetString v)) ""
              then AUTODETECT_RESOURCE_GROUP_NAME
              else fromCString (GetString v)
  | None => AUTODETECT_RESOURCE_GROUP_NAME
  end.
Definition movableObjectOf (itemMembers : list (string * Value))
  : option (list (string * Value)) :=
  match memberOf itemMembers "movable_object" IsObject with
  | Some (JObject mo) => Some mo
  | _ => None
  end.
Definition itemTypeOf (itemMembers : list (string * Value)) : SceneMemoryMgrTypes :=
  match movableObjectOf itemMembers with
  | Some mo => sceneNodeTypeOf mo
  | None => SCENE_DYNAMIC
  end.

(** An entry of "items": a mesh, a resource group that starts with NUL, a
    static movable object and one sub-item. *)
Definition crateBox : Aabb :=
  {| mCenter := [0; 0; 0]; mHalfSize := [float_one; float_one; float_one] |}.
Definition crateEntry : list (string * Value) :=
  [ ("mesh", JString "crate.mesh");
    ("mesh_resource_group", JString (String Ascii.zero "General"));
    ("movable_object", JObject [("is_static", JBool true)]);
    ("sub_items",
     JArray [JObject [("renderable", JObject [("datablock", JString "Rocks")])]]) ].

(** The members once [importScene] has recorded the name of the file. *)
Definition named (filename : string) (s : Import) : Import :=
  {| importer := {| mSceneManager := mSceneManager (importer s);
                    mCreatedSceneNodes := mCreatedSceneNodes (importer s);
                    mFilename := filename |};
     mItems := mItems s;
     logged := logged s |}.

End SceneFormatItems.

(** ** HlmsCompute: the render system, the jobs by name, and the calls of a dispatch *)
Module HlmsComputeJobs.
Import Machine Exec HlmsCompute.

(** Must be sorted from best to worst *)
Definition BestD3DComputeShaderTargets : list string := ["cs_5_0"; "cs_4_1"; "cs_4_0"].

(** A render system, as far as [_changeRenderSystem] asks it:
    [getCapabilities()->isShaderProfileSupported( profile )]. *)
Abbreviation RenderSystem := (string -> bool).

Definition with_settings (x : HlmsSettings) (h : HlmsCompute) : HlmsCompute :=
  {| settings := x;
     this_mSetProperties := this_mSetProperties h;
     mShaderCache := mShaderCache h;
     mCompiledShaderCache := mCompiledShaderCache h;
     mComputeShaderCache := mComputeShaderCache h;
     jobs := jobs h;
     programs := programs h;
     renderSystem := renderSystem h;
     logMessages := logMessages h |}.

Definition set_mShaderProfile (profile : string) : M HlmsCompute unit :=
  modify (fun h =>
    let cfg := settings h in
    with_settings
      {| mRsSpecificExtensions := mRsSpecificExtensions cfg; mShaderProfile := profile;
         mShaderFileExt := mShaderFileExt cfg; mHighQuality := mHighQuality cfg;
         mDebugOutput := mDebugOutput cfg; mOutputPath := mOutputPath cfg;
         mComputeShaderTarget := mComputeShaderTarget cfg |} h).

Definition set_mComputeShaderTarget (target : string) : M HlmsCompute unit :=
  modify (fun h =>
    let cfg := settings h in
    with_settings
      {| mRsSpecificExtensions := mRsSpecificExtensions cfg;
         mShaderProfile := mShaderProfile cfg;
         mShaderFileExt := mShaderFileExt cfg; mHighQuality := mHighQuality cfg;
         mDebugOutput := mDebugOutput cfg; mOutputPath := mOutputPath cfg;
         mComputeShaderTarget := Some target |} h).

(** An [IdString], by its hash. *)
Abbreviation IdString := Z.

(** An entry of [mComputeJobs]. *)
Record ComputeJobEntry := {
  computeJob : JobPtr;
  name : string
}.

(** [HlmsCompute] with the member that maps names to jobs. *)
Record HlmsComputeWithJobs := {
  hlms : HlmsCompute;
  mComputeJobs : gmap IdString ComputeJobEntry
}.

(** A method that works on the other members. *)
Definition onHlms {A} (m : M HlmsCompute A) : M HlmsComputeWithJobs A :=
  fun s =>
    match m (hlms s) with
    | Ret a h => Ret a {| hlms := h; mComputeJobs := mComputeJobs s |}
    | Raise e h => Raise e {| hlms := h; mComputeJobs := mComputeJobs s |}
    | AssertFailed => AssertFailed
    | UndefinedBehaviour => UndefinedBehaviour
    | StackExhausted => StackExhausted
    end.

Section Collaborators.

(** [Hlms::_changeRenderSystem] (OgreHlms.cpp, not among the sources): the
    members as the base class leaves them, and the [mRenderSystem] it sets. *)
Variable Hlms_changeRenderSystem :
  option RenderSystem -> HlmsCompute -> HlmsCompute * option RenderSystem.

(** The constructor of [HlmsComputeJob] (OgreHlmsComputeJob.cpp, not among
    the sources), from the name, the source file and the piece files. *)
Variable HlmsComputeJob_new : IdString -> string -> list string -> HlmsComputeJob.

(** [IdString::getFriendlyText] (OgreIdString.h, not among the sources). *)
Variable getFriendlyText : IdString -> string.

(** [_changeRenderSystem( newRs )]. *)
Definition _changeRenderSystem (newRs : option RenderSystem) : M HlmsCompute unit :=
  h ← get;
  let '(h, mRenderSystem) := Hlms_changeRenderSystem newRs h in
  _ ← put h;
  match mRenderSystem with
  | Some isShaderProfileSupported =>
      (* Prefer glsl over glsles *)
      _ ← forEach ["hlsl"; "glsles"; "glsl"] (fun profile =>
            if isShaderProfileSupported profile then set_mShaderProfile profile
            else mret tt);
      h ← get;
      if String.eqb (mShaderProfile (settings h)) "hlsl" then
        forEach BestD3DComputeShaderTargets (fun target =>
          h ← get;
          match mComputeShaderTarget (settings h) with
          | None =>
              if isShaderProfileSupported target then set_mComputeShaderTarget target
              else mret tt
          | Some _ => mret tt
          end)
      else mret tt
  | None => mret tt
  end.

(** [OGRE_NEW]: an address at which no job lives. *)
Definition newAddress (h : HlmsCompute) : JobPtr := fresh (dom (jobs h)).

(** [createComputeJob( datablockName, refName, sourceFilename, includedPieceFiles )]. *)
Definition createComputeJob (datablockName : IdString) (refName sourceFilename : string)
    (includedPieceFiles : list string) : M HlmsComputeWithJobs JobPtr :=
  s ← get;
  let retVal := newAddress (hlms s) in
  _ ← onHlms (store retVal
                (HlmsComputeJob_new datablockName sourceFilename includedPieceFiles));
  _ ← modify (fun s =>
         {| hlms := hlms s;
            mComputeJobs := <[datablockName := {| computeJob := retVal; name := refName |}]>
                              (mComputeJobs s) |});
  mret retVal.

(** [findComputeJobNoThrow( datablockName )]; none for the null pointer. *)
Definition findComputeJobNoThrow (datablockName : IdString)
  : M HlmsComputeWithJobs (option JobPtr) :=
  s ← get;
  mret (match mComputeJobs s !! datablockName with
        | Some itor => Some (computeJob itor)
        | None => None
        end).

(** [findComputeJob( datablockName )]. *)
Definition findComputeJob (datablockName : IdString) : M HlmsComputeWithJobs JobPtr :=
  retVal ← findComputeJobNoThrow datablockName;
  match retVal with
  | None =>
      OGRE_EXCEPT ERR_ITEM_NOT_FOUND
        ("Compute Job with name " +:+ getFriendlyText datablockName +:+ " not found")
        "HlmsCompute::findComputeJob"
  | Some job => mret job
  end.

(** [OGRE_DELETE job]; deleting what is not alive is undefined. *)
Definition OGRE_DELETE (job : JobPtr) : M HlmsCompute unit :=
  h ← get;
  match jobs h !! job with
  | Some _ => modify (with_jobs (delete job (jobs h)))
  | None => undefined
  end.

(** [destroyAllComputeJobs()].  The entries are walked in the order of
    [map_to_list], which need not be that of the [std::map] of the source; the
    jobs deleted, and whether one is deleted twice, do not depend on it. *)
Definition destroyAllComputeJobs : M HlmsComputeWithJobs unit :=
  s ← get;
  _ ← forEach (map_to_list (mComputeJobs s)) (fun itor =>
        onHlms (OGRE_DELETE (computeJob itor.2)));
  modify (fun s => {| hlms := hlms s; mComputeJobs := ∅ |}).

End Collaborators.

(** *** Notions the properties are stated with *)

(** The calls the second half of [dispatch] makes for the slots of a job. *)
Definition textureSlotCalls (itTex : TextureSlot) : list RenderSystemCall :=
  match buffer itTex with
  | Some b => [TexBuffer_bindBufferCS b (slotIdx itTex) (offset itTex) (sizeBytes itTex)]
  | None => [ _setTexture (slotIdx itTex) true (texture itTex);
              _setHlmsSamplerblock (slotIdx itTex) (samplerblock itTex) ]
  end.
Definition uavSlotCalls (itUav : TextureSlot) : list RenderSystemCall :=
  match buffer itUav with
  | Some b => [UavBuffer_bindBufferCS b (slotIdx itUav) (offset itUav) (sizeBytes itUav)]
  | None => [ _bindTextureUavCS (slotIdx itUav) (texture itUav) (access itUav)
                (mipmapLevel itUav) (textureArrayIndex itUav) (pixelFormat itUav) ]
  end.
Definition slotCalls (j : HlmsComputeJob) : list RenderSystemCall :=
  ((fun itConst => ConstBuffer_bindBufferCS (cbBuffer itConst) (cbSlotIdx itConst))
     <$> mConstBuffers j) ++
  (mTextureSlots j ≫= textureSlotCalls) ++
  (mUavSlots j ≫= uavSlotCalls).

(** The first of [candidates] the render system supports. *)
Definition firstSupported (isShaderProfileSupported : string -> bool)
    (candidates : list string) : option string :=
  List.find isShaderProfileSupported candidates.

(** The profile [_changeRenderSystem] ends with for a render system, [dflt]
    being the one the base class chose. *)
Definition preferredProfile (isShaderProfileSupported : string -> bool) (dflt : string)
  : string :=
  if isShaderProfileSupported "glsl" then "glsl"
  else if isShaderProfileSupported "glsles" then "glsles"
  else if isShaderProfileSupported "hlsl" then "hlsl"
  else dflt.

(** Every job that has a name is alive, and no two names share a job. *)
Definition namesAlive (s : HlmsComputeWithJobs) : Prop :=
  (forall n e, mComputeJobs s !! n = Some e -> is_Some (jobs (hlms s) !! computeJob e)) /\
  (forall n1 n2 e1 e2,
     mComputeJobs s !! n1 = Some e1 -> mComputeJobs s !! n2 = Some e2 ->
     computeJob e1 = computeJob e2 -> n1 = n2).

(** *** Sample configurations *)

(** [oneEntryHlms] with its two jobs registered by name. *)
Definition oneEntryWithNames : HlmsComputeWithJobs :=
  {| hlms := oneEntryHlms;
     mComputeJobs := {[ 7 := {| computeJob := 0%nat; name := "blur" |};
                        9 := {| computeJob := 1%nat; name := "downsample" |} ]} |}.

End HlmsComputeJobs.

(** * Properties *)

(** ** Machine integers *)
Module MachineFacts.
Import Machine.

Lemma wrap_size_small z : is_size z -> wrap_size z = z.
Proof. intros H. apply Z.mod_small. exact H. Qed.

Lemma wrap_u32_small z : is_u32 z -> wrap_u32 z = z.
Proof. intros H. apply Z.mod_small. exact H. Qed.

Lemma wrap_size_range z : is_size (wrap_size z).
Proof. apply Z.mod_pos_bound. reflexivity. Qed.

Lemma wrap_u32_range z : is_u32 (wrap_u32 z).
Proof. apply Z.mod_pos_bound. reflexivity. Qed.

End MachineFacts.

(** ** Facts about [bindBuffer] *)
Module TexBufferFacts.
Import Machine MachineFacts TexBuffer.

Lemma totalSizeBytes_range b : is_size (totalSizeBytes b).
Proof. apply wrap_size_range. Qed.

(** On the native path, once the assertions are behind, the range handed to
    GL is [offset, offset + sizeBytes), with 0 standing for the rest. *)
Lemma bindBuffer_native_calls ndebug b slot offset sizeBytes :
  mUseLegacyTechnique b = false ->
  (forall n, bindBuffer ndebug b slot offset sizeBytes <> AssertionFailed n) ->
  bindBuffer ndebug b slot offset sizeBytes =
  Issued
    [ glActiveTexture (GL_TEXTURE0 + slot);
      glBindTexture GL_TEXTURE_BUFFER (mTexName b);
      glTexBufferRange (mInternalFormat b) (vboName b)
        (wrap_size (mFinalBufferStart b * mBytesPerElement b + offset))
        (if sizeBytes =? 0 then wrap_size (totalSizeBytes b - offset) else sizeBytes);
      glActiveTexture GL_TEXTURE0 ].
Proof.
  intros Hnative Hpass. unfold bindBuffer in *. rewrite Hnative in *.
  repeat match goal with
         | |- context [if ?c then AssertionFailed ?n else _] =>
             destruct c eqn:?; [exfalso; apply (Hpass n);
               repeat match goal with H : _ = true |- _ => rewrite H end;
               repeat match goal with H : _ = false |- _ => rewrite H end;
               reflexivity |]
         end.
  repeat match goal with
         | H : context [if ?c then AssertionFailed ?n else _], E : ?c = false |- _ =>
             rewrite E in H
         end.
  reflexivity.
Qed.

(** With the assertions compiled in, an offset below [total - 1] and an end
    inside the buffer get past all three of them. *)
Lemma bindBuffer_assertions_pass b slot offset sizeBytes :
  bufferInterfaceIsGL3Plus b = true ->
  mUseLegacyTechnique b = false ->
  0 <= offset -> 0 <= sizeBytes ->
  offset < totalSizeBytes b - 1 ->
  offset + sizeBytes <= totalSizeBytes b ->
  passesAssertions (bindBuffer false b slot offset sizeBytes).
Proof.
  intros Hif Hnative Ho Hs Hlt Hle n.
  pose proof (totalSizeBytes_range b) as Ht. unfold is_size in Ht.
  unfold bindBuffer. rewrite Hif, Hnative. cbn [negb andb].
  rewrite (wrap_size_small (totalSizeBytes b - 1)) by (unfold is_size; lia).
  rewrite (wrap_size_small (offset + sizeBytes)) by (unfold is_size; lia).
  destruct (Z.ltb_spec offset (totalSizeBytes b - 1)); [| lia].
  destruct (Z.leb_spec (offset + sizeBytes) (totalSizeBytes b)); [| lia].
  cbn [negb]. discriminate.
Qed.

(** The sentinel: whenever the call gets past its assertions on the native
    path, [sizeBytes = 0] binds [offset, total) and a positive [sizeBytes]
    binds [offset, offset + sizeBytes). *)
Lemma bindBuffer_binds_range ndebug b slot offset sizeBytes :
  mUseLegacyTechnique b = false ->
  0 <= offset < totalSizeBytes b ->
  0 <= sizeBytes ->
  passesAssertions (bindBuffer ndebug b slot offset sizeBytes) ->
  bindsRange b (bindBuffer ndebug b slot offset sizeBytes) offset
    (if sizeBytes =? 0 then totalSizeBytes b else offset + sizeBytes).
Proof.
  intros Hnative Ho Hs Hpass.
  pose proof (totalSizeBytes_range b) as Ht. unfold is_size in Ht.
  rewrite (bindBuffer_native_calls _ _ _ _ _ Hnative Hpass).
  eexists. split; [reflexivity |].
  right; right; left. f_equal.
  destruct (Z.eqb_spec sizeBytes 0).
  - apply wrap_size_small. unfold is_size. lia.
  - lia.
Qed.

(** A build with [NDEBUG] has no assertions to fail. *)
Lemma bindBuffer_ndebug_passes b slot offset sizeBytes :
  passesAssertions (bindBuffer true b slot offset sizeBytes).
Proof.
  intros n. unfold bindBuffer. cbn [negb andb].
  destruct (mUseLegacyTechnique b); [| discriminate].
  destruct (mInternalNumElemBytes b =? 0); [discriminate |].
  destruct (mMaxTexSize b =? 0); discriminate.
Qed.

(** The second assertion rejects the offset of the last byte of any non-empty
    buffer, whatever the size asked for. *)
Lemma bindBuffer_rejects_last_byte b slot sizeBytes :
  bufferInterfaceIsGL3Plus b = true ->
  1 <= totalSizeBytes b ->
  bindBuffer false b slot (totalSizeBytes b - 1) sizeBytes = AssertionFailed 2.
Proof.
  intros Hif Hpos.
  pose proof (totalSizeBytes_range b) as Ht. unfold is_size in Ht.
  unfold bindBuffer. rewrite Hif. cbn [negb andb].
  rewrite (wrap_size_small (totalSizeBytes b - 1)) by (unfold is_size; lia).
  rewrite Z.ltb_irrefl. reflexivity.
Qed.

(** C8 (code at the failing input).  On the 16-byte buffer, the stage bind
    with offset 15 (below the total size) and [sizeBytes = 0] should bind the
    bytes [15, 16); with assertions compiled in, the call stops at its second
    assertion, [offset < total - 1], and binds nothing. *)
Theorem bindBufferCS_rest_of_buffer_last_byte :
  15 < totalSizeBytes buf16 /\
  bindBufferCS false buf16 0 15 0 = AssertionFailed 2 /\
  ~ bindsRange buf16 (bindBufferCS false buf16 0 15 0) 15 (totalSizeBytes buf16).
Proof.
  split; [reflexivity |]. split; [reflexivity |].
  intros [calls [Heq _]]. discriminate Heq.
Qed.

(** C9 (code at the failing input).  Offset 15 and size 1 on the 16-byte
    buffer meet the documented precondition (offset below the total size, end
    at most the total size), yet the second assertion, [offset < total - 1],
    fails. *)
Theorem bindBuffer_precondition_assertion_fails :
  15 < totalSizeBytes buf16 /\
  15 + 1 <= totalSizeBytes buf16 /\
  bindBuffer false buf16 0 15 1 = AssertionFailed 2 /\
  ~ passesAssertions (bindBuffer false buf16 0 15 1).
Proof.
  split; [reflexivity |]. split; [discriminate |]. split; [reflexivity |].
  intros H. apply (H 2%nat). reflexivity.
Qed.

End TexBufferFacts.

(** ** Reasoning about [Exec.M] *)
Module ExecFacts.
Import Exec.

Lemma bind_unfold {S A B} (m : M S A) (f : A -> M S B) (s : S) :
  (x ← m; f x) s =
  match m s with
  | Ret a s' => f a s'
  | Raise e s' => Raise e s'
  | AssertFailed => AssertFailed
  | UndefinedBehaviour => UndefinedBehaviour
  | StackExhausted => StackExhausted
  end.
Proof. reflexivity. Qed.

Lemma bind_Ret {S A B} (m : M S A) (f : A -> M S B) s a s' :
  m s = Ret a s' -> (x ← m; f x) s = f a s'.
Proof. intros H. rewrite bind_unfold, H. reflexivity. Qed.

Lemma bind_StackExhausted {S A B} (m : M S A) (f : A -> M S B) s :
  m s = StackExhausted -> (x ← m; f x) s = StackExhausted.
Proof. intros H. rewrite bind_unfold, H. reflexivity. Qed.

Lemma bind_Raise {S A B} (m : M S A) (f : A -> M S B) s e s' :
  m s = Raise e s' -> (x ← m; f x) s = Raise e s'.
Proof. intros H. rewrite bind_unfold, H. reflexivity. Qed.

Lemma returns_ret {S A} (a : A) (s : S) (Q : A -> S -> Prop) :
  Q a s -> returns (mret a) s Q.
Proof. intros H. exists a, s. split; [reflexivity | exact H]. Qed.

Lemma returns_bind {S A B} (m : M S A) (f : A -> M S B) s (Q : B -> S -> Prop) :
  returns m s (fun a s' => returns (f a) s' Q) -> returns (x ← m; f x) s Q.
Proof.
  intros (a & s' & Hm & b & s'' & Hf & HQ).
  exists b, s''. split; [| exact HQ]. rewrite (bind_Ret _ _ _ _ _ Hm). exact Hf.
Qed.

Lemma returns_weaken {S A} (m : M S A) s (Q Q' : A -> S -> Prop) :
  returns m s Q -> (forall a s', Q a s' -> Q' a s') -> returns m s Q'.
Proof. intros (a & s' & Hm & HQ) H. exists a, s'. auto. Qed.

Lemma bind_inv_Ret {S A B} (m : M S A) (f : A -> M S B) s b s'' :
  (x ← m; f x) s = Ret b s'' -> exists a s', m s = Ret a s' /\ f a s' = Ret b s''.
Proof.
  rewrite bind_unfold. destruct (m s) as [a s' | | | |]; try discriminate.
  intros H. exists a, s'. auto.
Qed.

Lemma bind_inv_Raise {S A B} (m : M S A) (f : A -> M S B) s e s'' :
  (x ← m; f x) s = Raise e s'' ->
  m s = Raise e s'' \/ exists a s', m s = Ret a s' /\ f a s' = Raise e s''.
Proof.
  rewrite bind_unfold. destruct (m s) as [a s' | e' s' | | |]; try discriminate.
  - intros H. right. exists a, s'. auto.
  - intros [= -> ->]. left. reflexivity.
Qed.

End ExecFacts.

(** ** Facts about the scene-node importer *)
Module SceneFormatFacts.
Import Machine MachineFacts Exec Json SceneFormat ExecFacts.

Lemma memberIf_object {S} members name isT (s : S) :
  memberIf (JObject members) name isT s =
  Ret (match findMember members name with
       | Some x => if isT x then Some x else None
       | None => None
       end) s.
Proof. reflexivity. Qed.

Lemma sameShape_refl s : sameShape s s.
Proof. repeat split. Qed.

Lemma sameShape_trans s1 s2 s3 : sameShape s1 s2 -> sameShape s2 s3 -> sameShape s1 s3.
Proof. intros (a & b & c) (d & e & f). repeat split; congruence. Qed.

Lemma hierarchy_length s : length (hierarchy s) = length (nodes (mSceneManager s)).
Proof. unfold hierarchy. apply length_fmap. Qed.

Lemma sameShape_length s s' :
  sameShape s s' -> length (nodes (mSceneManager s')) = length (nodes (mSceneManager s)).
Proof. intros (_ & _ & H). rewrite <- !hierarchy_length. congruence. Qed.

Lemma updateNode_sameShape p f s :
  (p < length (nodes (mSceneManager s)))%nat ->
  (forall n, shape (f n) = shape n) ->
  returns (updateNode p f) s (fun _ s' => sameShape s s').
Proof.
  intros Hp Hf. unfold updateNode, returns.
  destruct (lookup_lt_is_Some_2 _ _ Hp) as [n Hn]. rewrite Hn.
  eexists tt, _. split; [reflexivity |].
  repeat split. unfold hierarchy. cbn.
  rewrite list_fmap_insert, Hf. apply list_insert_id.
  rewrite list_lookup_fmap, Hn. reflexivity.
Qed.

(** One [if( itor != MemberEnd() && IsT ) node->set...] step of [importNode]. *)
Lemma whenMember_sameShape members name isT (body : Value -> M SceneFormatImporter unit) s0 s :
  sameShape s0 s ->
  (forall a, isT a = true -> returns (body a) s (fun _ s' => sameShape s s')) ->
  returns (whenMember (JObject members) name isT body) s (fun _ s' => sameShape s0 s').
Proof.
  intros H0 Hbody. unfold whenMember. apply returns_bind.
  unfold returns at 1. eexists _, s. split; [apply memberIf_object |].
  destruct (findMember members name) as [x |]; [destruct (isT x) eqn:Hx |].
  - eapply returns_weaken; [apply Hbody, Hx |].
    intros ? s' H. exact (sameShape_trans _ _ _ H0 H).
  - apply returns_ret, H0.
  - apply returns_ret, H0.
Qed.

Lemma decode3_set_sameShape p a s (set : list float -> SceneNode -> SceneNode) :
  (p < length (nodes (mSceneManager s)))%nat ->
  (forall v n, shape (set v n) = shape n) ->
  IsArray a = true ->
  returns (v ← decodeVector3Array a; updateNode p (set v)) s (fun _ s' => sameShape s s').
Proof.
  intros Hp Hset Ha. destruct a; try discriminate.
  apply returns_bind. eexists _, s. split; [reflexivity |].
  apply updateNode_sameShape; auto.
Qed.

(** [importNode] returns, and touches transforms only. *)
Lemma importNode_sameShape members p s :
  (p < length (nodes (mSceneManager s)))%nat ->
  returns (importNode (JObject members) p) s (fun _ s' => sameShape s s').
Proof.
  intros Hp. unfold importNode.
  assert (Hlen : forall s', sameShape s s' -> (p < length (nodes (mSceneManager s')))%nat).
  { intros s' H. rewrite (sameShape_length _ _ H). exact Hp. }
  apply returns_bind.
  eapply returns_weaken.
  { apply (whenMember_sameShape _ _ _ _ s); [apply sameShape_refl |]. intros x Hx.
    apply decode3_set_sameShape; [exact Hp | reflexivity | exact Hx]. }
  intros ? s1 H1. cbv beta in *.
  apply returns_bind. eapply returns_weaken.
  { apply (whenMember_sameShape _ _ _ _ s); [exact H1 |]. intros x Hx.
    destruct x; try discriminate.
    apply returns_bind. eexists _, s1. split; [reflexivity |].
    apply updateNode_sameShape; [auto | reflexivity]. }
  intros ? s2 H2. cbv beta in *.
  apply returns_bind. eapply returns_weaken.
  { apply (whenMember_sameShape _ _ _ _ s); [exact H2 |]. intros x Hx.
    apply decode3_set_sameShape; [auto | reflexivity | exact Hx]. }
  intros ? s3 H3. cbv beta in *.
  apply returns_bind. eapply returns_weaken.
  { apply (whenMember_sameShape _ _ _ _ s); [exact H3 |]. intros x Hx.
    apply updateNode_sameShape; [auto | reflexivity]. }
  intros ? s4 H4. cbv beta in *.
  apply (whenMember_sameShape _ _ _ _ s); [exact H4 |]. intros x Hx.
  apply updateNode_sameShape; [auto | reflexivity].
Qed.

(** The body of [importSceneNode] for an entry that holds a "node" object. *)
Lemma importSceneNode_S depth entryMembers nodeMembers nodeIdx json s :
  findMember entryMembers "node" = Some (JObject nodeMembers) ->
  importSceneNode (S depth) (JObject entryMembers) nodeIdx json s =
  (sceneNode ←
     (if negb (parentIdxOf nodeMembers nodeIdx =? nodeIdx) then
        s ← get;
        parentNode ←
          match mCreatedSceneNodes s !! parentIdxOf nodeMembers nodeIdx with
          | None =>
              size ← Size json;
              parentNode ←
                (if parentIdxOf nodeMembers nodeIdx <? size then
                   parentValue ← at_ json (parentIdxOf nodeMembers nodeIdx);
                   if IsObject parentValue then
                     p ← importSceneNode depth parentValue
                           (parentIdxOf nodeMembers nodeIdx) json;
                     mret (Some p)
                   else mret None
                 else mret None);
              match parentNode with
              | Some p => mret p
              | None =>
                  OGRE_EXCEPT ERR_ITEM_NOT_FOUND
                    ("Node " +:+ pretty nodeIdx +:+ " is child of " +:+
                     pretty (parentIdxOf nodeMembers nodeIdx) +:+
                     " but we could not find it or create it. This file is malformed.")
                    "SceneFormatImporter::importSceneNode"
              end
          | Some p => mret p
          end;
        createChildSceneNode parentNode (sceneNodeTypeOf nodeMembers)
      else
        if isRootNodeOf entryMembers
        then mret (getRootSceneNode (sceneNodeTypeOf nodeMembers))
        else createSceneNode (sceneNodeTypeOf nodeMembers));
   _ ← importNode (JObject nodeMembers) sceneNode;
   _ ← recordCreated nodeIdx sceneNode;
   mret sceneNode) s.
Proof.
  intros Hnode. cbn [importSceneNode].
  rewrite bind_unfold, memberIf_object, Hnode. cbn [IsObject].
  rewrite bind_unfold, memberIf_object.
  rewrite bind_unfold, memberIf_object.
  unfold parentIdxOf, sceneNodeTypeOf, isRootNodeOf.
  rewrite (bind_unfold _ _ s).
  destruct (findMember nodeMembers "parent_id") as [pv |];
    [destruct (IsUint pv) |];
    (destruct (findMember nodeMembers "is_static") as [sv |];
     [destruct (IsBool sv); [destruct (GetBool sv) |] |]);
    cbn [andb];
    match goal with
    | |- context [if negb (?a =? ?b) then _ else _] => destruct (negb (a =? b))
    end;
    try reflexivity;
    rewrite (bind_unfold _ _ s), memberIf_object;
    (destruct (findMember entryMembers "is_root_node") as [rv |];
     [destruct (IsBool rv); [destruct (GetBool rv) |] |]);
    reflexivity.
Qed.

(** *** Entries without a parent *)

Lemma getRootSceneNode_lt t : (getRootSceneNode t < 2)%nat.
Proof. destruct t; cbn; lia. Qed.

(** The tail of [importSceneNode] once the node exists: transforms, then the
    entry into [mCreatedSceneNodes]. *)
Lemma importSceneNode_finish nodeMembers nodeIdx sceneNode s :
  (sceneNode < length (nodes (mSceneManager s)))%nat ->
  exists s',
    (_ ← importNode (JObject nodeMembers) sceneNode;
     _ ← recordCreated nodeIdx sceneNode;
     mret sceneNode) s = Ret sceneNode s' /\
    mCreatedSceneNodes s' = <[nodeIdx := sceneNode]> (mCreatedSceneNodes s) /\
    hierarchy s' = hierarchy s.
Proof.
  intros Hp.
  destruct (importNode_sameShape nodeMembers sceneNode s Hp)
    as ([] & s1 & Himp & Hcreated & _ & Hh).
  eexists. split; [| split].
  - rewrite (bind_Ret _ _ _ _ _ Himp). reflexivity.
  - cbn. rewrite Hcreated. reflexivity.
  - exact Hh.
Qed.

(** C6, as amended.  An entry whose "node" object names the entry's own index
    as parent (or names none) resolves to the scene manager's designated root
    of its type exactly when the member [is_root_node] of the scene_nodes
    entry itself, beside "node", is the boolean true; the graph is then left
    as it is.  Otherwise, also when the flag sits inside "node", it resolves
    to a fresh top-level node.  In the array
    [{"node":{"parent_id":1}}, {"node":{"parent_id":1},"is_root_node":true}]
    resolving entry 0 makes entry 1 the root and attaches the node of entry 0
    beneath it. *)
Theorem importSceneNode_self_parent_root_flag :
  (forall depth entryMembers nodeMembers nodeIdx json s,
     findMember entryMembers "node" = Some (JObject nodeMembers) ->
     parentIdxOf nodeMembers nodeIdx = nodeIdx ->
     (2 <= length (nodes (mSceneManager s)))%nat ->
     exists sceneNode s',
       importSceneNode (S depth) (JObject entryMembers) nodeIdx json s
         = Ret sceneNode s' /\
       mCreatedSceneNodes s' = <[nodeIdx := sceneNode]> (mCreatedSceneNodes s) /\
       (sceneNode = getRootSceneNode (sceneNodeTypeOf nodeMembers)
          <-> isRootNodeOf entryMembers = true) /\
       (isRootNodeOf entryMembers = true -> hierarchy s' = hierarchy s) /\
       (isRootNodeOf entryMembers = false ->
          sceneNode = length (nodes (mSceneManager s)) /\
          hierarchy s' = hierarchy s ++ [(None, sceneNodeTypeOf nodeMembers)])) /\
  (forall depth,
     exists s',
       importSceneNode (S (S depth)) entry_child_of_1 0 (JArray flaggedNodes)
         initialImporter = Ret 2%nat s' /\
       mCreatedSceneNodes s' !! 1 = Some (getRootSceneNode SCENE_DYNAMIC) /\
       mCreatedSceneNodes s' !! 0 = Some 2%nat /\
       hierarchy s' =
         [ (None, SCENE_DYNAMIC); (None, SCENE_STATIC);
           (Some (getRootSceneNode SCENE_DYNAMIC), SCENE_DYNAMIC) ]).
Proof.
  split.
  - intros depth em nm idx json s Hnode Hself Hroots.
    rewrite (importSceneNode_S _ _ _ _ _ _ Hnode), Hself, Z.eqb_refl. cbn [negb].
    pose proof (getRootSceneNode_lt (sceneNodeTypeOf nm)) as Hlt.
    destruct (isRootNodeOf em) eqn:Hflag.
    + destruct (importSceneNode_finish nm idx (getRootSceneNode (sceneNodeTypeOf nm)) s)
        as (s' & Hrun & Hcreated & Hh); [lia |].
      exists (getRootSceneNode (sceneNodeTypeOf nm)), s'.
      split; [exact Hrun |]. split; [exact Hcreated |].
      split; [tauto |]. split; [auto | discriminate].
    + set (s1 := {| mSceneManager :=
                      {| nodes := nodes (mSceneManager s) ++ [newNode None (sceneNodeTypeOf nm)] |};
                    mCreatedSceneNodes := mCreatedSceneNodes s;
                    mFilename := mFilename s |}).
      destruct (importSceneNode_finish nm idx (length (nodes (mSceneManager s))) s1)
        as (s' & Hrun & Hcreated & Hh).
      { cbn. rewrite length_app. cbn. lia. }
      exists (length (nodes (mSceneManager s))), s'.
      split; [exact Hrun |]. split; [exact Hcreated |].
      split; [split; [lia | discriminate] |].
      split; [discriminate |]. intros _. split; [reflexivity |].
      rewrite Hh. unfold hierarchy. cbn. rewrite fmap_app. reflexivity.
  - intros depth. eexists. split; [vm_compute; reflexivity |].
    repeat split.
Qed.

(** At a concrete entry: the flagged entry 1 of the array above, resolved on
    its own from the initial importer. *)
Lemma importSceneNode_self_parent_root_flag_witness :
  findMember [("node", JObject [("parent_id", JInt 1)]); ("is_root_node", JBool true)]
    "node" = Some (JObject [("parent_id", JInt 1)]) /\
  parentIdxOf [("parent_id", JInt 1)] 1 = 1 /\
  (2 <= length (nodes (mSceneManager initialImporter)))%nat /\
  exists sceneNode s',
    importSceneNode 1 (JObject [("node", JObject [("parent_id", JInt 1)]);
                                ("is_root_node", JBool true)]) 1
      (JArray flaggedNodes) initialImporter = Ret sceneNode s' /\
    mCreatedSceneNodes s' = <[1 := sceneNode]> (mCreatedSceneNodes initialImporter) /\
    (sceneNode = getRootSceneNode (sceneNodeTypeOf [("parent_id", JInt 1)])
       <-> isRootNodeOf [("node", JObject [("parent_id", JInt 1)]);
                         ("is_root_node", JBool true)] = true).
Proof.
  split; [reflexivity |]. split; [reflexivity |]. split; [cbn; lia |].
  destruct (proj1 importSceneNode_self_parent_root_flag 0%nat
              [("node", JObject [("parent_id", JInt 1)]); ("is_root_node", JBool true)]
              [("parent_id", JInt 1)] 1 (JArray flaggedNodes) initialImporter
              eq_refl eq_refl (le_n 2))
    as (sceneNode & s' & H1 & H2 & H3 & _).
  exists sceneNode, s'. auto.
Defined.

(** C6, as first stated, fails on the document of the specification, where
    [is_root_node] is a member of the "node" object: the flag there is not
    read, entry 1 becomes a fresh top-level node (pointer 2) and not the
    designated root, and the node of entry 0 hangs beneath that fresh node. *)
Lemma importSceneNode_flag_inside_node_not_root :
  ~ (exists depth sceneNode s',
       importSceneNode depth entry_child_of_1 0 (JArray specNodes) initialImporter
         = Ret sceneNode s' /\
       (mCreatedSceneNodes s' !! 1 = Some (getRootSceneNode SCENE_DYNAMIC) \/
        mCreatedSceneNodes s' !! 1 = Some (getRootSceneNode SCENE_STATIC))).
Proof.
  intros (depth & sceneNode & s' & Hrun & Hroot).
  destruct depth as [| [| depth]]; try discriminate Hrun.
  vm_compute in Hrun. injection Hrun as <- <-.
  destruct Hroot as [H | H]; vm_compute in H; discriminate H.
Qed.

(** *** Entries with a parent *)

(** A call that returns was given an entry with a "node" object. *)
Lemma importSceneNode_Ret_inv depth entry nodeIdx json s sceneNode s' :
  importSceneNode depth entry nodeIdx json s = Ret sceneNode s' ->
  exists depth' entryMembers nodeMembers,
    depth = S depth' /\ entry = JObject entryMembers /\
    findMember entryMembers "node" = Some (JObject nodeMembers).
Proof.
  destruct depth as [| depth']; [discriminate |].
  destruct entry as [| | | | | | em]; try discriminate.
  cbn [importSceneNode]. rewrite bind_unfold, memberIf_object.
  destruct (findMember em "node") as [nv |] eqn:Hnode; [| discriminate].
  destruct nv as [| | | | | | nm]; try discriminate.
  intros _. exists depth', em, nm. auto.
Qed.

(** A call that returns has entered its result under its index. *)
Lemma importSceneNode_records_result depth entry nodeIdx json s sceneNode s' :
  importSceneNode depth entry nodeIdx json s = Ret sceneNode s' ->
  mCreatedSceneNodes s' !! nodeIdx = Some sceneNode.
Proof.
  intros Hrun.
  destruct (importSceneNode_Ret_inv _ _ _ _ _ _ _ Hrun) as (d & em & nm & -> & -> & Hnode).
  rewrite (importSceneNode_S _ _ _ _ _ _ Hnode) in Hrun.
  apply bind_inv_Ret in Hrun as (sn & s1 & _ & Hrest).
  apply bind_inv_Ret in Hrest as ([] & s2 & _ & Hrest).
  apply bind_inv_Ret in Hrest as ([] & s3 & Hrec & Hret).
  injection Hret as <- <-. injection Hrec as <-.
  cbn. apply lookup_insert_eq.
Qed.

(** Nodes are only ever added to the store. *)
Lemma importNode_grows nodeMembers p s s' :
  importNode (JObject nodeMembers) p s = Ret tt s' ->
  (length (nodes (mSceneManager s)) <= length (nodes (mSceneManager s')))%nat.
Proof.
  assert (Hupd : forall q f t t', updateNode q f t = Ret tt t' ->
            length (nodes (mSceneManager t')) = length (nodes (mSceneManager t))).
  { intros q f t t'. unfold updateNode. destruct (_ !! _); [| discriminate].
    intros [= <-]. cbn. apply length_insert. }
  assert (Hwhen : forall name isT (body : Value -> M SceneFormatImporter unit) t t',
            (forall a u u', body a u = Ret tt u' ->
               length (nodes (mSceneManager u')) = length (nodes (mSceneManager u))) ->
            whenMember (JObject nodeMembers) name isT body t = Ret tt t' ->
            length (nodes (mSceneManager t')) = length (nodes (mSceneManager t))).
  { intros name isT body t t' Hbody. unfold whenMember.
    rewrite bind_unfold, memberIf_object.
    destruct (findMember nodeMembers name) as [x |]; [destruct (isT x) |].
    - apply Hbody.
    - intros [= <-]. reflexivity.
    - intros [= <-]. reflexivity. }
  assert (Hdec3 : forall q (set : list float -> SceneNode -> SceneNode) a u u',
            (v ← decodeVector3Array a; updateNode q (set v)) u = Ret tt u' ->
            length (nodes (mSceneManager u')) = length (nodes (mSceneManager u))).
  { intros q set a u u' H. apply bind_inv_Ret in H as (v & u1 & Hd & Hu).
    destruct a; try discriminate. injection Hd as <- <-. exact (Hupd _ _ _ _ Hu). }
  assert (Hdecq : forall q a u u',
            (v ← decodeQuaternionArray a; updateNode q (setOrientation v)) u = Ret tt u' ->
            length (nodes (mSceneManager u')) = length (nodes (mSceneManager u))).
  { intros q a u u' H. apply bind_inv_Ret in H as (v & u1 & Hd & Hu).
    destruct a; try discriminate. injection Hd as <- <-. exact (Hupd _ _ _ _ Hu). }
  unfold importNode. intros H.
  apply bind_inv_Ret in H as ([] & s1 & H1 & H).
  apply bind_inv_Ret in H as ([] & s2 & H2 & H).
  apply bind_inv_Ret in H as ([] & s3 & H3 & H).
  apply bind_inv_Ret in H as ([] & s4 & H4 & H5).
  apply Hwhen in H1; [| intros; eapply Hdec3; eassumption].
  apply Hwhen in H2; [| intros; eapply Hdecq; eassumption].
  apply Hwhen in H3; [| intros; eapply Hdec3; eassumption].
  apply Hwhen in H4; [| intros; eapply Hupd; eassumption].
  apply Hwhen in H5; [| intros; eapply Hupd; eassumption].
  lia.
Qed.

Lemma importSceneNode_grows depth entry nodeIdx json s sceneNode s' :
  importSceneNode depth entry nodeIdx json s = Ret sceneNode s' ->
  (length (nodes (mSceneManager s)) <= length (nodes (mSceneManager s')))%nat.
Proof.
  revert entry nodeIdx s sceneNode s'.
  induction depth as [| depth IH]; intros entry nodeIdx s sceneNode s' Hrun;
    [discriminate |].
  destruct (importSceneNode_Ret_inv _ _ _ _ _ _ _ Hrun) as (d & em & nm & [= <-] & -> & Hnode).
  rewrite (importSceneNode_S _ _ _ _ _ _ Hnode) in Hrun.
  apply bind_inv_Ret in Hrun as (sn & s1 & Hmake & Hrest).
  apply bind_inv_Ret in Hrest as ([] & s2 & Himp & Hrest).
  apply bind_inv_Ret in Hrest as ([] & s3 & Hrec & [= <- <-]).
  injection Hrec as <-. cbn [mSceneManager].
  apply importNode_grows in Himp.
  enough (length (nodes (mSceneManager s)) <= length (nodes (mSceneManager s1)))%nat by lia.
  clear Himp. destruct (negb _).
  - apply bind_inv_Ret in Hmake as (s0 & s0' & [= <- <-] & Hmake).
    apply bind_inv_Ret in Hmake as (parentNode & s0' & Hfind & Hchild).
    injection Hchild as <- <-. cbn. rewrite length_app. cbn.
    enough (length (nodes (mSceneManager s)) <= length (nodes (mSceneManager s0')))%nat
      by lia.
    destruct (mCreatedSceneNodes s !! _) as [pp |].
    + injection Hfind as <- <-. lia.
    + apply bind_inv_Ret in Hfind as (size & s4 & Hsize & Hfind).
      apply bind_inv_Ret in Hfind as (found & s5 & Hfound & Hfind).
      destruct found as [pp |]; [| discriminate].
      injection Hfind as <- <-.
      destruct json as [| | | | | elems |]; try discriminate. injection Hsize as <- <-.
      destruct (_ <? _); [| discriminate].
      apply bind_inv_Ret in Hfound as (pv & s6 & Hat & Hfound).
      destruct (IsObject pv); [| discriminate].
      apply bind_inv_Ret in Hfound as (pp' & s7 & Himp & [= <- <-]).
      unfold at_ in Hat. destruct (elems !! _); [| discriminate].
      destruct (0 <=? _); [| discriminate]. injection Hat as <- <-.
      exact (IH _ _ _ _ _ Himp).
  - destruct (isRootNodeOf em).
    + injection Hmake as <- <-. lia.
    + injection Hmake as <- <-. cbn. rewrite length_app. cbn. lia.
Qed.

(** Forward and backward references.  When the resolution of an entry whose
    parent is another entry returns, the parent is in the created-map (it was
    there already, or it was resolved on demand from its place in the array),
    and the entry's node is a new node beneath the parent's node, of the type
    the entry's own [is_static] gives. *)
Lemma importSceneNode_attaches_to_parent depth entryMembers nodeMembers nodeIdx json s
    sceneNode s' :
  findMember entryMembers "node" = Some (JObject nodeMembers) ->
  parentIdxOf nodeMembers nodeIdx <> nodeIdx ->
  importSceneNode (S depth) (JObject entryMembers) nodeIdx json s = Ret sceneNode s' ->
  exists parentNode,
    mCreatedSceneNodes s' !! parentIdxOf nodeMembers nodeIdx = Some parentNode /\
    mCreatedSceneNodes s' !! nodeIdx = Some sceneNode /\
    (length (nodes (mSceneManager s)) <= sceneNode)%nat /\
    hierarchy s' !! sceneNode = Some (Some parentNode, sceneNodeTypeOf nodeMembers).
Proof.
  intros Hnode Hne Hrun.
  pose proof (importSceneNode_records_result _ _ _ _ _ _ _ Hrun) as Hrecorded.
  rewrite (importSceneNode_S _ _ _ _ _ _ Hnode) in Hrun.
  destruct (Z.eqb_spec (parentIdxOf nodeMembers nodeIdx) nodeIdx) as [? | _];
    [contradiction |].
  cbn [negb] in Hrun.
  apply bind_inv_Ret in Hrun as (sn & s1 & Hmake & Hrest).
  (* the parent, then the child beneath it *)
  assert (Hparent : exists parentNode s0,
            mCreatedSceneNodes s0 !! parentIdxOf nodeMembers nodeIdx = Some parentNode /\
            (length (nodes (mSceneManager s)) <= length (nodes (mSceneManager s0)))%nat /\
            createChildSceneNode parentNode (sceneNodeTypeOf nodeMembers) s0 = Ret sn s1).
  { apply bind_inv_Ret in Hmake as (s0 & s0' & [= <- <-] & Hmake).
    apply bind_inv_Ret in Hmake as (parentNode & s0' & Hfind & Hchild).
    exists parentNode, s0'. split; [| split; [| exact Hchild]].
    - destruct (mCreatedSceneNodes s !! parentIdxOf nodeMembers nodeIdx) as [pp |] eqn:Hpp.
      + injection Hfind as <- <-. exact Hpp.
      + apply bind_inv_Ret in Hfind as (size & s2 & Hsize & Hfind).
        apply bind_inv_Ret in Hfind as (found & s3 & Hfound & Hfind).
        destruct found as [pp |]; [| discriminate].
        injection Hfind as <- <-.
        destruct (parentIdxOf nodeMembers nodeIdx <? size); [| discriminate].
        apply bind_inv_Ret in Hfound as (pv & s4 & _ & Hfound).
        destruct (IsObject pv); [| discriminate].
        apply bind_inv_Ret in Hfound as (pp' & s5 & Himp & [= <- <-]).
        exact (importSceneNode_records_result _ _ _ _ _ _ _ Himp).
    - destruct (mCreatedSceneNodes s !! parentIdxOf nodeMembers nodeIdx) as [pp |] eqn:Hpp.
      + injection Hfind as <- <-. lia.
      + apply bind_inv_Ret in Hfind as (size & s2 & Hsize & Hfind).
        apply bind_inv_Ret in Hfind as (found & s3 & Hfound & Hfind).
        destruct found as [pp |]; [| discriminate].
        injection Hfind as <- <-.
        destruct json as [| | | | | elems |]; try discriminate. injection Hsize as <- <-.
        destruct (parentIdxOf nodeMembers nodeIdx <? _); [| discriminate].
        apply bind_inv_Ret in Hfound as (pv & s4 & Hat & Hfound).
        destruct (IsObject pv); [| discriminate].
        apply bind_inv_Ret in Hfound as (pp' & s5 & Himp & [= <- <-]).
        unfold at_ in Hat. destruct (elems !! _); [| discriminate].
        destruct (0 <=? _); [| discriminate]. injection Hat as <- <-.
        apply (importSceneNode_grows _ _ _ _ _ _ _ Himp). }
  destruct Hparent as (parentNode & s0 & Hpp & Hgrow & Hchild).
  injection Hchild as <- <-.
  set (s1 := {| mSceneManager := _; mCreatedSceneNodes := _; mFilename := _ |}) in *.
  destruct (importSceneNode_finish nodeMembers nodeIdx (length (nodes (mSceneManager s0))) s1)
    as (s2 & Hfin & Hcreated & Hh).
  { subst s1. cbn. rewrite length_app. cbn. lia. }
  rewrite Hfin in Hrest. injection Hrest as <- <-.
  exists parentNode. split; [| split; [| split]].
  - rewrite Hcreated. rewrite lookup_insert_ne by auto. exact Hpp.
  - exact Hrecorded.
  - exact Hgrow.
  - rewrite Hh. subst s1. unfold hierarchy. cbn. rewrite fmap_app.
    rewrite lookup_app_r by (rewrite length_fmap; lia).
    rewrite length_fmap, Nat.sub_diag. reflexivity.
Qed.

(** *** Parent cycles *)

(** A set of indices closed under "parent of", none of them created, none its
    own parent: whatever the stack budget, resolving one of them does not
    return.  The state is the same at every level of the descent, because a
    node is entered into [mCreatedSceneNodes] only after its parent is back. *)
Lemma importSceneNode_cycle_never_returns elements s (onCycle : Z -> Prop) :
  (forall i, onCycle i ->
     mCreatedSceneNodes s !! i = None /\
     exists entryMembers nodeMembers,
       0 <= i /\
       elements !! Z.to_nat i = Some (JObject entryMembers) /\
       findMember entryMembers "node" = Some (JObject nodeMembers) /\
       parentIdxOf nodeMembers i <> i /\
       onCycle (parentIdxOf nodeMembers i)) ->
  forall depth i entry,
    onCycle i -> elements !! Z.to_nat i = Some entry ->
    importSceneNode depth entry i (JArray elements) s = StackExhausted.
Proof.
  intros Hcycle. induction depth as [| depth IH]; intros i entry Hi Hentry.
  - reflexivity.
  - destruct (Hcycle i Hi) as (_ & em & nm & Hpos & Hlook & Hnode & Hne & Hpar).
    rewrite Hlook in Hentry. injection Hentry as <-.
    rewrite (importSceneNode_S _ _ _ _ _ _ Hnode).
    destruct (Hcycle _ Hpar) as (Hfresh & em' & nm' & Hpos' & Hlook' & _).
    apply bind_StackExhausted.
    destruct (Z.eqb_spec (parentIdxOf nm i) i) as [? | _]; [contradiction |].
    cbn [negb]. rewrite bind_unfold. cbn [get].
    apply bind_StackExhausted. rewrite Hfresh.
    rewrite bind_unfold. cbn [Size mret M_ret].
    apply bind_StackExhausted.
    pose proof (lookup_lt_Some _ _ _ Hlook') as Hlt.
    destruct (Z.ltb_spec (parentIdxOf nm i) (Z.of_nat (length elements))) as [_ | Hge];
      [| lia].
    rewrite bind_unfold. unfold at_. rewrite Hlook'.
    destruct (Z.leb_spec 0 (parentIdxOf nm i)) as [_ | ?]; [| lia].
    cbn [mret M_ret IsObject].
    apply bind_StackExhausted. apply (IH _ _ Hpar Hlook').
Qed.

(** C4 (code at the failing input).  In the array whose two entries name each
    other as parent, resolving either entry never returns: every stack budget
    is used up, and in particular no malformed-file exception is raised.
    [importSceneNode] keeps no record of the entries it is in the middle of
    resolving. *)
Theorem importSceneNode_parent_cycle_unbounded :
  forall depth,
    importSceneNode depth entry_child_of_1 0 (JArray cycleNodes) initialImporter
      = StackExhausted /\
    importSceneNode depth entry_child_of_0 1 (JArray cycleNodes) initialImporter
      = StackExhausted /\
    (forall e s', importSceneNode depth entry_child_of_1 0 (JArray cycleNodes)
                    initialImporter <> Raise e s').
Proof.
  intros depth.
  assert (H : forall i entry, (i = 0 \/ i = 1) ->
            cycleNodes !! Z.to_nat i = Some entry ->
            importSceneNode depth entry i (JArray cycleNodes) initialImporter
              = StackExhausted).
  { apply importSceneNode_cycle_never_returns.
    intros i [-> | ->]; (split; [reflexivity |]).
    - exists [("node", JObject [("parent_id", JInt 1)])], [("parent_id", JInt 1)].
      repeat split; try reflexivity; try discriminate. right; reflexivity.
    - exists [("node", JObject [("parent_id", JInt 0)])], [("parent_id", JInt 0)].
      repeat split; try reflexivity; try discriminate. left; reflexivity. }
  assert (H0 := H 0 entry_child_of_1 (or_introl eq_refl) eq_refl).
  assert (H1 := H 1 entry_child_of_0 (or_intror eq_refl) eq_refl).
  repeat split; try assumption.
  intros e s'. rewrite H0. discriminate.
Qed.

(** *** The walk over the entries *)

Lemma importSceneNodes_on_array depth elements s :
  importSceneNodes depth (JArray elements) s = AssertFailed.
Proof. reflexivity. Qed.

(** C5 (code at the failing input).  [importScene] hands [importSceneNodes] the
    value it has just checked with [IsArray()], and [importSceneNodes] walks it
    with [MemberBegin()] and [MemberEnd()], the accessors of an object, whose
    assertion [IsObject()] fails: no entry of a scene-node array is ever
    resolved, in any order, and no child is attached. *)
Theorem importSceneNodes_array_never_traversed :
  forall depth elements s,
    importSceneNodes depth (JArray elements) s = AssertFailed /\
    importScene_scene_nodes depth (JObject [("scene_nodes", JArray elements)]) s
      = AssertFailed.
Proof. intros depth elements s. split; reflexivity. Qed.

End SceneFormatFacts.

(** ** Facts about the compute HLMS *)
Module HlmsComputeFacts.
Import Machine MachineFacts Exec ExecFacts HlmsCompute.

Lemma frames_bind {S A B} (R : S -> S -> Prop) `{!PreOrder R}
    (m : M S A) (f : A -> M S B) :
  frames R m -> (forall a, frames R (f a)) -> frames R (x ← m; f x).
Proof.
  intros Hm Hf s. rewrite bind_unfold. specialize (Hm s).
  destruct (m s) as [a s1 | e s1 | | |]; try exact I; try exact Hm.
  specialize (Hf a s1). destruct (f a s1); try exact I; etransitivity; eassumption.
Qed.

Lemma frames_ret {S A} (R : S -> S -> Prop) `{!PreOrder R} (a : A) : frames R (mret a).
Proof. intros s. cbn. reflexivity. Qed.

Lemma frames_get {S} (R : S -> S -> Prop) `{!PreOrder R} : frames R (@get S).
Proof. intros s. cbn. reflexivity. Qed.

Lemma frames_modify {S} (R : S -> S -> Prop) (f : S -> S) :
  (forall s, R s (f s)) -> frames R (modify f).
Proof. intros H s. apply H. Qed.

Lemma frames_forEach {S A} (R : S -> S -> Prop) `{!PreOrder R}
    (l : list A) (body : A -> M S unit) :
  (forall x, frames R (body x)) -> frames R (forEach l body).
Proof.
  intros H. induction l as [| x l IH]; cbn [forEach].
  - apply frames_ret; assumption.
  - apply frames_bind; auto.
Qed.

#[local] Instance sameJobsAndPsos_preorder : PreOrder sameJobsAndPsos.
Proof.
  split.
  - intros h. repeat split.
  - intros h1 h2 h3 (a & b & c) (d & e & f). repeat split; congruence.
Qed.

Lemma frames_this_setProperty key value :
  frames sameJobsAndPsos (this_setProperty key value).
Proof. apply frames_modify. intros s. repeat split. Qed.

Lemma frames_this_getProperty key : frames sameJobsAndPsos (this_getProperty key).
Proof. intros s. cbn. reflexivity. Qed.

Lemma frames_deref job : frames sameJobsAndPsos (deref job).
Proof. intros s. unfold deref. destruct (jobs s !! job); [reflexivity | exact I]. Qed.

Lemma frames_rsCall c : frames sameJobsAndPsos (rsCall c).
Proof. apply frames_modify. intros s. repeat split. Qed.

Lemma frames_logMessage msg : frames sameJobsAndPsos (logMessage msg).
Proof. apply frames_modify. intros s. repeat split. Qed.

Lemma frames_createProgram gp : frames sameJobsAndPsos (createProgram gp).
Proof. intros s. cbn. repeat split. Qed.

Lemma frames_undefined {A} : frames sameJobsAndPsos (@undefined HlmsCompute A).
Proof. intros s. exact I. Qed.

Lemma frames_OGRE_EXCEPT {A} n desc src :
  frames sameJobsAndPsos (@OGRE_EXCEPT HlmsCompute A n desc src).
Proof. intros s. cbn. reflexivity. Qed.

Create HintDb frames.
#[local] Hint Resolve frames_this_setProperty frames_this_getProperty frames_deref
  frames_rsCall frames_logMessage frames_createProgram frames_undefined
  frames_OGRE_EXCEPT : frames.

Ltac frames_auto :=
  repeat match goal with
    | |- frames _ (mbind _ _) => apply frames_bind; [apply _ | | intros ?]
    | |- frames _ (forEach _ _) => apply frames_forEach; [apply _ | intros ?]
    | |- frames _ (mret _) => apply frames_ret; apply _
    | |- frames _ get => apply frames_get; apply _
    | |- frames _ (modify _) => apply frames_modify; intros ?; repeat split
    | |- frames _ (if ?c then _ else _) => destruct c
    | |- frames _ (match ?x with _ => _ end) => destruct x
    | |- frames _ _ => solve [auto with frames]
    end.

Section Collaborators.

Variable _updateAutoProperties : HlmsComputeJob -> HlmsComputeJob.
Variable parseTemplate :
  string -> list string -> HlmsPropertyVec -> bool * string * HlmsPropertyVec.
Variable OGRE_HASH128_FUNC : string -> Hash.

#[local] Abbreviation compileShader := (compileShader parseTemplate OGRE_HASH128_FUNC).
#[local] Abbreviation compileShader_generate := (compileShader_generate parseTemplate).
#[local] Abbreviation compileShader_program := (compileShader_program OGRE_HASH128_FUNC).
#[local] Abbreviation dispatch_lookup :=
  (dispatch_lookup _updateAutoProperties parseTemplate OGRE_HASH128_FUNC).
#[local] Abbreviation dispatch :=
  (dispatch _updateAutoProperties parseTemplate OGRE_HASH128_FUNC).
#[local] Abbreviation beforeCompile := (beforeCompile _updateAutoProperties).

#[local] Arguments setProperty : simpl never.
#[local] Arguments getProperty : simpl never.

Lemma forEach_this_setProperty exts h :
  forEach exts (fun ext => this_setProperty ext 1) h =
  Ret tt (with_mSetProperties
            (foldl (fun m ext => setProperty ext 1 m) (this_mSetProperties h) exts) h).
Proof.
  revert h. induction exts as [| ext exts IH]; intros h.
  - destruct h; reflexivity.
  - cbn [forEach foldl]. rewrite bind_unfold. cbn [this_setProperty modify].
    rewrite IH. reflexivity.
Qed.

(** The first block of [compileShader] returns the text the preprocessor made
    of the merged properties and leaves [this->mSetProperties] as the
    preprocessor left them. *)
Lemma compileShader_generate_returns job finalHash h j :
  jobs h !! job = Some j ->
  exists debugFilenameOutput h1,
    let '(_, outString, props) :=
      parseTemplate (mSourceFilename j) (mIncludedPieceFiles j)
        (mergedProperties (settings h) (this_mSetProperties h)) in
    compileShader_generate job finalHash h = Ret (outString, debugFilenameOutput) h1 /\
    this_mSetProperties h1 = props /\
    sameButProperties h h1.
Proof.
  intros Hj. unfold HlmsCompute.compileShader_generate, mergedProperties.
  rewrite bind_unfold. cbn [get].
  rewrite bind_unfold, forEach_this_setProperty.
  rewrite bind_unfold. unfold deref at 1. cbn [jobs with_mSetProperties]. rewrite Hj.
  set (props1 := foldl _ _ _).
  destruct (String.eqb (mShaderProfile (settings h)) "glsl");
    rewrite bind_unfold; cbn [this_setProperty modify mret M_ret];
    rewrite bind_unfold; cbn [this_setProperty modify];
    rewrite bind_unfold; cbn [get this_mSetProperties with_mSetProperties];
    match goal with
    | |- context [parseTemplate ?a ?b ?c] => destruct (parseTemplate a b c) as [[err out] props]
    end;
    destruct err; eexists _, _; (split; [reflexivity |]); split; try reflexivity;
    repeat split.
Qed.

(** The second block, when the template has set the disable flag: no shader. *)
Lemma compileShader_program_disabled job finalHash outString debugFilenameOutput h :
  getProperty (this_mSetProperties h) HlmsBaseProp.DisableStage <> 0 ->
  compileShader_program job finalHash outString debugFilenameOutput h = Ret None h.
Proof.
  intros Hdis. unfold HlmsCompute.compileShader_program.
  rewrite bind_unfold. cbn [this_getProperty].
  destruct (Z.eqb_spec (getProperty (this_mSetProperties h) HlmsBaseProp.DisableStage) 0);
    [contradiction | reflexivity].
Qed.

(** The second block on a miss: the text's hash is not in
    [mCompiledShaderCache], [itor] is [end()], and the branch taken on
    [itor == end()] reads [itor->second]. *)
Lemma compileShader_program_miss job finalHash outString debugFilenameOutput h :
  getProperty (this_mSetProperties h) HlmsBaseProp.DisableStage = 0 ->
  mCompiledShaderCache h !! OGRE_HASH128_FUNC outString = None ->
  compileShader_program job finalHash outString debugFilenameOutput h = UndefinedBehaviour.
Proof.
  intros Hdis Hmiss. unfold HlmsCompute.compileShader_program.
  rewrite bind_unfold. cbn [this_getProperty]. rewrite Hdis. cbn [Z.eqb].
  rewrite bind_unfold. cbn [get]. rewrite Hmiss. reflexivity.
Qed.

(** The second block on a hit: the program found is left aside, a new
    program is created and takes its place in the cache. *)
Lemma compileShader_program_hit job finalHash outString debugFilenameOutput h j found :
  getProperty (this_mSetProperties h) HlmsBaseProp.DisableStage = 0 ->
  mCompiledShaderCache h !! OGRE_HASH128_FUNC outString = Some found ->
  jobs h !! job = Some j ->
  compileShader_program job finalHash outString debugFilenameOutput h =
  Ret (Some (length (programs h)))
      (with_mCompiledShaderCache
         (<[OGRE_HASH128_FUNC outString := Some (length (programs h))]>
            (mCompiledShaderCache h))
         (with_programs
            (programs h ++
             [newProgram (settings h) j finalHash outString debugFilenameOutput
                (getProperty (this_mSetProperties h) HlmsBaseProp.Skeleton)
                (getProperty (this_mSetProperties h) HlmsBaseProp.Pose)])
            h)).
Proof.
  intros Hdis Hhit Hj. unfold HlmsCompute.compileShader_program.
  rewrite bind_unfold. cbn [this_getProperty]. rewrite Hdis. cbn [Z.eqb].
  rewrite bind_unfold. cbn [get]. rewrite Hhit.
  rewrite bind_unfold. unfold deref. rewrite Hj.
  reflexivity.
Qed.

Lemma getProperty_setProperty_ne props key key' value :
  key <> key' -> getProperty (setProperty key value props) key' = getProperty props key'.
Proof. intros H. unfold getProperty, setProperty. rewrite lookup_insert_ne; auto. Qed.

Lemma getProperty_setProperty_eq props key value :
  getProperty (setProperty key value props) key = value.
Proof. unfold getProperty, setProperty. rewrite lookup_insert_eq. reflexivity. Qed.

Lemma psoOf_reset_disable shader props :
  psoOf shader (setProperty HlmsBaseProp.DisableStage 0 props) = psoOf shader props.
Proof.
  unfold psoOf. rewrite !getProperty_setProperty_ne by discriminate. reflexivity.
Qed.

(** The third block: the disable flag is reset, the six properties are read
    into the PSO, and the call raises exactly when one of the two [uint32]
    products is zero. *)
Lemma compileShader_pso_spec shader h :
  let h1 := with_mSetProperties
              (setProperty HlmsBaseProp.DisableStage 0 (this_mSetProperties h)) h in
  let p := psoOf shader (this_mSetProperties h) in
  compileShader_pso shader h =
  if hasZeroProduct p then Raise invalidParams h1
  else Ret p (with_renderSystem (renderSystem h ++ [_hlmsComputePipelineStateObjectCreated p]) h1).
Proof.
  intros h1 p. unfold compileShader_pso.
  rewrite bind_unfold. cbn [this_setProperty modify].
  repeat (rewrite bind_unfold; cbn [this_getProperty this_mSetProperties with_mSetProperties]).
  fold h1.
  set (q := {| computeShader := shader; mThreadsPerGroup := _; mNumThreadGroups := _ |}).
  assert (Hq : q = p).
  { subst q p. unfold psoOf. rewrite !getProperty_setProperty_ne by discriminate.
    reflexivity. }
  rewrite Hq. destruct (hasZeroProduct p); reflexivity.
Qed.

Lemma frames_compileShader_generate job finalHash :
  frames sameJobsAndPsos (compileShader_generate job finalHash).
Proof. unfold HlmsCompute.compileShader_generate. frames_auto. Qed.

Lemma frames_compileShader_program job finalHash outString debugFilenameOutput :
  frames sameJobsAndPsos (compileShader_program job finalHash outString debugFilenameOutput).
Proof. unfold HlmsCompute.compileShader_program. frames_auto. Qed.

Lemma frames_compileShader_pso shader : frames sameJobsAndPsos (compileShader_pso shader).
Proof. unfold compileShader_pso. frames_auto. Qed.

(** [compileShader] leaves the jobs and the PSO cache as they are, whether it
    returns or raises. *)
Lemma frames_compileShader job finalHash :
  frames sameJobsAndPsos (compileShader job finalHash).
Proof.
  unfold HlmsCompute.compileShader.
  apply frames_bind; [apply _ | apply frames_compileShader_generate |].
  intros [outString debugFilenameOutput].
  apply frames_bind; [apply _ | apply frames_compileShader_program |].
  intros shader. apply frames_compileShader_pso.
Qed.

(** [compileShader] when the expanded template asks for no shader stage: the
    outcome is decided by the check on the products alone. *)
Lemma compileShader_disabled job finalHash h j :
  jobs h !! job = Some j ->
  let '(_, _, props) :=
    parseTemplate (mSourceFilename j) (mIncludedPieceFiles j)
      (mergedProperties (settings h) (this_mSetProperties h)) in
  getProperty props HlmsBaseProp.DisableStage <> 0 ->
  exists h1,
    sameButProperties h h1 /\
    this_mSetProperties h1 = setProperty HlmsBaseProp.DisableStage 0 props /\
    compileShader job finalHash h =
    if hasZeroProduct (psoOf None props) then Raise invalidParams h1
    else Ret (psoOf None props)
             (with_renderSystem
                (renderSystem h ++ [_hlmsComputePipelineStateObjectCreated (psoOf None props)])
                h1).
Proof.
  intros Hj.
  destruct (compileShader_generate_returns job finalHash h j Hj) as (dbg & h1 & Hgen).
  destruct (parseTemplate _ _ _) as [[err out] props].
  destruct Hgen as (Hgen & Hprops & Hsame). intros Hdis.
  exists (with_mSetProperties (setProperty HlmsBaseProp.DisableStage 0 props) h1).
  split; [| split].
  - destruct Hsame as (a & b & c & d & e & f & g). repeat split; assumption.
  - reflexivity.
  - unfold HlmsCompute.compileShader. rewrite (bind_Ret _ _ _ _ _ Hgen).
    rewrite (bind_Ret _ _ h1 None h1)
      by (apply compileShader_program_disabled; rewrite Hprops; exact Hdis).
    rewrite compileShader_pso_spec, Hprops.
    destruct Hsame as (_ & _ & _ & _ & _ & _ & Hrs). rewrite Hrs. reflexivity.
Qed.

(** [compileShader] on a miss of the program cache. *)
Lemma compileShader_miss job finalHash h j :
  jobs h !! job = Some j ->
  let '(_, outString, props) :=
    parseTemplate (mSourceFilename j) (mIncludedPieceFiles j)
      (mergedProperties (settings h) (this_mSetProperties h)) in
  getProperty props HlmsBaseProp.DisableStage = 0 ->
  mCompiledShaderCache h !! OGRE_HASH128_FUNC outString = None ->
  compileShader job finalHash h = UndefinedBehaviour.
Proof.
  intros Hj.
  destruct (compileShader_generate_returns job finalHash h j Hj) as (dbg & h1 & Hgen).
  destruct (parseTemplate _ _ _) as [[err out] props].
  destruct Hgen as (Hgen & Hprops & Hsame). intros Hdis Hmiss.
  unfold HlmsCompute.compileShader. rewrite (bind_Ret _ _ _ _ _ Hgen).
  rewrite bind_unfold, compileShader_program_miss; [reflexivity | |].
  - rewrite Hprops. exact Hdis.
  - destruct Hsame as (_ & _ & -> & _). exact Hmiss.
Qed.

(** [compileShader] on a hit of the program cache: the PSO carries a program
    made by this call, one more than the manager had. *)
Lemma compileShader_hit job finalHash h j found :
  jobs h !! job = Some j ->
  let '(_, outString, props) :=
    parseTemplate (mSourceFilename j) (mIncludedPieceFiles j)
      (mergedProperties (settings h) (this_mSetProperties h)) in
  getProperty props HlmsBaseProp.DisableStage = 0 ->
  mCompiledShaderCache h !! OGRE_HASH128_FUNC outString = Some found ->
  hasZeroProduct (psoOf (Some (length (programs h))) props) = false ->
  exists h',
    compileShader job finalHash h = Ret (psoOf (Some (length (programs h))) props) h' /\
    length (programs h') = S (length (programs h)) /\
    mCompiledShaderCache h' =
      <[OGRE_HASH128_FUNC outString := Some (length (programs h))]> (mCompiledShaderCache h).
Proof.
  intros Hj.
  destruct (compileShader_generate_returns job finalHash h j Hj) as (dbg & h1 & Hgen).
  destruct (parseTemplate _ _ _) as [[err out] props].
  destruct Hgen as (Hgen & Hprops & Hsame). intros Hdis Hhit Hshape.
  destruct Hsame as (Hcfg & _ & Hcompiled & _ & Hjobs & Hprogs & _).
  unfold HlmsCompute.compileShader. rewrite (bind_Ret _ _ _ _ _ Hgen).
  erewrite bind_Ret; cycle 1.
  { apply (compileShader_program_hit _ _ _ _ _ j found).
    - rewrite Hprops. exact Hdis.
    - rewrite Hcompiled. exact Hhit.
    - rewrite Hjobs. exact Hj. }
  rewrite compileShader_pso_spec.
  cbn [this_mSetProperties with_mCompiledShaderCache with_programs].
  rewrite Hprops, Hprogs, Hshape.
  eexists. split; [reflexivity |].
  cbn. rewrite Hcompiled, length_app. cbn. split; [lia | reflexivity].
Qed.

(** *** The search of the PSO cache *)

Lemma std_find_Some cache probe i :
  std_find cache probe = Some i <->
  exists e, cache !! i = Some e /\ setProperties e = setProperties probe /\
            forall k e', cache !! k = Some e' -> (k < i)%nat ->
                         setProperties e' <> setProperties probe.
Proof.
  unfold std_find. split.
  - destruct (list_find _ cache) as [[i' e] |] eqn:Hfind; [| discriminate].
    cbn. intros [= ->]. apply list_find_Some in Hfind as (Hl & He & Hbefore).
    exists e. auto.
  - intros (e & Hl & He & Hbefore).
    assert (Hfind : list_find (fun e => ComputePsoCache_eq e probe) cache = Some (i, e)).
    { apply list_find_Some. auto. }
    rewrite Hfind. reflexivity.
Qed.

Lemma std_find_None cache probe :
  std_find cache probe = None <->
  forall e, e ∈ cache -> setProperties e <> setProperties probe.
Proof.
  unfold std_find. split.
  - destruct (list_find _ cache) as [[i' e] |] eqn:Hfind; [discriminate |].
    intros _. apply list_find_None in Hfind. rewrite Forall_forall in Hfind. exact Hfind.
  - intros H. assert (Hfind : list_find (fun e => ComputePsoCache_eq e probe) cache = None).
    { apply list_find_None. rewrite Forall_forall. exact H. }
    rewrite Hfind. reflexivity.
Qed.

(** After a miss, the entry appended for the set searched is the first one
    that matches it. *)
Lemma std_find_appended cache probe e :
  std_find cache probe = None ->
  setProperties e = setProperties probe ->
  std_find (cache ++ [e]) probe = Some (length cache).
Proof.
  intros Hmiss He. apply std_find_Some. exists e. split; [| split].
  - rewrite lookup_app_r by lia. rewrite Nat.sub_diag. reflexivity.
  - exact He.
  - intros k e' Hk Hlt. rewrite lookup_app_l in Hk by exact Hlt.
    apply (proj1 (std_find_None _ _) Hmiss). apply list_elem_of_lookup. eauto.
Qed.

Lemma job_setProperties_same j : job_setProperties (mSetProperties j) j = j.
Proof. destruct j; reflexivity. Qed.

(** *** [dispatch], first half *)

(** An index inside the cache is kept: no refresh, no search, no compile. *)
Lemma dispatch_lookup_in_bounds h job j :
  jobs h !! job = Some j ->
  mPsoCacheHash j < Z.of_nat (length (mComputeShaderCache h)) ->
  dispatch_lookup job h = Ret tt h.
Proof.
  intros Hj Hin. unfold HlmsCompute.dispatch_lookup.
  rewrite bind_unfold. cbn [get]. rewrite bind_unfold. unfold deref at 1. rewrite Hj.
  destruct (Z.leb_spec (Z.of_nat (length (mComputeShaderCache h))) (mPsoCacheHash j));
    [lia | reflexivity].
Qed.

(** A hit: the refreshed job gets the position found and nothing else changes. *)
Lemma dispatch_lookup_hit h job j i :
  jobs h !! job = Some j ->
  Z.of_nat (length (mComputeShaderCache h)) <= mPsoCacheHash j ->
  std_find (mComputeShaderCache h)
    {| job := job; setProperties := mSetProperties (_updateAutoProperties j);
       pso := initializedPso |} = Some i ->
  dispatch_lookup job h =
  Ret tt (with_jobs
            (<[job := job_setPsoCacheHash (Z.of_nat i) (_updateAutoProperties j)]> (jobs h))
            h).
Proof.
  intros Hj Hout Hfind. unfold HlmsCompute.dispatch_lookup.
  rewrite bind_unfold. cbn [get]. rewrite bind_unfold. unfold deref at 1. rewrite Hj.
  destruct (Z.leb_spec (Z.of_nat (length (mComputeShaderCache h))) (mPsoCacheHash j));
    [| lia].
  rewrite Hfind.
  repeat (rewrite bind_unfold; cbn [store modify]).
  cbn [setProperties]. rewrite job_setProperties_same.
  unfold store, modify, with_jobs.
  cbn [settings this_mSetProperties mShaderCache mCompiledShaderCache
    mComputeShaderCache jobs programs renderSystem logMessages].
  rewrite !insert_insert_eq. reflexivity.
Qed.

(** A miss: [dispatch] goes on as [compileShader] ends.  When that returns a
    PSO, the entry made of the job, its property set and the PSO is appended
    and the job gets the last position; when it raises, so does [dispatch],
    with the members [compileShader] left. *)
Lemma dispatch_lookup_miss h job j :
  jobs h !! job = Some j ->
  Z.of_nat (length (mComputeShaderCache h)) <= mPsoCacheHash j ->
  is_size (mPsoCacheHash j) ->
  std_find (mComputeShaderCache h)
    {| job := job; setProperties := mSetProperties (_updateAutoProperties j);
       pso := initializedPso |} = None ->
  dispatch_lookup job h =
  match compileShader job (wrap_u32 (Z.of_nat (length (mComputeShaderCache h))))
          (beforeCompile h job j) with
  | Ret compiled h2 =>
      Ret tt
        (with_jobs
           (<[job := job_setPsoCacheHash (Z.of_nat (length (mComputeShaderCache h)))
                       (_updateAutoProperties j)]> (jobs h))
           (with_mComputeShaderCache
              (mComputeShaderCache h ++
               [{| job := job; setProperties := mSetProperties (_updateAutoProperties j);
                   pso := compiled |}]) h2))
  | Raise e h2 => Raise e h2
  | AssertFailed => AssertFailed
  | UndefinedBehaviour => UndefinedBehaviour
  | StackExhausted => StackExhausted
  end.
Proof.
  intros Hj Hout Hsize Hfind. unfold HlmsCompute.dispatch_lookup.
  rewrite bind_unfold. cbn [get]. rewrite bind_unfold. unfold deref at 1. rewrite Hj.
  destruct (Z.leb_spec (Z.of_nat (length (mComputeShaderCache h))) (mPsoCacheHash j));
    [| lia].
  rewrite Hfind.
  do 4 (rewrite bind_unfold; cbn [store modify]).
  rewrite bind_unfold. cbn [get].
  cbn [setProperties with_jobs with_mSetProperties jobs mComputeShaderCache].
  rewrite job_setProperties_same.
  assert (Hstate :
    {| settings := settings h;
       this_mSetProperties := mSetProperties (_updateAutoProperties j);
       mShaderCache := mShaderCache h;
       mCompiledShaderCache := mCompiledShaderCache h;
       mComputeShaderCache := mComputeShaderCache h;
       jobs := <[job := _updateAutoProperties j]>
                 (<[job := job_setProperties ∅ (_updateAutoProperties j)]>
                    (<[job := _updateAutoProperties j]> (jobs h)));
       programs := programs h; renderSystem := renderSystem h;
       logMessages := logMessages h |} = beforeCompile h job j).
  { unfold HlmsCompute.beforeCompile, with_mSetProperties, with_jobs. cbn.
    rewrite !insert_insert_eq. reflexivity. }
  unfold with_mSetProperties, with_jobs.
  cbn [settings this_mSetProperties mShaderCache mCompiledShaderCache
    mComputeShaderCache jobs programs renderSystem logMessages].
  rewrite Hstate. rewrite bind_unfold.
  pose proof (frames_compileShader job
                (wrap_u32 (Z.of_nat (length (mComputeShaderCache h))))
                (beforeCompile h job j)) as Hframe.
  destruct (compileShader job _ (beforeCompile h job j)) as [compiled h2 | e h2 | | |];
    try reflexivity.
  destruct Hframe as (Hjobs & Hcache & _).
  cbn [HlmsCompute.beforeCompile with_mSetProperties with_jobs jobs mComputeShaderCache]
    in Hjobs, Hcache.
  rewrite bind_unfold. cbn [modify].
  rewrite bind_unfold. unfold deref at 1.
  cbn [with_mComputeShaderCache jobs]. rewrite Hjobs, lookup_insert_eq.
  rewrite bind_unfold. cbn [modify].
  rewrite bind_unfold. cbn [get].
  unfold store, modify.
  cbn [with_mComputeShaderCache with_jobs settings this_mSetProperties
    mShaderCache mCompiledShaderCache mComputeShaderCache jobs programs renderSystem
    logMessages].
  rewrite Hcache, Hjobs.
  rewrite length_app. cbn [length]. rewrite Nat.add_1_r. cbn [pred].
  rewrite insert_insert_eq.
  replace (alter _ (length (mComputeShaderCache h)) _) with
    (mComputeShaderCache h ++
     [{| job := job; setProperties := mSetProperties (_updateAutoProperties j);
         pso := compiled |}]).
  2:{ rewrite alter_app_r_alt by lia. rewrite Nat.sub_diag. reflexivity. }
  rewrite length_app. cbn [length].
  replace (wrap_size (Z.of_nat (length (mComputeShaderCache h) + 1) - 1))
    with (Z.of_nat (length (mComputeShaderCache h))).
  2:{ rewrite wrap_size_small; [lia |]. unfold is_size in *. lia. }
  reflexivity.
Qed.

Lemma std_find_ext cache probe probe' :
  setProperties probe = setProperties probe' ->
  std_find cache probe = std_find cache probe'.
Proof.
  intros Heq. destruct (std_find cache probe') as [i |] eqn:Hfind.
  - apply std_find_Some. apply std_find_Some in Hfind. rewrite Heq. exact Hfind.
  - apply std_find_None. rewrite Heq. apply std_find_None. exact Hfind.
Qed.

(** The first half of [dispatch] for a job whose index is out of bounds: the
    hit, the miss, and the sharing of an entry by a second job with an equal
    property set. *)
Lemma dispatch_lookup_by_property_value h job j :
  jobs h !! job = Some j ->
  Z.of_nat (length (mComputeShaderCache h)) <= mPsoCacheHash j ->
  is_size (mPsoCacheHash j) ->
  let refreshed := _updateAutoProperties j in
  (forall i e,
     mComputeShaderCache h !! i = Some e ->
     setProperties e = mSetProperties refreshed ->
     (forall k e', mComputeShaderCache h !! k = Some e' -> (k < i)%nat ->
                   setProperties e' <> mSetProperties refreshed) ->
     dispatch_lookup job h =
     Ret tt (with_jobs (<[job := job_setPsoCacheHash (Z.of_nat i) refreshed]> (jobs h)) h)) /\
  ((forall e, e ∈ mComputeShaderCache h -> setProperties e <> mSetProperties refreshed) ->
   forall compiled h2,
     compileShader job (wrap_u32 (Z.of_nat (length (mComputeShaderCache h))))
       (beforeCompile h job j) = Ret compiled h2 ->
     dispatch_lookup job h =
     Ret tt
       (with_jobs
          (<[job := job_setPsoCacheHash (Z.of_nat (length (mComputeShaderCache h)))
                      refreshed]> (jobs h))
          (with_mComputeShaderCache
             (mComputeShaderCache h ++
              [{| job := job; setProperties := mSetProperties refreshed;
                  pso := compiled |}]) h2))) /\
  (forall h' job2 j2,
     dispatch_lookup job h = Ret tt h' ->
     job2 <> job ->
     jobs h' !! job2 = Some j2 ->
     Z.of_nat (length (mComputeShaderCache h')) <= mPsoCacheHash j2 ->
     mSetProperties (_updateAutoProperties j2) = mSetProperties refreshed ->
     exists i e,
       mPsoCacheHash <$> jobs h' !! job = Some (Z.of_nat i) /\
       mComputeShaderCache h' !! i = Some e /\
       setProperties e = mSetProperties refreshed /\
       dispatch_lookup job2 h' =
       Ret tt (with_jobs
                 (<[job2 := job_setPsoCacheHash (Z.of_nat i) (_updateAutoProperties j2)]>
                    (jobs h')) h')).
Proof.
  intros Hj Hout Hsize refreshed.
  set (probe := {| job := job; setProperties := mSetProperties refreshed;
                   pso := initializedPso |}).
  split; [| split].
  - intros i e Hi He Hfirst. apply (dispatch_lookup_hit h job j); try assumption.
    apply std_find_Some. exists e. auto.
  - intros Hnone compiled h2 Hcompile.
    rewrite (dispatch_lookup_miss h job j Hj Hout Hsize).
    + rewrite Hcompile. reflexivity.
    + apply std_find_None. exact Hnone.
  - intros h' job2 j2 Hrun Hne Hj2 Hout2 Hsame.
    set (probe2 := {| job := job2; setProperties := mSetProperties (_updateAutoProperties j2);
                      pso := initializedPso |}).
    assert (Hext : forall cache, std_find cache probe2 = std_find cache probe).
    { intros cache. apply std_find_ext. exact Hsame. }
    destruct (std_find (mComputeShaderCache h) probe) as [i |] eqn:Hfind.
    + rewrite (dispatch_lookup_hit h job j i Hj Hout Hfind) in Hrun.
      injection Hrun as Hh'.
      assert (Hjobs : jobs h' = <[job := job_setPsoCacheHash (Z.of_nat i) refreshed]> (jobs h))
        by (rewrite <- Hh'; reflexivity).
      assert (Hcache : mComputeShaderCache h' = mComputeShaderCache h)
        by (rewrite <- Hh'; reflexivity).
      destruct (proj1 (std_find_Some _ _ _) Hfind) as (e & Hi & He & _).
      exists i, e. rewrite Hjobs, lookup_insert_eq, Hcache.
      split; [reflexivity |]. split; [exact Hi |]. split; [exact He |].
      rewrite <- Hjobs.
      apply (dispatch_lookup_hit h' job2 j2); try assumption.
      fold probe2. rewrite Hext, Hcache. exact Hfind.
    + rewrite (dispatch_lookup_miss h job j Hj Hout Hsize Hfind) in Hrun.
      destruct (compileShader job _ (beforeCompile h job j)) as [compiled h2 | | | |];
        try discriminate Hrun.
      injection Hrun as Hh'.
      assert (Hjobs : jobs h' =
                <[job := job_setPsoCacheHash (Z.of_nat (length (mComputeShaderCache h)))
                           refreshed]> (jobs h))
        by (rewrite <- Hh'; reflexivity).
      assert (Hcache : mComputeShaderCache h' =
                mComputeShaderCache h ++
                [{| job := job; setProperties := mSetProperties refreshed;
                    pso := compiled |}])
        by (rewrite <- Hh'; reflexivity).
      exists (length (mComputeShaderCache h)), {| job := job;
               setProperties := mSetProperties refreshed; pso := compiled |}.
      rewrite Hjobs, lookup_insert_eq, Hcache.
      split; [reflexivity |].
      split; [rewrite lookup_app_r, Nat.sub_diag by lia; reflexivity |].
      split; [reflexivity |].
      rewrite <- Hjobs.
      apply (dispatch_lookup_hit h' job2 j2); try assumption.
      fold probe2. rewrite Hext, Hcache.
      apply std_find_appended; [exact Hfind | reflexivity].
Qed.

(** The position a job gets is that of the first entry holding its
    property set. *)
Lemma dispatch_lookup_first_match h job j h1 :
  jobs h !! job = Some j ->
  Z.of_nat (length (mComputeShaderCache h)) <= mPsoCacheHash j ->
  is_size (mPsoCacheHash j) ->
  dispatch_lookup job h = Ret tt h1 ->
  exists i,
    mPsoCacheHash <$> jobs h1 !! job = Some (Z.of_nat i) /\
    forall k e', mComputeShaderCache h1 !! k = Some e' -> (k < i)%nat ->
                 setProperties e' <> mSetProperties (_updateAutoProperties j).
Proof.
  intros Hj Hout Hsize Hrun.
  destruct (std_find (mComputeShaderCache h)
              {| job := job; setProperties := mSetProperties (_updateAutoProperties j);
                 pso := initializedPso |}) as [i |] eqn:Hfind.
  - rewrite (dispatch_lookup_hit h job j i Hj Hout Hfind) in Hrun.
    injection Hrun as <-. exists i. cbn [with_jobs jobs mComputeShaderCache].
    rewrite lookup_insert_eq. split; [reflexivity |].
    apply std_find_Some in Hfind as (e & _ & _ & Hfirst). exact Hfirst.
  - rewrite (dispatch_lookup_miss h job j Hj Hout Hsize Hfind) in Hrun.
    destruct (compileShader job _ (beforeCompile h job j)) as [compiled h2 | | | |];
      try discriminate Hrun.
    injection Hrun as <-. exists (length (mComputeShaderCache h)).
    cbn [with_jobs with_mComputeShaderCache jobs mComputeShaderCache].
    rewrite lookup_insert_eq. split; [reflexivity |].
    intros k e' Hk Hlt. rewrite lookup_app_l in Hk by exact Hlt.
    apply (proj1 (std_find_None _ _) Hfind e'). apply list_elem_of_lookup. eauto.
Qed.

(** *** [dispatch] and the job's own property set *)

Lemma frames_dispatch_bindings job : frames sameJobsAndPsos (dispatch_bindings job).
Proof.
  unfold dispatch_bindings, bindTextureSlot, bindUavSlot. frames_auto.
Qed.

Lemma dispatch_unfold job h :
  dispatch job h =
  match dispatch_lookup job h with
  | Ret _ h1 => dispatch_bindings job h1
  | Raise e h1 => Raise e h1
  | AssertFailed => AssertFailed
  | UndefinedBehaviour => UndefinedBehaviour
  | StackExhausted => StackExhausted
  end.
Proof.
  unfold HlmsCompute.dispatch. rewrite bind_unfold.
  destruct (dispatch_lookup job h) as [[] h1 | | | |]; reflexivity.
Qed.

(** On the comparison of entries modelled from the specification: [dispatch]
    refreshes a job whose index is out of bounds and searches the cache for an
    entry whose property set equals the job's, whoever owns the entry.  On a
    hit the job gets the position of the first such entry and nothing else
    changes before the bindings are applied: no compile, no new entry.  On a
    miss [compileShader] is called and, when it returns, its PSO is appended
    with the job's property set and the job gets the last position.  A second
    job with an equal property set then finds that same entry and shares it. *)
Lemma dispatch_cache_by_property_value h job j :
  jobs h !! job = Some j ->
  Z.of_nat (length (mComputeShaderCache h)) <= mPsoCacheHash j ->
  is_size (mPsoCacheHash j) ->
  let refreshed := _updateAutoProperties j in
  (forall i e,
     mComputeShaderCache h !! i = Some e ->
     setProperties e = mSetProperties refreshed ->
     (forall k e', mComputeShaderCache h !! k = Some e' -> (k < i)%nat ->
                   setProperties e' <> mSetProperties refreshed) ->
     dispatch job h =
     dispatch_bindings job
       (with_jobs (<[job := job_setPsoCacheHash (Z.of_nat i) refreshed]> (jobs h)) h)) /\
  ((forall e, e ∈ mComputeShaderCache h -> setProperties e <> mSetProperties refreshed) ->
   forall compiled h2,
     compileShader job (wrap_u32 (Z.of_nat (length (mComputeShaderCache h))))
       (beforeCompile h job j) = Ret compiled h2 ->
     dispatch job h =
     dispatch_bindings job
       (with_jobs
          (<[job := job_setPsoCacheHash (Z.of_nat (length (mComputeShaderCache h)))
                      refreshed]> (jobs h))
          (with_mComputeShaderCache
             (mComputeShaderCache h ++
              [{| job := job; setProperties := mSetProperties refreshed;
                  pso := compiled |}]) h2))) /\
  (forall h' job2 j2,
     dispatch job h = Ret tt h' ->
     job2 <> job ->
     jobs h' !! job2 = Some j2 ->
     Z.of_nat (length (mComputeShaderCache h')) <= mPsoCacheHash j2 ->
     mSetProperties (_updateAutoProperties j2) = mSetProperties refreshed ->
     exists i e,
       mPsoCacheHash <$> jobs h' !! job = Some (Z.of_nat i) /\
       mComputeShaderCache h' !! i = Some e /\
       setProperties e = mSetProperties refreshed /\
       dispatch job2 h' =
       dispatch_bindings job2
         (with_jobs
            (<[job2 := job_setPsoCacheHash (Z.of_nat i) (_updateAutoProperties j2)]>
               (jobs h')) h')).
Proof.
  intros Hj Hout Hsize refreshed.
  destruct (dispatch_lookup_by_property_value h job j Hj Hout Hsize)
    as (Hhit & Hmiss & Hshare).
  fold refreshed in Hhit, Hmiss, Hshare.
  split; [| split].
  - intros i e Hi He Hfirst. rewrite dispatch_unfold, (Hhit i e Hi He Hfirst). reflexivity.
  - intros Hnone compiled h2 Hcompile.
    rewrite dispatch_unfold, (Hmiss Hnone compiled h2 Hcompile). reflexivity.
  - intros h' job2 j2 Hrun Hne Hj2 Hout2 Hsame.
    rewrite dispatch_unfold in Hrun.
    destruct (dispatch_lookup job h) as [[] h1 | | | |] eqn:Hlookup; try discriminate Hrun.
    pose proof (frames_dispatch_bindings job h1) as Hframe. rewrite Hrun in Hframe.
    destruct Hframe as (Hjobs & Hcache & _).
    destruct (Hshare h1 job2 j2 eq_refl Hne) as (i & e & Hidx & Hi & He & _);
      try congruence.
    exists i, e. rewrite Hjobs, Hcache.
    split; [exact Hidx |]. split; [exact Hi |]. split; [exact He |].
    rewrite dispatch_unfold.
    rewrite (dispatch_lookup_hit h' job2 j2 i Hj2 Hout2); [rewrite Hjobs; reflexivity |].
    rewrite Hcache. apply std_find_Some. exists e. split; [exact Hi |].
    split; [rewrite He; symmetry; exact Hsame |].
    intros k e' Hk Hlt Heq.
    (* the first job's index is the first entry that matches *)
    pose proof (dispatch_lookup_first_match h job j h1 Hj Hout Hsize Hlookup) as Hfirst.
    destruct Hfirst as (i' & Hidx' & Hfirst).
    assert (i' = i) as -> by (rewrite Hidx' in Hidx; injection Hidx; lia).
    apply (Hfirst k e' Hk Hlt). rewrite Heq. exact Hsame.
Qed.

(** What the first half of [dispatch] leaves behind for the job, however it
    ends. *)
Lemma dispatch_lookup_outcome h job j :
  jobs h !! job = Some j ->
  is_size (mPsoCacheHash j) ->
  let outOfBounds := Z.of_nat (length (mComputeShaderCache h)) <=? mPsoCacheHash j in
  let refreshed := if outOfBounds then _updateAutoProperties j else j in
  match dispatch_lookup job h with
  | Ret _ h1 =>
      exists j1,
        jobs h1 !! job = Some j1 /\
        mSetProperties j1 = mSetProperties refreshed /\
        (outOfBounds = true ->
         exists e, mComputeShaderCache h1 !! Z.to_nat (mPsoCacheHash j1) = Some e /\
                   setProperties e = mSetProperties refreshed)
  | Raise _ h1 =>
      outOfBounds = true /\
      exists j1, jobs h1 !! job = Some j1 /\ mSetProperties j1 = mSetProperties refreshed
  | _ => True
  end.
Proof.
  intros Hj Hsize outOfBounds refreshed. subst outOfBounds refreshed.
  destruct (Z.leb_spec (Z.of_nat (length (mComputeShaderCache h))) (mPsoCacheHash j))
    as [Hout | Hin].
  - destruct (std_find (mComputeShaderCache h)
                {| job := job; setProperties := mSetProperties (_updateAutoProperties j);
                   pso := initializedPso |}) as [i |] eqn:Hfind.
    + rewrite (dispatch_lookup_hit h job j i Hj Hout Hfind).
      eexists. cbn [with_jobs jobs mComputeShaderCache]. rewrite lookup_insert_eq.
      split; [reflexivity |]. split; [reflexivity |]. intros _.
      cbn [job_setPsoCacheHash mPsoCacheHash]. rewrite Nat2Z.id.
      apply std_find_Some in Hfind as (e & Hi & He & _). eauto.
    + rewrite (dispatch_lookup_miss h job j Hj Hout Hsize Hfind).
      pose proof (frames_compileShader job
                    (wrap_u32 (Z.of_nat (length (mComputeShaderCache h))))
                    (beforeCompile h job j)) as Hframe.
      destruct (compileShader job _ (beforeCompile h job j)) as [compiled h2 | e h2 | | |];
        try exact I.
      * eexists. cbn [with_jobs with_mComputeShaderCache jobs mComputeShaderCache].
        rewrite lookup_insert_eq.
        split; [reflexivity |]. split; [reflexivity |]. intros _.
        cbn [job_setPsoCacheHash mPsoCacheHash]. rewrite Nat2Z.id.
        eexists. rewrite lookup_app_r, Nat.sub_diag by lia. split; reflexivity.
      * destruct Hframe as (Hjobs & _). split; [reflexivity |].
        exists (_updateAutoProperties j). rewrite Hjobs.
        cbn [HlmsCompute.beforeCompile with_mSetProperties with_jobs jobs].
        rewrite lookup_insert_eq. split; reflexivity.
  - rewrite (dispatch_lookup_in_bounds h job j Hj Hin).
    exists j. split; [exact Hj |]. split; [reflexivity | discriminate].
Qed.

(** A miss for a job whose template leaves the shader stage enabled, while
    the program cache does not hold the expanded text: [dispatch] ends where
    [compileShader] does, in the read of [itor->second] at [end()], and
    appends nothing. *)
Lemma dispatch_miss_enabled_stage h job j err outString props :
  jobs h !! job = Some j ->
  Z.of_nat (length (mComputeShaderCache h)) <= mPsoCacheHash j ->
  is_size (mPsoCacheHash j) ->
  std_find (mComputeShaderCache h)
    {| job := job; setProperties := mSetProperties (_updateAutoProperties j);
       pso := initializedPso |} = None ->
  parseTemplate (mSourceFilename (_updateAutoProperties j))
    (mIncludedPieceFiles (_updateAutoProperties j))
    (mergedProperties (settings h) (mSetProperties (_updateAutoProperties j)))
    = (err, outString, props) ->
  getProperty props HlmsBaseProp.DisableStage = 0 ->
  mCompiledShaderCache h !! OGRE_HASH128_FUNC outString = None ->
  dispatch job h = UndefinedBehaviour.
Proof.
  intros Hj Hout Hsize Hfind Hparse Hstage Hprogram.
  rewrite dispatch_unfold.
  rewrite (dispatch_lookup_miss h job j Hj Hout Hsize Hfind).
  pose proof (compileShader_miss job
                (wrap_u32 (Z.of_nat (length (mComputeShaderCache h))))
                (beforeCompile h job j) (_updateAutoProperties j)) as Hmiss.
  cbn [HlmsCompute.beforeCompile jobs settings this_mSetProperties mCompiledShaderCache
       with_mSetProperties with_jobs] in Hmiss.
  rewrite Hparse in Hmiss.
  rewrite Hmiss; [reflexivity | apply lookup_insert_eq | exact Hstage | exact Hprogram].
Qed.

(** C10, as amended.  [dispatch] leaves the job's property set as
    [_updateAutoProperties] made it (as it was, for an index inside the
    cache), on every normal return and also when it raises: the set
    borrowed for the search is swapped back before [compileShader] is called,
    so a failed compile finds the job with its set, never with the empty one
    it held during the search.  After a normal return the entry the job
    designates holds that set by value. *)
Theorem dispatch_keeps_job_properties h job j :
  jobs h !! job = Some j ->
  is_size (mPsoCacheHash j) ->
  let outOfBounds := Z.of_nat (length (mComputeShaderCache h)) <=? mPsoCacheHash j in
  let refreshed := if outOfBounds then _updateAutoProperties j else j in
  (forall h',
     dispatch job h = Ret tt h' ->
     exists j',
       jobs h' !! job = Some j' /\
       mSetProperties j' = mSetProperties refreshed /\
       (outOfBounds = true ->
        exists e, mComputeShaderCache h' !! Z.to_nat (mPsoCacheHash j') = Some e /\
                  setProperties e = mSetProperties refreshed)) /\
  (forall exn h',
     dispatch job h = Raise exn h' ->
     exists j',
       jobs h' !! job = Some j' /\ mSetProperties j' = mSetProperties refreshed).
Proof.
  intros Hj Hsize outOfBounds refreshed.
  pose proof (dispatch_lookup_outcome h job j Hj Hsize) as Hlookup.
  cbv zeta in Hlookup. fold outOfBounds refreshed in Hlookup.
  split.
  - intros h' Hrun. unfold HlmsCompute.dispatch in Hrun.
    apply bind_inv_Ret in Hrun as ([] & h1 & Hl & Hb).
    rewrite Hl in Hlookup. destruct Hlookup as (j1 & Hj1 & Hprops & Hentry).
    pose proof (frames_dispatch_bindings job h1) as Hframe. rewrite Hb in Hframe.
    destruct Hframe as (Hjobs & Hcache & _).
    exists j1. rewrite Hjobs, Hcache. auto.
  - intros exn h' Hrun. unfold HlmsCompute.dispatch in Hrun.
    apply bind_inv_Raise in Hrun as [Hl | ([] & h1 & Hl & Hb)].
    + rewrite Hl in Hlookup. destruct Hlookup as (_ & Hj1). exact Hj1.
    + rewrite Hl in Hlookup. destruct Hlookup as (j1 & Hj1 & Hprops & _).
      pose proof (frames_dispatch_bindings job h1) as Hframe. rewrite Hb in Hframe.
      destruct Hframe as (Hjobs & _).
      exists j1. rewrite Hjobs. auto.
Qed.

End Collaborators.

(** *** The check on the dispatch shape *)

(** As long as neither product leaves the range of [uint32], the check fires
    exactly when a product is zero. *)
Lemma hasZeroProduct_without_overflow p tx ty tz nx ny nz :
  mThreadsPerGroup p = (tx, ty, tz) -> mNumThreadGroups p = (nx, ny, nz) ->
  0 <= tx -> 0 <= ty -> 0 <= tz -> 0 <= nx -> 0 <= ny -> 0 <= nz ->
  tx * ty * tz < UINT32_MOD -> nx * ny * nz < UINT32_MOD ->
  (hasZeroProduct p = true <-> tx * ty * tz = 0 \/ nx * ny * nz = 0).
Proof.
  intros Ht Hn ? ? ? ? ? ? Hto Hno. unfold hasZeroProduct. rewrite Ht, Hn.
  assert (Hw : forall a b c, 0 <= a -> 0 <= b -> 0 <= c -> a * b * c < UINT32_MOD ->
               wrap_u32 (wrap_u32 (a * b) * c) = a * b * c).
  { intros a b c Ha Hb Hc Hlt. unfold wrap_u32.
    rewrite Z.mul_mod_idemp_l by discriminate.
    apply Z.mod_small. split; [| exact Hlt]. apply Z.mul_nonneg_nonneg; [| exact Hc].
    apply Z.mul_nonneg_nonneg; assumption. }
  rewrite !Hw by assumption.
  rewrite orb_true_iff, !Z.eqb_eq. reflexivity.
Qed.

(** C1 (code at the failing input).  A job whose template does not set the
    disable flag is compiled on a new [HlmsCompute]: the hash of its text is
    not in the program cache, and the call runs into the dereference of
    [end()] instead of creating and registering a program.  When the hash is
    in the cache (with program 0), the call does not reuse program 0: it
    creates program 1, returns it and registers it in place of program 0. *)
Theorem compileShader_program_cache_lookup_inverted :
  forall (OGRE_HASH128_FUNC : string -> Hash) (finalHash : Z) (found : HighLevelGpuProgram),
    let h0 := newHlmsCompute {[ 0%nat := newJob "a.glsl" (shapeProperties 8 8 1 4 4 1) ]} in
    let h0 := with_mSetProperties (shapeProperties 8 8 1 4 4 1) h0 in
    let hashVal := OGRE_HASH128_FUNC "void main() {}" in
    let h1 := with_programs [found]
                (with_mCompiledShaderCache {[ hashVal := Some 0%nat ]} h0) in
    compileShader plainTemplate OGRE_HASH128_FUNC 0%nat finalHash h0 = UndefinedBehaviour /\
    exists p h',
      compileShader plainTemplate OGRE_HASH128_FUNC 0%nat finalHash h1 = Ret p h' /\
      computeShader p = Some 1%nat /\
      length (programs h') = 2%nat /\
      mCompiledShaderCache h' = {[ hashVal := Some 1%nat ]}.
Proof.
  intros hash finalHash found h0 h0' hashVal h1. split.
  - apply (compileShader_miss plainTemplate hash 0%nat finalHash h0'
             (newJob "a.glsl" (shapeProperties 8 8 1 4 4 1)) eq_refl);
      [vm_compute; reflexivity | apply lookup_empty].
  - destruct (compileShader_hit plainTemplate hash 0%nat finalHash h1
                (newJob "a.glsl" (shapeProperties 8 8 1 4 4 1)) (Some 0%nat) eq_refl)
      as (h' & Hrun & Hlen & Hcache).
    + vm_compute; reflexivity.
    + apply lookup_singleton_eq.
    + vm_compute; reflexivity.
    + eexists _, h'. split; [exact Hrun |]. split; [reflexivity |].
      split; [exact Hlen |]. rewrite Hcache. apply insert_singleton_eq.
Qed.

(** C7 (code at the failing input).  With the shader stage disabled and the
    properties threads_per_group = (1, 1, 1), num_thread_groups =
    (65536, 65536, 1), neither product is zero, and [compileShader] raises
    [ERR_INVALIDPARAMS] all the same: the product is formed in [uint32], where
    65536 * 65536 is 0. *)
Theorem compileShader_raises_on_nonzero_products :
  forall (OGRE_HASH128_FUNC : string -> Hash) (finalHash : Z),
    let props := stagelessProperties 1 1 1 65536 65536 1 in
    let h := with_mSetProperties props (newHlmsCompute {[ 0%nat := newJob "e.glsl" props ]}) in
    getProperty props ComputeProperty.ThreadsPerGroupX *
      getProperty props ComputeProperty.ThreadsPerGroupY *
      getProperty props ComputeProperty.ThreadsPerGroupZ <> 0 /\
    getProperty props ComputeProperty.NumThreadGroupsX *
      getProperty props ComputeProperty.NumThreadGroupsY *
      getProperty props ComputeProperty.NumThreadGroupsZ <> 0 /\
    exists h',
      compileShader plainTemplate OGRE_HASH128_FUNC 0%nat finalHash h
        = Raise invalidParams h'.
Proof.
  intros hash finalHash props h.
  split; [vm_compute; discriminate |]. split; [vm_compute; discriminate |].
  destruct (compileShader_disabled plainTemplate hash 0%nat finalHash h
              (newJob "e.glsl" props) eq_refl) as (h1 & _ & _ & Hrun).
  { vm_compute. discriminate. }
  exists h1. rewrite Hrun. vm_compute hasZeroProduct. reflexivity.
Qed.

(** *** [clearShaderCache] *)

(** The loop over the entries: each PSO goes to the render system's
    destruction hook, and the job named by each entry gets the invalid index.
    A job no entry names keeps its index. *)
Lemma clearShaderCache_loop (entries : list ComputePsoCache) h :
  (forall e, e ∈ entries -> is_Some (jobs h !! job e)) ->
  exists h',
    forEach entries (fun itor =>
        _ ← rsCall (_hlmsComputePipelineStateObjectDestroyed (pso itor));
        j ← deref (job itor);
        store (job itor) (job_setPsoCacheHash SIZE_MAX j)) h = Ret tt h' /\
    sameCaches h h' /\
    renderSystem h' =
      renderSystem h ++ ((fun e => _hlmsComputePipelineStateObjectDestroyed (pso e)) <$> entries) /\
    (forall p, p ∈ job <$> entries -> mPsoCacheHash <$> jobs h' !! p = Some SIZE_MAX) /\
    (forall p, p ∉ job <$> entries -> jobs h' !! p = jobs h !! p).
Proof.
  revert h. induction entries as [| e entries IH]; intros h Howners.
  - exists h. split; [reflexivity |]. split; [repeat split |].
    split; [cbn; rewrite app_nil_r; reflexivity |].
    split; [intros p Hp; cbn in Hp; inversion Hp | reflexivity].
  - destruct (Howners e) as [j Hj]; [left |].
    set (h1 := with_jobs (<[job e := job_setPsoCacheHash SIZE_MAX j]> (jobs h))
                 (with_renderSystem
                    (renderSystem h ++ [_hlmsComputePipelineStateObjectDestroyed (pso e)]) h)).
    assert (Hstep : (_ ← rsCall (_hlmsComputePipelineStateObjectDestroyed (pso e));
                     j ← deref (job e);
                     store (job e) (job_setPsoCacheHash SIZE_MAX j)) h = Ret tt h1).
    { rewrite bind_unfold. cbn [rsCall modify].
      rewrite bind_unfold. unfold deref. cbn [with_renderSystem jobs]. rewrite Hj.
      reflexivity. }
    destruct (IH h1) as (h' & Hrun & Hsame & Hrs & Hreset & Hkeep).
    { intros e' He'. subst h1. cbn [with_jobs jobs].
      destruct (decide (job e = job e')) as [-> | Hne].
      - rewrite lookup_insert_eq. eauto.
      - rewrite lookup_insert_ne by exact Hne. apply Howners. right. exact He'. }
    exists h'. split; [| split; [| split; [| split]]].
    + cbn [forEach]. rewrite (bind_Ret _ _ _ _ _ Hstep). exact Hrun.
    + destruct Hsame as (a & b & c & d & f & g). subst h1. repeat split; assumption.
    + rewrite Hrs. subst h1. cbn. rewrite <- app_assoc. reflexivity.
    + intros p Hp. destruct (decide (p ∈ job <$> entries)) as [Hin | Hout].
      * apply Hreset, Hin.
      * rewrite (Hkeep p Hout). cbn in Hp. apply elem_of_cons in Hp as [-> | Hin];
          [| contradiction].
        subst h1. cbn [with_jobs jobs]. rewrite lookup_insert_eq. reflexivity.
    + intros p Hp. cbn in Hp. rewrite not_elem_of_cons in Hp. destruct Hp as [Hne Hout].
      rewrite (Hkeep p Hout). subst h1. cbn [with_jobs jobs].
      apply lookup_insert_ne. auto.
Qed.

(** What [clearShaderCache] does: every cached PSO is destroyed through the
    render system, both caches end up empty, and every job that an entry
    names as its owner has the invalid index.  A job that only shared an
    entry is left as it was. *)
Lemma clearShaderCache_spec h :
  (forall e, e ∈ mComputeShaderCache h -> is_Some (jobs h !! job e)) ->
  exists h',
    clearShaderCache h = Ret tt h' /\
    mComputeShaderCache h' = [] /\
    mCompiledShaderCache h' = ∅ /\
    renderSystem h' =
      renderSystem h ++
      ((fun e => _hlmsComputePipelineStateObjectDestroyed (pso e)) <$> mComputeShaderCache h) /\
    (forall p, p ∈ job <$> mComputeShaderCache h ->
               mPsoCacheHash <$> jobs h' !! p = Some SIZE_MAX) /\
    (forall p, p ∉ job <$> mComputeShaderCache h -> jobs h' !! p = jobs h !! p).
Proof.
  intros Howners.
  destruct (clearShaderCache_loop (mComputeShaderCache h) h Howners)
    as (h1 & Hrun & Hsame & Hrs & Hreset & Hkeep).
  eexists. split; [| split; [| split; [| split; [| split]]]].
  - unfold clearShaderCache. rewrite bind_unfold. cbn [get].
    rewrite (bind_Ret _ _ _ _ _ Hrun). reflexivity.
  - reflexivity.
  - reflexivity.
  - exact Hrs.
  - exact Hreset.
  - exact Hkeep.
Qed.


(** Insertion order is immaterial to a property set. *)
Lemma setProperty_commute key1 value1 key2 value2 props :
  key1 <> key2 ->
  setProperty key1 value1 (setProperty key2 value2 props) =
  setProperty key2 value2 (setProperty key1 value1 props).
Proof. intros Hne. unfold setProperty. apply insert_insert_ne. auto. Qed.

(** *** Sample runs *)

(** [oneEntryHlms] is what the first lookup of job 0 leaves. *)
Lemma oneEntryHlms_reached :
  dispatch_lookup noAutoProperties plainTemplate constHash 0%nat
    (newHlmsCompute {[ 0%nat := newJob "a.glsl" sharedProperties;
                       1%nat := newJob "b.glsl" sharedProperties ]})
  = Ret tt oneEntryHlms.
Proof. vm_compute. reflexivity. Qed.

(** A hit at a concrete input: job 1 has the property set of the entry job 0
    owns, and is given position 0 without a compile. *)
Lemma dispatch_cache_by_property_value_witness :
  jobs oneEntryHlms !! 1%nat = Some (newJob "b.glsl" sharedProperties) /\
  Z.of_nat (length (mComputeShaderCache oneEntryHlms))
    <= mPsoCacheHash (newJob "b.glsl" sharedProperties) /\
  is_size (mPsoCacheHash (newJob "b.glsl" sharedProperties)) /\
  dispatch noAutoProperties plainTemplate constHash 1%nat oneEntryHlms =
  dispatch_bindings 1%nat
    (with_jobs
       (<[1%nat := job_setPsoCacheHash 0 (newJob "b.glsl" sharedProperties)]>
          (jobs oneEntryHlms))
       oneEntryHlms).
Proof.
  assert (H1 : jobs oneEntryHlms !! 1%nat = Some (newJob "b.glsl" sharedProperties))
    by reflexivity.
  assert (H2 : Z.of_nat (length (mComputeShaderCache oneEntryHlms))
               <= mPsoCacheHash (newJob "b.glsl" sharedProperties))
    by (vm_compute; discriminate).
  assert (H3 : is_size (mPsoCacheHash (newJob "b.glsl" sharedProperties)))
    by (split; vm_compute; [discriminate | reflexivity]).
  split; [exact H1 |]. split; [exact H2 |]. split; [exact H3 |].
  pose proof (proj1 (dispatch_cache_by_property_value noAutoProperties plainTemplate
                       constHash oneEntryHlms 1%nat _ H1 H2 H3)) as Hhit.
  cbv zeta in Hhit.
  refine (Hhit 0%nat {| job := 0%nat; setProperties := sharedProperties;
                        pso := psoOf None sharedProperties |} eq_refl eq_refl _).
  intros k e' _ Hlt. exfalso. exact (Nat.nlt_0_r k Hlt).
Defined.

(** C10, as amended, at a concrete input: the dispatch of job 1 above. *)
Lemma dispatch_keeps_job_properties_witness :
  jobs oneEntryHlms !! 1%nat = Some (newJob "b.glsl" sharedProperties) /\
  is_size (mPsoCacheHash (newJob "b.glsl" sharedProperties)) /\
  forall h',
    dispatch noAutoProperties plainTemplate constHash 1%nat oneEntryHlms = Ret tt h' ->
    exists j',
      jobs h' !! 1%nat = Some j' /\
      mSetProperties j' = sharedProperties.
Proof.
  assert (H1 : jobs oneEntryHlms !! 1%nat = Some (newJob "b.glsl" sharedProperties))
    by reflexivity.
  assert (H3 : is_size (mPsoCacheHash (newJob "b.glsl" sharedProperties)))
    by (split; vm_compute; [discriminate | reflexivity]).
  split; [exact H1 |]. split; [exact H3 |].
  intros h' Hrun.
  destruct (proj1 (dispatch_keeps_job_properties noAutoProperties plainTemplate
                     constHash oneEntryHlms 1%nat _ H1 H3) h' Hrun)
    as (j' & Hj' & Hprops & _).
  exists j'. split; [exact Hj' | exact Hprops].
Defined.

Lemma shapelessProperties_not_empty : shapelessProperties <> ∅.
Proof. unfold shapelessProperties, setProperty. apply insert_non_empty. Qed.

(** C10, as first stated, fails where job 0 sets no number of thread groups:
    the cache is empty, the search misses, the compile raises, and at the
    throw the job holds its property set, not the empty set it lent out
    during the search. *)
Lemma dispatch_failed_compile_job_not_empty :
  exists exn h',
    dispatch noAutoProperties plainTemplate constHash 0%nat
      (newHlmsCompute {[ 0%nat := newJob "z.glsl" shapelessProperties ]}) = Raise exn h' /\
    number exn = ERR_INVALIDPARAMS /\
    mSetProperties <$> jobs h' !! 0%nat = Some shapelessProperties /\
    mSetProperties <$> jobs h' !! 0%nat <> Some ∅.
Proof.
  set (h := newHlmsCompute {[ 0%nat := newJob "z.glsl" shapelessProperties ]}).
  set (run := dispatch noAutoProperties plainTemplate constHash 0%nat h).
  assert (Hjob : mSetProperties <$> jobs (stateOf run h) !! 0%nat = Some shapelessProperties)
    by (vm_compute; reflexivity).
  exists invalidParams, (stateOf run h).
  split; [vm_compute; reflexivity |]. split; [reflexivity |].
  split; [exact Hjob |]. rewrite Hjob. intros H.
  apply shapelessProperties_not_empty. congruence.
Qed.

(** C2 (code at the failing input).  A new job, whose template leaves the
    shader stage enabled, is dispatched on a new [HlmsCompute]: both caches
    are empty, the search misses whatever the comparison of entries is, and
    [compileShader] runs into the read of [itor->second] at [end()] (the
    inverted lookup of the program cache): no PSO is compiled, none is
    appended. *)
Theorem dispatch_miss_reaches_inverted_lookup :
  forall (OGRE_HASH128_FUNC : string -> Hash),
    let j := newJob "a.glsl" (shapeProperties 8 8 1 4 4 1) in
    let h0 := newHlmsCompute {[ 0%nat := j ]} in
    mComputeShaderCache h0 = [] /\
    mCompiledShaderCache h0 = ∅ /\
    mPsoCacheHash j = SIZE_MAX /\
    dispatch noAutoProperties plainTemplate OGRE_HASH128_FUNC 0%nat h0 = UndefinedBehaviour.
Proof.
  intros hash j h0. split; [reflexivity |]. split; [reflexivity |]. split; [reflexivity |].
  apply (dispatch_miss_enabled_stage noAutoProperties plainTemplate hash h0 0%nat j
           false "void main() {}"
           (mergedProperties glslSettings (shapeProperties 8 8 1 4 4 1)) eq_refl).
  - vm_compute. discriminate.
  - split; vm_compute; [discriminate | reflexivity].
  - reflexivity.
  - reflexivity.
  - vm_compute. reflexivity.
  - apply lookup_empty.
Qed.



End HlmsComputeFacts.

(** ** Facts about the constructor and [bindBuffer] together *)
Module TexBufferMore.
Import Machine MachineFacts TexBuffer TexBufferFacts TexBufferConstruction.

(** X1.  [bindBuffer] on the texture-buffer path, for a range inside the
    buffer whose offset is below the last byte: both assertions pass (whatever
    NDEBUG is) and exactly four GL calls are issued, in order: the unit of the
    slot is selected, the texture is bound to GL_TEXTURE_BUFFER,
    [glTexBufferRange] gets the byte offset mFinalBufferStart *
    mBytesPerElement + offset and the size (the rest of the buffer when
    sizeBytes is 0), and unit 0 is selected again.  The size bound is positive
    and the range ends inside the buffer. *)
Theorem bindBuffer_in_range_binds_exactly ndebug b slot offset sizeBytes :
  bufferInterfaceIsGL3Plus b = true ->
  mUseLegacyTechnique b = false ->
  0 <= offset < totalSizeBytes b - 1 ->
  0 <= sizeBytes ->
  offset + sizeBytes <= totalSizeBytes b ->
  let size := if sizeBytes =? 0 then totalSizeBytes b - offset else sizeBytes in
  bindBuffer ndebug b slot offset sizeBytes =
    Issued [ glActiveTexture (GL_TEXTURE0 + slot);
             glBindTexture GL_TEXTURE_BUFFER (mTexName b);
             glTexBufferRange (mInternalFormat b) (vboName b)
               (wrap_size (mFinalBufferStart b * mBytesPerElement b + offset)) size;
             glActiveTexture GL_TEXTURE0 ] /\
  0 < size /\ offset + size <= totalSizeBytes b.
Proof.
  intros Hif Hnative Ho Hs Hle size.
  pose proof (totalSizeBytes_range b) as Ht. unfold is_size in Ht.
  split.
  - unfold bindBuffer. rewrite Hif, Hnative.
    rewrite (wrap_size_small (totalSizeBytes b - 1)) by (unfold is_size; lia).
    rewrite (wrap_size_small (offset + sizeBytes)) by (unfold is_size; lia).
    destruct (Z.ltb_spec offset (totalSizeBytes b - 1)); [| lia].
    destruct (Z.leb_spec (offset + sizeBytes) (totalSizeBytes b)); [| lia].
    rewrite !andb_false_r. cbn [negb andb].
    rewrite (wrap_size_small (totalSizeBytes b - offset)) by (unfold is_size; lia).
    reflexivity.
  - unfold size. destruct (Z.eqb_spec sizeBytes 0); lia.
Qed.

Lemma bindBuffer_in_range_binds_exactly_witness :
  0 <= 4 < totalSizeBytes buf16 - 1 /\
  4 + 0 <= totalSizeBytes buf16 /\
  bindBuffer false buf16 3 4 0 =
    Issued [ glActiveTexture (GL_TEXTURE0 + 3);
             glBindTexture GL_TEXTURE_BUFFER 1;
             glTexBufferRange 0x8814 7 4 12;
             glActiveTexture GL_TEXTURE0 ].
Proof.
  assert (H1 : 0 <= 4 < totalSizeBytes buf16 - 1) by (vm_compute; split; [discriminate | reflexivity]).
  assert (H2 : 4 + 0 <= totalSizeBytes buf16) by (vm_compute; discriminate).
  split; [exact H1 |]. split; [exact H2 |].
  exact (proj1 (bindBuffer_in_range_binds_exactly false buf16 3 4 0 eq_refl eq_refl H1
                  (Z.le_refl 0) H2)).
Defined.

(** X2.  Whenever [bindBuffer] returns, on either path, it has selected the
    texture unit of the slot and then unit 0 again, and nothing else; it has
    bound the buffer's own texture once; and it has either left the unpack
    alignment alone or set it to 1 and back to 4. *)
Theorem bindBuffer_restores_texture_unit ndebug b slot offset sizeBytes calls :
  bindBuffer ndebug b slot offset sizeBytes = Issued calls ->
  activeTextureUnits calls = [GL_TEXTURE0 + slot; GL_TEXTURE0] /\
  (unpackAlignments calls = [] \/ unpackAlignments calls = [1; 4]) /\
  (exists target, omap (fun c => match c with glBindTexture t x => Some (t, x) | _ => None end) calls
                  = [(target, mTexName b)]).
Proof.
  unfold bindBuffer.
  repeat match goal with
         | |- context [if ?c then _ else _] => destruct c
         end; intros [= <-]; cbn; eauto.
Qed.

Lemma bindBuffer_restores_texture_unit_witness :
  activeTextureUnits
    [ glActiveTexture (GL_TEXTURE0 + 3); glBindTexture GL_TEXTURE_BUFFER 1;
      glTexBufferRange 0x8814 7 4 12; glActiveTexture GL_TEXTURE0 ]
  = [GL_TEXTURE0 + 3; GL_TEXTURE0].
Proof.
  exact (proj1 (bindBuffer_restores_texture_unit false buf16 3 4 0 _ eq_refl)).
Defined.

(** X3.  The end-of-range assertion of [bindBuffer] adds offset and sizeBytes
    as size_t, so the sum wraps: for an offset inside the buffer (and at most
    2^63) and sizeBytes = 2^64 - offset the range ends far beyond the buffer,
    the sum wraps to 0, both assertions pass, and [glTexBufferRange], whose
    size parameter is the signed GLsizeiptr, receives the negative size
    - offset. *)
Theorem bindBuffer_end_check_wraps b slot offset :
  bufferInterfaceIsGL3Plus b = true ->
  mUseLegacyTechnique b = false ->
  0 < offset < totalSizeBytes b - 1 ->
  offset <= 2 ^ 63 ->
  let sizeBytes := SIZE_MOD - offset in
  is_size sizeBytes /\
  totalSizeBytes b < offset + sizeBytes /\
  exists calls,
    bindBuffer false b slot offset sizeBytes = Issued calls /\
    received <$> calls =
      [ glActiveTexture (GL_TEXTURE0 + slot);
        glBindTexture GL_TEXTURE_BUFFER (mTexName b);
        glTexBufferRange (mInternalFormat b) (vboName b)
          (to_GLintptr (mFinalBufferStart b * mBytesPerElement b + offset)) (- offset);
        glActiveTexture GL_TEXTURE0 ].
Proof.
  intros Hif Hnative Ho Hhalf sizeBytes.
  pose proof (totalSizeBytes_range b) as Ht. unfold is_size in *.
  assert (Hmod : SIZE_MOD = 2 ^ 64) by reflexivity.
  split; [unfold sizeBytes; lia |]. split; [unfold sizeBytes; lia |].
  eexists. split.
  - unfold bindBuffer. rewrite Hif, Hnative. cbn [negb andb].
    rewrite (wrap_size_small (totalSizeBytes b - 1)) by (unfold is_size; lia).
    destruct (Z.ltb_spec offset (totalSizeBytes b - 1)); [| lia].
    replace (offset + sizeBytes) with SIZE_MOD by (unfold sizeBytes; lia).
    change (wrap_size SIZE_MOD) with 0.
    destruct (Z.leb_spec 0 (totalSizeBytes b)); [| lia].
    cbn [negb].
    destruct (Z.eqb_spec sizeBytes 0); [unfold sizeBytes in *; lia |].
    reflexivity.
  - assert (Hsize : to_GLsizeiptr sizeBytes = - offset).
    { unfold to_GLsizeiptr, to_GLintptr.
      rewrite (wrap_size_small sizeBytes) by (unfold is_size, sizeBytes; lia).
      destruct (Z.ltb_spec sizeBytes (2 ^ 63)); unfold sizeBytes in *; lia. }
    assert (Hoffset : forall z, to_GLintptr (wrap_size z) = to_GLintptr z).
    { intros z. unfold to_GLintptr.
      rewrite (wrap_size_small (wrap_size z)) by apply wrap_size_range. reflexivity. }
    cbn [fmap list_fmap received]. rewrite Hsize, Hoffset. reflexivity.
Qed.

Lemma bindBuffer_end_check_wraps_witness :
  0 < 1 < totalSizeBytes buf16 - 1 /\
  totalSizeBytes buf16 < 1 + (SIZE_MOD - 1) /\
  exists calls,
    bindBuffer false buf16 0 1 (SIZE_MOD - 1) = Issued calls /\
    received <$> calls =
      [ glActiveTexture (GL_TEXTURE0 + 0);
        glBindTexture GL_TEXTURE_BUFFER 1;
        glTexBufferRange 0x8814 7 1 (- 1);
        glActiveTexture GL_TEXTURE0 ].
Proof.
  assert (H1 : 0 < 1 < totalSizeBytes buf16 - 1) by (vm_compute; split; reflexivity).
  assert (H2 : 1 <= 2 ^ 63) by (vm_compute; discriminate).
  split; [exact H1 |].
  destruct (bindBuffer_end_check_wraps buf16 0 1 eq_refl eq_refl H1 H2) as (_ & H3 & H4).
  split; [exact H3 | exact H4].
Defined.

Lemma legacy_rows n :
  0 <= n ->
  let width := Z.min 2048 n in
  let height := (n + 2048 - 1) / 2048 in
  0 <= width <= 2048 /\ 0 <= height <= n /\
  n <= width * height < n + 2048.
Proof.
  intros Hn width height.
  pose proof (Z.div_mod (n + 2048 - 1) 2048 ltac:(lia)) as Hdiv.
  pose proof (Z.mod_pos_bound (n + 2048 - 1) 2048 ltac:(lia)) as Hmod.
  fold height in Hdiv.
  destruct (Z.le_gt_cases n 2048) as [Hle | Hgt].
  - unfold width. rewrite Z.min_r by lia.
    destruct (Z.eq_dec n 0) as [-> | Hne]; [vm_compute; repeat split; discriminate |].
    assert (height = 1) as -> by lia. lia.
  - unfold width. rewrite Z.min_l by lia. lia.
Qed.

Lemma to_GLsizei_small z : 0 <= z < 2 ^ 31 -> to_GLsizei z = z.
Proof.
  intros Hz. unfold to_GLsizei.
  rewrite wrap_u32_small by (unfold is_u32, UINT32_MOD; lia).
  destruct (Z.ltb_spec z (2 ^ 31)); lia.
Qed.

(** X4.  The constructor in a build with OGRE_LEGACY_GL_COMPATIBLE, on a
    render system whose shading language version is below 430, for fewer than
    2^31 elements and a nonzero texel size: it chooses the legacy technique
    and allocates a 2D texture at most 2048 texels wide whose texel count is
    at least the number of internal elements (numElements / bytes per texel)
    and exceeds it by less than one row. *)
Theorem construct_legacy_texture_holds_elements ndebug numElements bytesPerElement
    finalBufferStart iface vbo pf texName version uninit :
  version < 430 ->
  0 < getNumElemBytes pf ->
  0 <= numElements < 2 ^ 31 ->
  exists b calls width height,
    construct true ndebug numElements bytesPerElement finalBufferStart iface vbo pf texName
      (Some version) uninit = Built b calls /\
    mUseLegacyTechnique b = true /\
    mInternalNumElements b = numElements / getNumElemBytes pf /\
    allocated calls = Some (width, height) /\
    0 <= width <= 2048 /\
    mInternalNumElements b <= width * height < mInternalNumElements b + 2048.
Proof.
  intros Hv He Hn. unfold construct.
  destruct (Z.ltb_spec version 430); [| lia].
  destruct (Z.eqb_spec (getNumElemBytes pf) 0) as [| Hne]; [lia |].
  set (elems := numElements / getNumElemBytes pf).
  assert (Hn0 : 0 <= elems) by (apply Z.div_pos; lia).
  assert (Hn1 : elems <= numElements) by (apply Z.div_le_upper_bound; nia).
  destruct (legacy_rows elems Hn0) as (Hw & Hh & Hwh).
  do 2 eexists. exists (Z.min 2048 elems), ((elems + 2048 - 1) / 2048).
  split; [reflexivity |]. split; [reflexivity |]. split; [reflexivity |].
  split.
  - cbn. rewrite (wrap_size_small (elems + 2048 - 1)) by (unfold is_size, SIZE_MOD; lia).
    rewrite !to_GLsizei_small by lia. reflexivity.
  - split; [exact Hw | exact Hwh].
Qed.

Lemma construct_legacy_texture_holds_elements_witness :
  exists b calls,
    construct true false 5000 1 0 true 7
      {| getGLImageInternalFormat := 0x8814; getGLOriginFormat := 0x1908;
         getGLOriginDataType := 0x1406; getNumElemBytes := 1 |} 1 (Some 330) 0
      = Built b calls /\
    allocated calls = Some (2048, 3).
Proof.
  assert (H3 : 0 <= 5000 < 2 ^ 31) by lia.
  destruct (construct_legacy_texture_holds_elements false 5000 1 0 true 7
              {| getGLImageInternalFormat := 0x8814; getGLOriginFormat := 0x1908;
                 getGLOriginDataType := 0x1406; getNumElemBytes := 1 |} 1 330 0
              eq_refl eq_refl H3)
    as (b & calls & width & height & Hb & _ & _ & Ha & _).
  exists b, calls. split; [exact Hb |].
  injection Hb as <- <-. reflexivity.
Defined.

(** X5.  Constructor and [bindBuffer] together on the legacy path, for a
    buffer of one byte per element and fewer than 2^31 elements: whenever a
    bind of a range inside the buffer returns, the rectangle it uploads with
    [glTexSubImage2D] is no wider and no higher than the texture the
    constructor allocated with [glTexImage2D]. *)
Theorem legacy_upload_fits_allocation ndebug ndebug' numElements finalBufferStart iface vbo
    pf texName version uninit slot offset sizeBytes b calls bindCalls :
  version < 430 ->
  0 <= getNumElemBytes pf ->
  0 <= numElements < 2 ^ 31 ->
  0 <= offset <= numElements ->
  0 <= sizeBytes ->
  offset + sizeBytes <= numElements ->
  construct true ndebug numElements 1 finalBufferStart iface vbo pf texName
    (Some version) uninit = Built b calls ->
  bindBuffer ndebug' b slot offset sizeBytes = Issued bindCalls ->
  exists allocWidth allocHeight width height,
    allocated calls = Some (allocWidth, allocHeight) /\
    uploaded bindCalls = Some (width, height) /\
    0 <= width <= allocWidth /\ 0 <= height <= allocHeight.
Proof.
  intros Hv He0 Hn Ho Hs Hle Hctor Hbind. unfold construct in Hctor.
  destruct (Z.ltb_spec version 430); [| lia].
  destruct (Z.eqb_spec (getNumElemBytes pf) 0) as [| He]; [discriminate |].
  injection Hctor as <- <-.
  set (e := getNumElemBytes pf) in *.
  unfold bindBuffer, totalSizeBytes in Hbind. cbn in Hbind.
  rewrite Z.mul_1_r in Hbind.
  rewrite (wrap_size_small numElements) in Hbind by (unfold is_size, SIZE_MOD; lia).
  fold e in Hbind.
  destruct (Z.eqb_spec e 0); [lia |].
  rewrite (wrap_size_small (numElements - offset)) in Hbind
    by (unfold is_size, SIZE_MOD; lia).
  set (size := if sizeBytes =? 0 then numElements - offset else sizeBytes) in *.
  assert (Hsize : 0 <= size <= numElements)
    by (unfold size; destruct (Z.eqb_spec sizeBytes 0); lia).
  set (elems := numElements / e) in *.
  set (modified := size / e) in *.
  assert (Hm0 : 0 <= modified) by (apply Z.div_pos; lia).
  assert (Hm1 : modified <= elems) by (apply Z.div_le_mono; lia).
  assert (He1 : elems <= numElements) by (apply Z.div_le_upper_bound; nia).
  rewrite (wrap_size_small (modified + 2048 - 1)) in Hbind
    by (unfold is_size, SIZE_MOD; lia).
  repeat match type of Hbind with
         | (if ?c then AssertionFailed _ else _) = _ =>
             destruct c; [discriminate |]
         end.
  injection Hbind as <-.
  destruct (legacy_rows elems ltac:(lia)) as (Hw & Hh & _).
  destruct (legacy_rows modified Hm0) as (_ & Hh' & _).
  exists (Z.min 2048 elems), ((elems + 2048 - 1) / 2048),
         (Z.min modified (Z.min 2048 elems)), ((modified + 2048 - 1) / 2048).
  split.
  - cbn. rewrite (wrap_size_small (elems + 2048 - 1)) by (unfold is_size, SIZE_MOD; lia).
    rewrite !to_GLsizei_small by lia. reflexivity.
  - split; [reflexivity |]. split; [lia |].
    split; [lia |]. apply Z.div_le_mono; lia.
Qed.

Lemma legacy_upload_fits_allocation_witness :
  exists b calls bindCalls,
    construct true false 5000 1 0 true 7
      {| getGLImageInternalFormat := 0x8814; getGLOriginFormat := 0x1908;
         getGLOriginDataType := 0x1406; getNumElemBytes := 4 |} 1 (Some 330) 0
      = Built b calls /\
    bindBuffer false b 2 1000 0 = Issued bindCalls /\
    allocated calls = Some (1250, 1) /\
    uploaded bindCalls = Some (1000, 1).
Proof.
  set (pf := {| getGLImageInternalFormat := 0x8814; getGLOriginFormat := 0x1908;
                getGLOriginDataType := 0x1406; getNumElemBytes := 4 |}).
  assert (H1 : 0 <= getNumElemBytes pf) by (cbn; lia).
  assert (H2 : 0 <= 5000 < 2 ^ 31) by lia.
  assert (H3 : 0 <= 1000 <= 5000) by lia.
  assert (H4 : 1000 + 0 <= 5000) by lia.
  destruct (legacy_upload_fits_allocation false false 5000 0 true 7 pf 1 330 0 2 1000 0
              _ _ _ eq_refl H1 H2 H3 (Z.le_refl 0) H4 eq_refl eq_refl)
    as (allocWidth & allocHeight & width & height & Ha & Hu & _).
  do 3 eexists. split; [reflexivity |]. split; [reflexivity |].
  split; reflexivity.
Defined.

End TexBufferMore.

(** ** Facts about the rest of the importer *)
Module SceneFormatMore.
Import Machine MachineFacts Exec Json SceneFormat ExecFacts SceneFormatFacts SceneFormatItems.

(** *** Decoding *)

(** X6.  [decodeVector3Array], [decodeVector4Array] and
    [decodeQuaternionArray] on an array of any length: component i is the
    float whose bits element i holds when that element exists and is an
    unsigned 32-bit integer, and otherwise the default (0, and 1 for the first
    component of a quaternion); elements beyond the third (fourth) are
    ignored, and the call always returns. *)
Theorem decode_arrays_componentwise elements s :
  decodeVector3Array (JArray elements) s =
    Ret [ component float_zero (elements !! 0%nat);
          component float_zero (elements !! 1%nat);
          component float_zero (elements !! 2%nat) ] s /\
  decodeVector4Array (JArray elements) s =
    Ret [ component float_zero (elements !! 0%nat);
          component float_zero (elements !! 1%nat);
          component float_zero (elements !! 2%nat);
          component float_zero (elements !! 3%nat) ] s /\
  decodeQuaternionArray (JArray elements) s =
    Ret [ component float_one (elements !! 0%nat);
          component float_zero (elements !! 1%nat);
          component float_zero (elements !! 2%nat);
          component float_zero (elements !! 3%nat) ] s.
Proof.
  destruct elements as [| a [| b [| c [| d rest]]]]; repeat split; reflexivity.
Qed.

Lemma decodeAabbArray_other_length elements defaultValue s :
  length elements <> 2%nat ->
  decodeAabbArray (JArray elements) defaultValue s = Ret defaultValue s.
Proof.
  intros Hlen. unfold decodeAabbArray. rewrite bind_unfold. cbn [Size mret M_ret].
  destruct (Z.eqb_spec (Z.of_nat (length elements)) 2); [lia | reflexivity].
Qed.

(** X7.  [decodeAabbArray] on an array: with a length other than 2 it returns
    the default box; with two arrays it returns the box of their first three
    components; with two elements of which one is not an array it fails an
    assertion of rapidjson; it never throws. *)
Theorem decodeAabbArray_two_vectors_or_default elements defaultValue s :
  (length elements <> 2%nat ->
   decodeAabbArray (JArray elements) defaultValue s = Ret defaultValue s) /\
  (forall center halfSize,
     elements = [JArray center; JArray halfSize] ->
     decodeAabbArray (JArray elements) defaultValue s =
     Ret {| mCenter := decodeInto [float_zero; float_zero; float_zero] center;
            mHalfSize := decodeInto [float_zero; float_zero; float_zero] halfSize |} s) /\
  (forall a b,
     elements = [a; b] -> IsArray a && IsArray b = false ->
     decodeAabbArray (JArray elements) defaultValue s = AssertFailed) /\
  (forall e s', decodeAabbArray (JArray elements) defaultValue s <> Raise e s').
Proof.
  split; [| split; [| split]].
  - apply decodeAabbArray_other_length.
  - intros center halfSize ->. reflexivity.
  - intros a b -> Hab. destruct a, b; try discriminate; reflexivity.
  - intros e s'.
    destruct (decide (length elements = 2%nat)) as [Hlen | Hlen].
    + destruct elements as [| a [| b [| c rest]]]; try discriminate.
      destruct a, b; discriminate.
    + rewrite decodeAabbArray_other_length by exact Hlen. discriminate.
Qed.

Lemma decodeAabbArray_two_vectors_or_default_witness :
  decodeAabbArray (JArray [JInt 1; JInt 2; JInt 3])
    {| mCenter := [1; 2; 3]; mHalfSize := [4; 5; 6] |} initialImporter =
  Ret {| mCenter := [1; 2; 3]; mHalfSize := [4; 5; 6] |} initialImporter.
Proof.
  refine (proj1 (decodeAabbArray_two_vectors_or_default _ _ _) _). discriminate.
Defined.

(** *** [importNode] *)

Lemma updateNode_store p f s n :
  nodes (mSceneManager s) !! p = Some n ->
  updateNode p f s = Ret tt (storeNode p (f n) s).
Proof. intros Hn. unfold updateNode. rewrite Hn. reflexivity. Qed.

Lemma storeNode_lookup p n s :
  (p < length (nodes (mSceneManager s)))%nat ->
  nodes (mSceneManager (storeNode p n s)) !! p = Some n.
Proof. intros Hp. cbn. apply list_lookup_insert_eq. exact Hp. Qed.

Lemma storeNode_storeNode p a b s : storeNode p a (storeNode p b s) = storeNode p a s.
Proof. unfold storeNode. cbn. rewrite list_insert_insert_eq. reflexivity. Qed.

Lemma storeNode_same p n s : nodes (mSceneManager s) !! p = Some n -> storeNode p n s = s.
Proof.
  intros Hn. destruct s as [[ns] created filename]. unfold storeNode. cbn in *.
  rewrite list_insert_id by exact Hn. reflexivity.
Qed.

(** One step of [importNode] on the node [n] that [s0] has at [p]. *)
Lemma whenMember_store members name isT (g : Value -> SceneNode -> SceneNode)
    (body : Value -> M SceneFormatImporter unit) p n s0 :
  (p < length (nodes (mSceneManager s0)))%nat ->
  (forall x s m, isT x = true -> nodes (mSceneManager s) !! p = Some m ->
                 body x s = Ret tt (storeNode p (g x m) s)) ->
  whenMember (JObject members) name isT body (storeNode p n s0) =
  Ret tt (storeNode p (match memberOf members name isT with
                       | Some x => g x n
                       | None => n
                       end) s0).
Proof.
  intros Hp Hbody. unfold whenMember, memberOf.
  rewrite bind_unfold, memberIf_object.
  destruct (findMember members name) as [x |]; [destruct (isT x) eqn:Hx |];
    try reflexivity.
  rewrite (Hbody x _ n Hx (storeNode_lookup _ _ _ Hp)).
  rewrite storeNode_storeNode. reflexivity.
Qed.

(** X8.  [importNode] on an object and an existing node always returns and
    changes that node only: position, rotation and scale are replaced exactly
    when the member of that name is an array, the two inherit flags exactly
    when it is a boolean, every other member of the node (its parent and type
    among them) and every other node stay as they were. *)
Theorem importNode_applies_present_members members node s n :
  nodes (mSceneManager s) !! node = Some n ->
  exists n',
    importNode (JObject members) node s = Ret tt (storeNode node n' s) /\
    parent n' = parent n /\
    sceneType n' = sceneType n /\
    position n' =
      match findMember members "position" with
      | Some (JArray elements) => decodeInto [float_zero; float_zero; float_zero] elements
      | _ => position n
      end /\
    orientation n' =
      match findMember members "rotation" with
      | Some (JArray elements) =>
          decodeInto [float_one; float_zero; float_zero; float_zero] elements
      | _ => orientation n
      end /\
    scale n' =
      match findMember members "scale" with
      | Some (JArray elements) => decodeInto [float_zero; float_zero; float_zero] elements
      | _ => scale n
      end /\
    inheritOrientation n' =
      match findMember members "inherit_orientation" with
      | Some (JBool b) => b
      | _ => inheritOrientation n
      end /\
    inheritScale n' =
      match findMember members "inherit_scale" with
      | Some (JBool b) => b
      | _ => inheritScale n
      end.
Proof.
  intros Hn.
  assert (Hp : (node < length (nodes (mSceneManager s)))%nat)
    by (eapply lookup_lt_Some; exact Hn).
  eexists. split.
  {
  replace (importNode (JObject members) node s)
    with (importNode (JObject members) node (storeNode node n s))
    by (rewrite storeNode_same; [reflexivity | exact Hn]).
  unfold importNode.
  rewrite bind_unfold.
  rewrite (whenMember_store members "position" IsArray
             (fun x m => setPosition (match x with
                                      | JArray elements =>
                                          decodeInto [float_zero; float_zero; float_zero] elements
                                      | _ => [] end) m)) by
    (try exact Hp; intros x s1 m Hx Hm; destruct x; try discriminate;
     rewrite bind_unfold; cbn [decodeVector3Array mret M_ret];
     apply updateNode_store, Hm).
  rewrite bind_unfold.
  rewrite (whenMember_store members "rotation" IsArray
             (fun x m => setOrientation
                           (match x with
                            | JArray elements =>
                                decodeInto [float_one; float_zero; float_zero; float_zero]
                                  elements
                            | _ => [] end) m)) by
    (try exact Hp; intros x s1 m Hx Hm; destruct x; try discriminate;
     rewrite bind_unfold; cbn [decodeQuaternionArray mret M_ret];
     apply updateNode_store, Hm).
  rewrite bind_unfold.
  rewrite (whenMember_store members "scale" IsArray
             (fun x m => setScale (match x with
                                   | JArray elements =>
                                       decodeInto [float_zero; float_zero; float_zero] elements
                                   | _ => [] end) m)) by
    (try exact Hp; intros x s1 m Hx Hm; destruct x; try discriminate;
     rewrite bind_unfold; cbn [decodeVector3Array mret M_ret];
     apply updateNode_store, Hm).
  rewrite bind_unfold.
  rewrite (whenMember_store members "inherit_orientation" IsBool
             (fun x m => setInheritOrientation (GetBool x) m)) by
    (try exact Hp; intros x s1 m Hx Hm; apply updateNode_store, Hm).
  rewrite (whenMember_store members "inherit_scale" IsBool
             (fun x m => setInheritScale (GetBool x) m)) by
    (try exact Hp; intros x s1 m Hx Hm; apply updateNode_store, Hm).
  reflexivity. }
  repeat split;
    repeat match goal with
           | |- context [match memberOf ?m ?name ?isT with _ => _ end] =>
               let E := fresh "E" in destruct (memberOf m name isT) eqn:E; cbn
           end;
    unfold memberOf in *;
    try reflexivity;
    match goal with
    | |- context [findMember ?m ?name] =>
        destruct (findMember m name) as [[] |];
          cbn [IsArray IsBool GetBool] in *; simplify_eq; reflexivity
    end.
Qed.

Lemma importNode_applies_present_members_witness :
  exists n',
    importNode (JObject [("position", JArray [JInt 1; JReal]); ("inherit_scale", JBool false)])
      0%nat initialImporter = Ret tt (storeNode 0%nat n' initialImporter) /\
    position n' = [1; float_zero; float_zero] /\
    inheritScale n' = false /\
    scale n' = [float_one; float_one; float_one].
Proof.
  destruct (importNode_applies_present_members
              [("position", JArray [JInt 1; JReal]); ("inherit_scale", JBool false)]
              0%nat initialImporter _ eq_refl)
    as (n' & Hrun & _ & _ & Hpos & _ & Hscale & _ & Hinherit).
  exists n'. split; [exact Hrun |]. split; [exact Hpos |]. split; [exact Hinherit | exact Hscale].
Defined.

(** *** [importSceneNode]: parents that cannot be resolved *)

Lemma parentIdxOf_uint nodeMembers nodeIdx :
  parentIdxOf nodeMembers nodeIdx <> nodeIdx ->
  0 <= parentIdxOf nodeMembers nodeIdx < UINT32_MOD.
Proof.
  unfold parentIdxOf.
  destruct (findMember nodeMembers "parent_id") as [v |]; [| congruence].
  destruct (IsUint v) eqn:Hv; [| congruence].
  intros _. destruct v; try discriminate. cbn in *. lia.
Qed.

(** X9.  [importSceneNode] on an entry whose "node" object names another index
    as parent, when no node was created for that index and the array has no
    object there (the index is past the end, or the element is not an object):
    it throws ERR_ITEM_NOT_FOUND with the message naming both indices, and the
    importer is unchanged. *)
Theorem importSceneNode_unresolvable_parent depth entryMembers nodeMembers nodeIdx
    elements s :
  findMember entryMembers "node" = Some (JObject nodeMembers) ->
  parentIdxOf nodeMembers nodeIdx <> nodeIdx ->
  mCreatedSceneNodes s !! parentIdxOf nodeMembers nodeIdx = None ->
  match elements !! Z.to_nat (parentIdxOf nodeMembers nodeIdx) with
  | Some parentValue => IsObject parentValue = false
  | None => True
  end ->
  importSceneNode (S depth) (JObject entryMembers) nodeIdx (JArray elements) s =
  Raise {| number := ERR_ITEM_NOT_FOUND;
           description :=
             "Node " +:+ pretty nodeIdx +:+ " is child of " +:+
             pretty (parentIdxOf nodeMembers nodeIdx) +:+
             " but we could not find it or create it. This file is malformed.";
           source := "SceneFormatImporter::importSceneNode" |} s.
Proof.
  intros Hnode Hparent Hcreated Hentry.
  pose proof (parentIdxOf_uint _ _ Hparent) as Hrange.
  rewrite (importSceneNode_S _ _ _ _ _ _ Hnode).
  set (parentIdx := parentIdxOf nodeMembers nodeIdx) in *.
  destruct (Z.eqb_spec parentIdx nodeIdx) as [| _]; [contradiction |].
  cbn [negb].
  rewrite bind_unfold. rewrite (bind_unfold get). cbn [get].
  rewrite Hcreated.
  rewrite !bind_unfold. cbn [Size mret M_ret].
  destruct (Z.ltb_spec parentIdx (Z.of_nat (length elements))) as [Hlt | Hge];
    [| reflexivity].
  rewrite bind_unfold. cbn [at_].
  destruct (elements !! Z.to_nat parentIdx) as [parentValue |] eqn:Hlookup.
  - destruct (Z.leb_spec 0 parentIdx); [| lia].
    rewrite bind_unfold. cbn [mret M_ret]. rewrite Hentry. reflexivity.
  - apply lookup_ge_None in Hlookup. lia.
Qed.

Lemma importSceneNode_unresolvable_parent_witness :
  importSceneNode 1 (JObject [("node", JObject [("parent_id", JInt 7)])]) 0
    (JArray [JObject [("node", JObject [("parent_id", JInt 7)])]]) initialImporter =
  Raise {| number := ERR_ITEM_NOT_FOUND;
           description :=
             "Node 0 is child of 7 but we could not find it or create it. This file is malformed.";
           source := "SceneFormatImporter::importSceneNode" |} initialImporter.
Proof.
  refine (importSceneNode_unresolvable_parent 0 [("node", JObject [("parent_id", JInt 7)])]
            [("parent_id", JInt 7)] 0 [JObject [("node", JObject [("parent_id", JInt 7)])]]
            initialImporter eq_refl _ eq_refl I).
  discriminate.
Defined.

(** *** [importSceneNode]: what an exception leaves behind *)

Lemma neverRaises_bind {S A B} (m : M S A) (f : A -> M S B) :
  neverRaises m -> (forall a, neverRaises (f a)) -> neverRaises (x ← m; f x).
Proof.
  intros Hm Hf s e s' H. apply bind_inv_Raise in H as [H | (a & s1 & _ & H)].
  - exact (Hm _ _ _ H).
  - exact (Hf _ _ _ _ H).
Qed.

Lemma neverRaises_ret {S A} (a : A) : neverRaises (mret a : M S A).
Proof. intros s e s'. discriminate. Qed.

Lemma neverRaises_modify {S} (f : S -> S) : neverRaises (modify f).
Proof. intros s e s'. discriminate. Qed.

Lemma neverRaises_memberIf {S} v name isT : neverRaises (@memberIf S v name isT).
Proof. intros s e s'. destruct v; discriminate. Qed.

Lemma neverRaises_whenMember {S} v name isT (body : Value -> M S unit) :
  (forall x, neverRaises (body x)) -> neverRaises (whenMember v name isT body).
Proof.
  intros Hbody. unfold whenMember. apply neverRaises_bind; [apply neverRaises_memberIf |].
  intros [x |]; [apply Hbody | apply neverRaises_ret].
Qed.

Lemma neverRaises_updateNode p f : neverRaises (updateNode p f).
Proof.
  intros s e s'. unfold updateNode. destruct (nodes (mSceneManager s) !! p); discriminate.
Qed.

Lemma neverRaises_importNode v p : neverRaises (importNode v p).
Proof.
  assert (Hdecode : forall (decode : Value -> M SceneFormatImporter (list float)) set x,
            (forall y s e s', decode y s <> Raise e s') ->
            neverRaises (v ← decode x; updateNode p (set v))).
  { intros decode set x Hd. apply neverRaises_bind; [exact (Hd x) |].
    intros ?. apply neverRaises_updateNode. }
  assert (H3 : forall y s e s', decodeVector3Array y s <> Raise e s')
    by (intros y s e s'; destruct y; discriminate).
  assert (H4 : forall y s e s', decodeQuaternionArray y s <> Raise e s')
    by (intros y s e s'; destruct y; discriminate).
  unfold importNode.
  apply neverRaises_bind;
    [apply neverRaises_whenMember; intros x; apply (Hdecode _ setPosition), H3 | intros _].
  apply neverRaises_bind;
    [apply neverRaises_whenMember; intros x; apply (Hdecode _ setOrientation), H4 | intros _].
  apply neverRaises_bind;
    [apply neverRaises_whenMember; intros x; apply (Hdecode _ setScale), H3 | intros _].
  apply neverRaises_bind;
    [apply neverRaises_whenMember; intros x; apply neverRaises_updateNode | intros _].
  apply neverRaises_whenMember; intros x; apply neverRaises_updateNode.
Qed.

Lemma neverRaises_finish nodeValue nodeIdx sceneNode :
  neverRaises (_ ← importNode nodeValue sceneNode;
               _ ← recordCreated nodeIdx sceneNode;
               mret sceneNode).
Proof.
  apply neverRaises_bind; [apply neverRaises_importNode | intros ?].
  apply neverRaises_bind; [apply neverRaises_modify | intros ?].
  apply neverRaises_ret.
Qed.

(** X10.  Whenever [importSceneNode] is left by an exception, at any depth of
    recursion, the exception is ERR_ITEM_NOT_FOUND and the importer is as it
    was before the call: no node was created and none recorded. *)
Theorem importSceneNode_raise_leaves_members depth :
  forall entry nodeIdx json s e s',
    importSceneNode depth entry nodeIdx json s = Raise e s' ->
    s' = s /\ number e = ERR_ITEM_NOT_FOUND.
Proof.
  induction depth as [| depth IH]; intros entry nodeIdx json s e s' H;
    [discriminate |].
  destruct entry as [| | | | | | entryMembers]; try discriminate.
  destruct (findMember entryMembers "node") as [nodeValue |] eqn:Hnode.
  2: { cbn [importSceneNode] in H. rewrite bind_unfold, memberIf_object, Hnode in H.
       injection H as <- <-. split; reflexivity. }
  destruct (IsObject nodeValue) eqn:Hobj.
  2: { cbn [importSceneNode] in H. rewrite bind_unfold, memberIf_object, Hnode, Hobj in H.
       injection H as <- <-. split; reflexivity. }
  destruct nodeValue as [| | | | | | nodeMembers]; try discriminate.
  rewrite (importSceneNode_S _ _ _ _ _ _ Hnode) in H.
  apply bind_inv_Raise in H as [H | (a & s1 & _ & H)];
    [| destruct (neverRaises_finish _ _ _ _ _ _ H)].
  destruct (negb (parentIdxOf nodeMembers nodeIdx =? nodeIdx)).
  2: { destruct (isRootNodeOf entryMembers); discriminate. }
  rewrite bind_unfold in H. cbn [get] in H.
  apply bind_inv_Raise in H as [H | (a & s1 & _ & H)]; [| discriminate].
  destruct (mCreatedSceneNodes s !! parentIdxOf nodeMembers nodeIdx); [discriminate |].
  destruct json as [| | | | | elements |]; try discriminate.
  rewrite bind_unfold in H. cbn [Size mret M_ret] in H.
  apply bind_inv_Raise in H as [H | (parentNode & s1 & Hparent & H)].
  - destruct (parentIdxOf nodeMembers nodeIdx <? Z.of_nat (length elements));
      [| discriminate].
    apply bind_inv_Raise in H as [H | (parentValue & s1 & Hat & H)].
    + cbn [at_] in H.
      destruct (elements !! Z.to_nat (parentIdxOf nodeMembers nodeIdx)); [| discriminate].
      destruct (0 <=? parentIdxOf nodeMembers nodeIdx); discriminate.
    + assert (s1 = s) as ->.
      { cbn [at_] in Hat.
        destruct (elements !! Z.to_nat (parentIdxOf nodeMembers nodeIdx)); [| discriminate].
        destruct (0 <=? parentIdxOf nodeMembers nodeIdx); [| discriminate].
        injection Hat as _ <-. reflexivity. }
      destruct (IsObject parentValue); [| discriminate].
      apply bind_inv_Raise in H as [H | (p & s2 & _ & H)]; [| discriminate].
      exact (IH _ _ _ _ _ _ H).
  - destruct parentNode as [p |]; [discriminate |].
    injection H as <- <-. split; [| reflexivity].
    destruct (parentIdxOf nodeMembers nodeIdx <? Z.of_nat (length elements));
      [| injection Hparent as <-; reflexivity].
    apply bind_inv_Ret in Hparent as (parentValue & s2 & Hat & Hparent).
    assert (s2 = s) as ->.
    { cbn [at_] in Hat.
      destruct (elements !! Z.to_nat (parentIdxOf nodeMembers nodeIdx)); [| discriminate].
      destruct (0 <=? parentIdxOf nodeMembers nodeIdx); [| discriminate].
      injection Hat as _ <-. reflexivity. }
    destruct (IsObject parentValue); [| injection Hparent as <-; reflexivity].
    apply bind_inv_Ret in Hparent as (p & s3 & _ & Hparent). discriminate.
Qed.

Lemma importSceneNode_raise_leaves_members_witness :
  exists e,
    importSceneNode 2 entry_child_of_1 0
      (JArray [entry_child_of_1; JObject [("node", JObject [("parent_id", JInt 9)])]])
      initialImporter = Raise e initialImporter /\
    number e = ERR_ITEM_NOT_FOUND.
Proof.
  destruct (importSceneNode 2 entry_child_of_1 0
              (JArray [entry_child_of_1; JObject [("node", JObject [("parent_id", JInt 9)])]])
              initialImporter) as [a s' | e s' | | |] eqn:Hrun; try discriminate Hrun.
  destruct (importSceneNode_raise_leaves_members _ _ _ _ _ _ _ Hrun) as [-> Hnumber].
  exists e. split; [reflexivity | exact Hnumber].
Defined.

(** *** [importSceneNode]: parent chains *)

(** The members after a node has been added to the scene manager. *)
Lemma wellFormed_grown s ns :
  wellFormed s ->
  wellFormed {| mSceneManager := {| nodes := nodes (mSceneManager s) ++ ns |};
                mCreatedSceneNodes := mCreatedSceneNodes s; mFilename := mFilename s |}.
Proof.
  intros [H2 Hc]. split; cbn; rewrite length_app; [lia |].
  intros i p Hp. specialize (Hc i p Hp). lia.
Qed.

Lemma hierarchy_grown s n :
  hierarchy {| mSceneManager := {| nodes := nodes (mSceneManager s) ++ [n] |};
               mCreatedSceneNodes := mCreatedSceneNodes s; mFilename := mFilename s |} =
  hierarchy s ++ [shape n].
Proof. unfold hierarchy. cbn. rewrite fmap_app. reflexivity. Qed.

(** The tail of [importSceneNode], with what the properties below need. *)
Lemma importSceneNode_finish_wellFormed nodeMembers nodeIdx sceneNode s :
  wellFormed s ->
  (sceneNode < length (nodes (mSceneManager s)))%nat ->
  exists s',
    (_ ← importNode (JObject nodeMembers) sceneNode;
     _ ← recordCreated nodeIdx sceneNode;
     mret sceneNode) s = Ret sceneNode s' /\
    wellFormed s' /\
    mCreatedSceneNodes s' = <[nodeIdx := sceneNode]> (mCreatedSceneNodes s) /\
    hierarchy s' = hierarchy s.
Proof.
  intros [H2 Hc] Hp.
  destruct (importSceneNode_finish nodeMembers nodeIdx sceneNode s Hp)
    as (s' & Hrun & Hcreated & Hh).
  exists s'. split; [exact Hrun |]. split; [| split; assumption].
  assert (Hlen : length (nodes (mSceneManager s')) = length (nodes (mSceneManager s)))
    by (rewrite <- !hierarchy_length; congruence).
  split; [lia |]. intros i p. rewrite Hcreated, Hlen.
  destruct (decide (i = nodeIdx)) as [-> | Hne].
  - rewrite lookup_insert_eq. intros [= <-]. exact Hp.
  - rewrite lookup_insert_ne by congruence. apply Hc.
Qed.

Lemma resolvesWithin_entry k elements created i :
  resolvesWithin k elements created i ->
  exists entryMembers, 0 <= i /\ elements !! Z.to_nat i = Some (JObject entryMembers).
Proof. destruct k; intros (em & nm & H0 & H1 & _); eauto. Qed.

(** X11.  [importSceneNode] on an entry whose chain of parents reaches, within
    k steps, an entry that is its own parent or a node created already: it
    returns a node, records it under the entry's index, keeps every other
    recorded node and the parent and type of every existing node, creates at
    most k + 1 nodes, and when the entry names another index as parent that
    parent is recorded and the new node is its child, of the type of the
    entry's is_static. *)
Theorem importSceneNode_resolves_parent_chain elements k :
  forall i entry s depth,
    resolvesWithin k elements (mCreatedSceneNodes s) i ->
    elements !! Z.to_nat i = Some entry ->
    wellFormed s ->
    (k < depth)%nat ->
    exists sceneNode s',
      importSceneNode depth entry i (JArray elements) s = Ret sceneNode s' /\
      wellFormed s' /\
      mCreatedSceneNodes s' !! i = Some sceneNode /\
      (forall j q, j <> i -> mCreatedSceneNodes s !! j = Some q ->
                   mCreatedSceneNodes s' !! j = Some q) /\
      hierarchy s `prefix_of` hierarchy s' /\
      (length (hierarchy s') <= length (hierarchy s) + S k)%nat /\
      forall entryMembers nodeMembers,
        entry = JObject entryMembers ->
        findMember entryMembers "node" = Some (JObject nodeMembers) ->
        parentIdxOf nodeMembers i <> i ->
        exists parentNode,
          mCreatedSceneNodes s' !! parentIdxOf nodeMembers i = Some parentNode /\
          hierarchy s' !! sceneNode = Some (Some parentNode, sceneNodeTypeOf nodeMembers).
Proof.
  induction k as [| k IH]; intros i entry s depth Hres Hentry Hwf Hdepth;
    (destruct depth as [| depth]; [lia |]);
    destruct Hres as (entryMembers & nodeMembers & Hi & Hlookup & Hnode & Hparent);
    rewrite Hentry in Hlookup; injection Hlookup as ->;
    rewrite (importSceneNode_S _ _ _ _ _ _ Hnode);
    set (parentIdx := parentIdxOf nodeMembers i) in *;
    set (type := sceneNodeTypeOf nodeMembers);
    cbv zeta in Hparent.
  all: destruct (Z.eqb_spec parentIdx i) as [Hself | Hother]; cbn [negb].
  (* Entries that are their own parent. *)
  1, 3: destruct (isRootNodeOf entryMembers);
    [ rewrite bind_unfold; cbn [mret M_ret];
      destruct (importSceneNode_finish_wellFormed nodeMembers i (getRootSceneNode type) s Hwf)
        as (s' & Hrun & Hwf' & Hcreated & Hh);
        [pose proof (getRootSceneNode_lt type); destruct Hwf; lia |]
    | rewrite bind_unfold; cbn [createSceneNode];
      destruct (importSceneNode_finish_wellFormed nodeMembers i
                  (length (nodes (mSceneManager s)))
                  _ (wellFormed_grown s [newNode None type] Hwf))
        as (s' & Hrun & Hwf' & Hcreated & Hh);
        [cbn; rewrite length_app; cbn; lia |] ];
    (eexists _, s'; split; [exact Hrun |]; split; [exact Hwf' |];
     rewrite Hcreated, Hh; split; [apply lookup_insert_eq |];
     split; [intros j q Hj Hq; rewrite lookup_insert_ne by congruence; exact Hq |];
     split; [first [reflexivity | unfold hierarchy; cbn; rewrite fmap_app; apply prefix_app_r; reflexivity] |];
     split; [first [lia | unfold hierarchy; cbn; rewrite fmap_app, length_app; cbn; lia] |];
     intros em nm [= <-] Hnm; rewrite Hnode in Hnm; injection Hnm as <-; contradiction).
  all: rewrite bind_unfold, (bind_unfold get); cbn [get].
  all: destruct (mCreatedSceneNodes s !! parentIdx) as [q |] eqn:Hcreated0.
  (* Entries whose parent is created already. *)
  1, 3: rewrite bind_unfold; cbn [mret M_ret createChildSceneNode];
    destruct (importSceneNode_finish_wellFormed nodeMembers i
                (length (nodes (mSceneManager s)))
                _ (wellFormed_grown s [newNode (Some q) type] Hwf))
      as (s' & Hrun & Hwf' & Hcreated & Hh);
      [cbn; rewrite length_app; cbn; lia |];
    eexists _, s'; (split; [exact Hrun |]); (split; [exact Hwf' |]);
    rewrite Hcreated, Hh; (split; [apply lookup_insert_eq |]);
    (split; [intros j q' Hj Hq; rewrite lookup_insert_ne by congruence; exact Hq |]);
    unfold hierarchy; cbn; rewrite fmap_app;
    (split; [apply prefix_app_r; reflexivity |]);
    (split; [rewrite length_app; cbn; lia |]);
    intros em nm [= <-] Hnm; rewrite Hnode in Hnm; injection Hnm as <-; intros _;
    exists q; (split; [rewrite lookup_insert_ne by (intros Heq; apply Hother; symmetry; exact Heq);
                       exact Hcreated0 |]);
    rewrite lookup_app_r by (rewrite length_fmap; lia);
    rewrite length_fmap, Nat.sub_diag; reflexivity.
  (* Entries whose parent is not created yet. *)
  - destruct Hparent as [? | [[? [=]] | []]]. contradiction.
  - destruct Hparent as [? | [[? [=]] | (_ & _ & Hres)]]; [contradiction |].
    destruct (resolvesWithin_entry _ _ _ _ Hres) as (parentMembers & Hp0 & Hplookup).
    assert (Hplt : parentIdx < Z.of_nat (length elements))
      by (apply lookup_lt_Some in Hplookup; lia).
    rewrite 2!bind_unfold. cbn [Size mret M_ret].
    destruct (Z.ltb_spec parentIdx (Z.of_nat (length elements))); [| lia].
    rewrite 2!bind_unfold. cbn [at_]. rewrite Hplookup.
    destruct (Z.leb_spec 0 parentIdx); [| lia].
    cbn [mret M_ret IsObject]. rewrite bind_unfold.
    destruct (IH parentIdx _ s depth Hres Hplookup Hwf ltac:(lia))
      as (q & s1 & Hrun1 & Hwf1 & Hq & Hkeep1 & Hprefix1 & Hlen1 & _).
    rewrite Hrun1. cbn [mret M_ret createChildSceneNode].
    destruct (importSceneNode_finish_wellFormed nodeMembers i
                (length (nodes (mSceneManager s1)))
                _ (wellFormed_grown s1 [newNode (Some q) type] Hwf1))
      as (s' & Hrun & Hwf' & Hcreated & Hh);
      [cbn; rewrite length_app; cbn; lia |].
    eexists _, s'. split; [exact Hrun |]. split; [exact Hwf' |].
    rewrite Hcreated, Hh. split; [apply lookup_insert_eq |].
    split; [intros j q' Hj Hq'; rewrite lookup_insert_ne by congruence;
            destruct (decide (j = parentIdx)) as [-> | Hjp]; [congruence |];
            exact (Hkeep1 j q' Hjp Hq') |].
    rewrite hierarchy_grown.
    split; [etransitivity; [exact Hprefix1 | apply prefix_app_r; reflexivity] |].
    split; [rewrite length_app; cbn; lia |].
    intros em nm [= <-] Hnm. rewrite Hnode in Hnm. injection Hnm as <-. intros _.
    exists q. split; [rewrite lookup_insert_ne by (intros Heq; apply Hother; symmetry; exact Heq);
                      exact Hq |].
    rewrite lookup_app_r by (rewrite hierarchy_length; lia).
    rewrite hierarchy_length, Nat.sub_diag. reflexivity.
Qed.

Lemma importSceneNode_resolves_parent_chain_witness :
  resolvesWithin 1 flaggedNodes (mCreatedSceneNodes initialImporter) 0 /\
  wellFormed initialImporter /\
  exists sceneNode s',
    importSceneNode 2 entry_child_of_1 0 (JArray flaggedNodes) initialImporter
      = Ret sceneNode s' /\
    mCreatedSceneNodes s' !! 0 = Some sceneNode /\
    exists parentNode,
      mCreatedSceneNodes s' !! 1 = Some parentNode /\
      hierarchy s' !! sceneNode = Some (Some parentNode, SCENE_DYNAMIC).
Proof.
  assert (H1 : resolvesWithin 1 flaggedNodes (mCreatedSceneNodes initialImporter) 0).
  { exists [("node", JObject [("parent_id", JInt 1)])], [("parent_id", JInt 1)].
    split; [vm_compute; discriminate |]. split; [reflexivity |]. split; [reflexivity |].
    right; right. split; [discriminate |]. split; [reflexivity |].
    exists [("node", JObject [("parent_id", JInt 1)]); ("is_root_node", JBool true)],
           [("parent_id", JInt 1)].
    split; [vm_compute; discriminate |]. split; [reflexivity |]. split; [reflexivity |].
    left. reflexivity. }
  assert (H2 : wellFormed initialImporter).
  { split; [cbn; lia |]. intros i p H. discriminate H. }
  split; [exact H1 |]. split; [exact H2 |].
  destruct (importSceneNode_resolves_parent_chain flaggedNodes 1 0 entry_child_of_1
              initialImporter 2 H1 eq_refl H2 (le_n 2))
    as (sceneNode & s' & Hrun & _ & Hcreated & _ & _ & _ & Hparent).
  exists sceneNode, s'. split; [exact Hrun |]. split; [exact Hcreated |].
  refine (Hparent _ [("parent_id", JInt 1)] eq_refl eq_refl _). discriminate.
Defined.

(** *** Items *)

Lemma withObjectCalls_length o added lines s :
  length (mItems (withObjectCalls o added lines s)) = length (mItems s).
Proof. cbn. apply length_alter. Qed.

Lemma withObjectCalls_nil o s : withObjectCalls o [] [] s = s.
Proof.
  destruct s as [i items log]. unfold withObjectCalls. cbn. rewrite app_nil_r. f_equal.
  apply list_eq. intros k. destruct (decide (k = o)) as [-> | Hne].
  - rewrite list_lookup_alter_eq. destruct (items !! o) as [[] |]; [| reflexivity].
    cbn. rewrite app_nil_r. reflexivity.
  - rewrite list_lookup_alter_ne by congruence. reflexivity.
Qed.

Lemma withObjectCalls_app o a1 l1 a2 l2 s :
  withObjectCalls o a2 l2 (withObjectCalls o a1 l1 s) =
  withObjectCalls o (a1 ++ a2) (l1 ++ l2) s.
Proof.
  unfold withObjectCalls. cbn. rewrite <- app_assoc. f_equal.
  rewrite list_alter_alter_eq. apply list_alter_ext; [| reflexivity].
  intros it _. cbn. rewrite <- app_assoc. reflexivity.
Qed.

Lemma callObject_calls o c s :
  (o < length (mItems s))%nat ->
  callObject o c s = Ret tt (withObjectCalls o [c] [] s).
Proof.
  intros Ho. destruct (lookup_lt_is_Some_2 _ _ Ho) as [it Hit].
  unfold callObject, derefItem. rewrite bind_unfold, Hit.
  unfold modify, withObjectCalls. rewrite app_nil_r. do 2 f_equal.
  apply list_eq. intros k. destruct (decide (k = o)) as [-> | Hne].
  - rewrite list_lookup_alter_eq, list_lookup_insert_eq, Hit by exact Ho. reflexivity.
  - rewrite list_lookup_alter_ne, list_lookup_insert_ne by congruence. reflexivity.
Qed.

Lemma withObjectCalls_log o lines s :
  {| importer := importer s; mItems := mItems s; logged := logged s ++ lines |} =
  withObjectCalls o [] lines s.
Proof.
  unfold withObjectCalls. f_equal. symmetry. apply list_alter_id.
  intros []. cbn. rewrite app_nil_r. reflexivity.
Qed.

(** One step of [importMovableObject], after [a0] and [l0]. *)
Lemma whenMember_object_calls members name isT (body : Value -> M Import unit) o
    (calls : Value -> list MovableObjectCall) (lines : Value -> list string) a0 l0 s :
  (forall x, findMember members name = Some x -> isT x = true ->
     body x (withObjectCalls o a0 l0 s) =
     Ret tt (withObjectCalls o (calls x) (lines x) (withObjectCalls o a0 l0 s))) ->
  whenMember (JObject members) name isT body (withObjectCalls o a0 l0 s) =
  Ret tt (withObjectCalls o
            (a0 ++ match memberOf members name isT with Some x => calls x | None => [] end)
            (l0 ++ match memberOf members name isT with Some x => lines x | None => [] end)
            s).
Proof.
  intros Hbody. unfold whenMember, memberOf. rewrite bind_unfold, memberIf_object.
  destruct (findMember members name) as [x |]; [destruct (isT x) eqn:Hx |];
    rewrite ?app_nil_r; try reflexivity.
  rewrite (Hbody x eq_refl Hx), withObjectCalls_app. reflexivity.
Qed.

Lemma decodeAabbArray_decodes v defaultValue i :
  IsArray v = true -> aabbDecodes v ->
  exists aabb, decodeAabbArray v defaultValue i = Ret aabb i.
Proof.
  intros Hv Hd. destruct v as [| | | | | elements |]; try discriminate.
  destruct (decide (length elements = 2%nat)) as [Hlen | Hlen].
  - destruct elements as [| a [| b [| c rest]]]; try discriminate.
    destruct Hd as [Ha Hb]. destruct a, b; try discriminate. eexists. reflexivity.
  - eexists. apply decodeAabbArray_other_length, Hlen.
Qed.

Lemma attachments_app a b : attachments (a ++ b) = attachments a ++ attachments b.
Proof. apply omap_app. Qed.

Lemma attachments_optional {A} (o : option A) (c : A -> MovableObjectCall) :
  (forall x, match c x with attachObject _ => False | _ => True end) ->
  attachments (match o with Some x => [c x] | None => [] end) = [].
Proof.
  intros Hc. destruct o as [x |]; [| reflexivity].
  specialize (Hc x). cbn. destruct (c x); [reflexivity | contradiction | ..]; reflexivity.
Qed.

Lemma derefItem_withObjectCalls o a l s it :
  mItems s !! o = Some it ->
  exists it', derefItem o (withObjectCalls o a l s) = Ret it' (withObjectCalls o a l s) /\
              getLocalAabb it' = getLocalAabb it.
Proof.
  intros Hit. unfold derefItem. cbn [mItems withObjectCalls].
  rewrite list_lookup_alter_eq, Hit. eexists. split; reflexivity.
Qed.

Lemma onImporter_unchanged {A} (m : M SceneFormatImporter A) x s :
  m (importer s) = Ret x (importer s) -> onImporter m s = Ret x s.
Proof. intros H. unfold onImporter. rewrite H. destruct s. reflexivity. Qed.

Lemma importMovableObject_calls members movableObject s :
  (movableObject < length (mItems s))%nat ->
  (forall v, findMember members "local_aabb" = Some v -> aabbDecodes v) ->
  exists added lines,
    importMovableObject (JObject members) movableObject s =
      Ret tt (withObjectCalls movableObject added lines s) /\
    match memberOf members "parent_node_id" IsUint with
    | Some v =>
        match mCreatedSceneNodes (importer s) !! GetUint v with
        | Some node => attachments added = [node] /\ lines = []
        | None =>
            attachments added = [] /\
            lines = [ "WARNING: MovableObject references SceneNode " +:+
                      pretty (GetUint v) +:+
                      " which does not exist or couldn't be created" ]
        end
    | None => attachments added = [] /\ lines = []
    end.
Proof.
  intros Ho Haabb.
  destruct (lookup_lt_is_Some_2 _ _ Ho) as [it Hit].
  assert (Hlen : forall a l, (movableObject < length (mItems (withObjectCalls movableObject a l s)))%nat)
    by (intros; rewrite withObjectCalls_length; exact Ho).
  assert (Hcall : forall c a l,
            callObject movableObject c (withObjectCalls movableObject a l s) =
            Ret tt (withObjectCalls movableObject [c] []
                      (withObjectCalls movableObject a l s)))
    by (intros; apply callObject_calls, Hlen).
  eexists _, _. split.
  { replace (importMovableObject (JObject members) movableObject s)
      with (importMovableObject (JObject members) movableObject
              (withObjectCalls movableObject [] [] s))
      by (rewrite withObjectCalls_nil; reflexivity).
    unfold importMovableObject.
    rewrite bind_unfold,
      (whenMember_object_calls members "name" IsString _ movableObject
         (fun v => [setName (fromCString (GetString v))]) (fun _ => []))
      by (intros; apply Hcall).
    rewrite bind_unfold,
      (whenMember_object_calls members "parent_node_id" IsUint _ movableObject
         (fun v => match mCreatedSceneNodes (importer s) !! GetUint v with
                   | Some node => [attachObject node]
                   | None => []
                   end)
         (fun v => match mCreatedSceneNodes (importer s) !! GetUint v with
                   | Some node => []
                   | None => [ "WARNING: MovableObject references SceneNode " +:+
                               pretty (GetUint v) +:+
                               " which does not exist or couldn't be created" ]
                   end)).
    2: { intros x _ Hx. rewrite bind_unfold. cbn [get importer withObjectCalls].
         destruct (mCreatedSceneNodes (importer s) !! GetUint x); [apply Hcall |].
         unfold logMessage, modify. rewrite (withObjectCalls_log movableObject). reflexivity. }
    rewrite bind_unfold,
      (whenMember_object_calls members "render_queue" IsUint _ movableObject
         (fun v => [setRenderQueueGroup (GetUint v)]) (fun _ => []))
      by (intros; apply Hcall).
    rewrite bind_unfold,
      (whenMember_object_calls members "local_aabb" IsArray _ movableObject
         (fun v => match decodeAabbArray v (getLocalAabb it) (importer s) with
                   | Ret aabb _ => [setLocalAabb aabb]
                   | _ => []
                   end) (fun _ => [])).
    2: { intros x Hfound Hx.
         destruct (decodeAabbArray_decodes x (getLocalAabb it) (importer s) Hx
                     (Haabb x Hfound)) as [aabb Haabb'].
         cbv beta. rewrite Haabb'.
         match goal with
         | |- _ (withObjectCalls _ ?a ?l _) = _ =>
             destruct (derefItem_withObjectCalls movableObject a l s it Hit)
               as (it' & Hderef & Hbox)
         end.
         rewrite bind_unfold, Hderef, Hbox, bind_unfold.
         rewrite (onImporter_unchanged _ aabb) by exact Haabb'.
         apply (Hcall (setLocalAabb aabb)). }
    rewrite bind_unfold,
      (whenMember_object_calls members "local_radius" IsUint _ movableObject
         (fun v => [set_mLocalRadius (decodeFloat v)]) (fun _ => []))
      by (intros; apply Hcall).
    rewrite bind_unfold,
      (whenMember_object_calls members "rendering_distance" IsUint _ movableObject
         (fun v => [setRenderingDistance (decodeFloat v)]) (fun _ => []))
      by (intros; apply Hcall).
    rewrite bind_unfold,
      (whenMember_object_calls members "visibility_flags" IsUint _ movableObject
         (fun v => [set_mVisibilityFlags (GetUint v)]) (fun _ => []))
      by (intros; apply Hcall).
    rewrite bind_unfold,
      (whenMember_object_calls members "query_flags" IsUint _ movableObject
         (fun v => [set_mQueryFlags (GetUint v)]) (fun _ => []))
      by (intros; apply Hcall).
    rewrite (whenMember_object_calls members "light_mask" IsUint _ movableObject
               (fun v => [set_mLightMask (GetUint v)]) (fun _ => []))
      by (intros; apply Hcall).
    reflexivity. }
  rewrite !attachments_app.
  rewrite !(attachments_optional _ _) by (intros; exact I).
  assert (Haabb0 :
            attachments
              match memberOf members "local_aabb" IsArray with
              | Some x => match decodeAabbArray x (getLocalAabb it) (importer s) with
                          | Ret aabb _ => [setLocalAabb aabb]
                          | _ => []
                          end
              | None => []
              end = []).
  { destruct (memberOf members "local_aabb" IsArray) as [x |]; [| reflexivity].
    destruct (decodeAabbArray x (getLocalAabb it) (importer s)); reflexivity. }
  rewrite Haabb0.
  assert (Hnone : forall o : option Value, match o with Some _ | _ => @nil string end = [])
    by (intros []; reflexivity).
  rewrite !Hnone.
  destruct (memberOf members "parent_node_id" IsUint) as [v |]; [| split; reflexivity].
  destruct (mCreatedSceneNodes (importer s) !! GetUint v); split; reflexivity.
Qed.

(** X12.  [importMovableObject] on an object whose local_aabb, if any,
    decodes: it returns, touches only the calls made on that movable object
    and the log, and attaches the object to exactly one node when
    parent_node_id is an unsigned integer that a created node is recorded
    under; when no node is recorded under it, it attaches nothing and logs one
    warning naming the id; without such a member it does neither. *)
Theorem importMovableObject_attaches_or_warns members movableObject s :
  (movableObject < length (mItems s))%nat ->
  (forall v, findMember members "local_aabb" = Some v -> aabbDecodes v) ->
  exists added lines,
    importMovableObject (JObject members) movableObject s =
      Ret tt (withObjectCalls movableObject added lines s) /\
    match memberOf members "parent_node_id" IsUint with
    | Some v =>
        match mCreatedSceneNodes (importer s) !! GetUint v with
        | Some node => attachments added = [node] /\ lines = []
        | None =>
            attachments added = [] /\
            lines = [ "WARNING: MovableObject references SceneNode " +:+
                      pretty (GetUint v) +:+
                      " which does not exist or couldn't be created" ]
        end
    | None => attachments added = [] /\ lines = []
    end.
Proof. apply importMovableObject_calls. Qed.


Lemma importMovableObject_attaches_or_warns_witness :
  exists added,
    importMovableObject (JObject [("name", JString "crate"); ("parent_node_id", JInt 3)]) 0%nat
      {| importer := initialImporter;
         mItems := [{| meshName := "crate.mesh"; resourceGroup := "General";
                       itemType := SCENE_DYNAMIC;
                       getLocalAabb := {| mCenter := [0; 0; 0]; mHalfSize := [0; 0; 0] |};
                       objectCalls := []; subItems := [] |}];
         logged := [] |} =
    Ret tt
      (withObjectCalls 0%nat added
         [ "WARNING: MovableObject references SceneNode 3 which does not exist or couldn't be created" ]
         {| importer := initialImporter;
            mItems := [{| meshName := "crate.mesh"; resourceGroup := "General";
                          itemType := SCENE_DYNAMIC;
                          getLocalAabb := {| mCenter := [0; 0; 0]; mHalfSize := [0; 0; 0] |};
                          objectCalls := []; subItems := [] |}];
            logged := [] |}) /\
    attachments added = [].
Proof.
  destruct (importMovableObject_attaches_or_warns
              [("name", JString "crate"); ("parent_node_id", JInt 3)] 0%nat
              {| importer := initialImporter;
                 mItems := [{| meshName := "crate.mesh"; resourceGroup := "General";
                               itemType := SCENE_DYNAMIC;
                               getLocalAabb := {| mCenter := [0; 0; 0]; mHalfSize := [0; 0; 0] |};
                               objectCalls := []; subItems := [] |}];
                 logged := [] |}
              (le_n 1) ltac:(intros v [=]))
    as (added & lines & Hrun & Hattach & Hlines).
  exists added. rewrite Hrun, Hlines. split; [reflexivity | exact Hattach].
Defined.

(** *** Renderables *)

Lemma withRenderableCalls_nil r s : withRenderableCalls r [] s = s.
Proof.
  destruct s as [i items log]. unfold withRenderableCalls. cbn. f_equal.
  apply list_alter_id. intros [m g t b c subs]. cbn. f_equal.
  apply list_alter_id. intros calls. apply app_nil_r.
Qed.

Lemma withRenderableCalls_app r a1 a2 s :
  withRenderableCalls r a2 (withRenderableCalls r a1 s) = withRenderableCalls r (a1 ++ a2) s.
Proof.
  unfold withRenderableCalls. cbn. f_equal.
  rewrite list_alter_alter_eq. apply list_alter_ext; [| reflexivity].
  intros it _. cbn. f_equal.
  rewrite list_alter_alter_eq. apply list_alter_ext; [| reflexivity].
  intros calls _. cbn. rewrite <- app_assoc. reflexivity.
Qed.

(** The sub-item [r] exists in [s]. *)
Lemma callRenderable_calls r c s it calls :
  mItems s !! r.1 = Some it ->
  subItems it !! r.2 = Some calls ->
  forall a, callRenderable r c (withRenderableCalls r a s) =
            Ret tt (withRenderableCalls r [c] (withRenderableCalls r a s)).
Proof.
  intros Hit Hsub a. unfold callRenderable, derefItem. rewrite bind_unfold.
  cbn [mItems withRenderableCalls]. rewrite list_lookup_alter_eq, Hit.
  cbn [fmap option_fmap option_map subItems].
  rewrite list_lookup_alter_eq, Hsub. cbn [fmap option_fmap option_map].
  unfold modify, withRenderableCalls. cbn [importer mItems logged]. do 2 f_equal.
  rewrite list_alter_alter_eq.
  apply list_eq. intros k. destruct (decide (k = r.1)) as [-> | Hne].
  - rewrite list_lookup_insert_eq by (rewrite length_alter; eapply lookup_lt_Some, Hit).
    rewrite list_lookup_alter_eq, Hit. cbn. do 2 f_equal.
    rewrite list_alter_alter_eq.
    apply list_eq. intros j. destruct (decide (j = r.2)) as [-> | Hne].
    + rewrite list_lookup_insert_eq by (rewrite length_alter; eapply lookup_lt_Some, Hsub).
      rewrite list_lookup_alter_eq, Hsub. reflexivity.
    + rewrite list_lookup_insert_ne, !list_lookup_alter_ne by congruence. reflexivity.
  - rewrite list_lookup_insert_ne, !list_lookup_alter_ne by congruence. reflexivity.
Qed.

(** One step of [importRenderable], after [a0]. *)
Lemma whenMember_renderable_calls members name isT (body : Value -> M Import unit) r
    (calls : Value -> list RenderableCall) a0 s :
  (forall x, isT x = true ->
     body x (withRenderableCalls r a0 s) =
     Ret tt (withRenderableCalls r (calls x) (withRenderableCalls r a0 s))) ->
  whenMember (JObject members) name isT body (withRenderableCalls r a0 s) =
  Ret tt (withRenderableCalls r
            (a0 ++ match memberOf members name isT with Some x => calls x | None => [] end)
            s).
Proof.
  intros Hbody. unfold whenMember, memberOf. rewrite bind_unfold, memberIf_object.
  destruct (findMember members name) as [x |]; [destruct (isT x) eqn:Hx |];
    rewrite ?app_nil_r; try reflexivity.
  rewrite (Hbody x Hx), withRenderableCalls_app. reflexivity.
Qed.

(** Member names are strings: the loop over "custom_parameters" has no effect. *)
Lemma custom_parameters_loop (members : list (string * Value)) renderable s :
  HlmsCompute.forEach members (fun itor =>
    let name := JString itor.1 in
    if IsUint name && IsArray itor.2 then
      let idxCustomParam := GetUint name in
      value ← onImporter (decodeVector4Array itor.2);
      callRenderable renderable (setCustomParameter idxCustomParam value)
    else mret tt) s = Ret tt s.
Proof.
  induction members as [| itor members IH]; [reflexivity |].
  cbn [HlmsCompute.forEach]. rewrite bind_unfold. cbn. exact IH.
Qed.

(** The calls [importRenderable] makes. *)
Lemma importRenderable_calls members renderable s it calls :
  mItems s !! renderable.1 = Some it ->
  subItems it !! renderable.2 = Some calls ->
  let isV1Material :=
    match memberOf members "is_v1_material" IsBool with
    | Some v => GetBool v
    | None => false
    end in
  importRenderable (JObject members) renderable s =
  Ret tt
    (withRenderableCalls renderable
       (((((([] ++
            match memberOf members "datablock" IsString with
            | Some v => [if negb isV1Material then setDatablock (fromCString (GetString v))
                         else setDatablockOrMaterialName (fromCString (GetString v))
                                AUTODETECT_RESOURCE_GROUP_NAME]
            | None => []
            end) ++
           match memberOf members "custom_parameter" IsUint with
           | Some v => [set_mCustomParameter (to_uint8 (GetUint v))]
           | None => []
           end) ++
          match memberOf members "render_queue_sub_group" IsUint with
          | Some v => [setRenderQueueSubGroup (to_uint8 (GetUint v))]
          | None => []
          end) ++
         match memberOf members "polygon_mode_overrideable" IsBool with
         | Some v => [setPolygonModeOverrideable (GetBool v)]
         | None => []
         end) ++
        match memberOf members "use_identity_view" IsBool with
        | Some v => [setUseIdentityView (GetBool v)]
        | None => []
        end) ++
       match memberOf members "use_identity_projection" IsBool with
       | Some v => [setUseIdentityProjection (GetBool v)]
       | None => []
       end)
       s).
Proof.
  intros Hit Hsub isV1Material.
  pose proof (callRenderable_calls renderable) as Hcall.
  specialize (fun c => Hcall c s it calls Hit Hsub).
  unfold importRenderable.
  rewrite bind_unfold.
  assert (Hcustom : forall s0,
            whenMember (JObject members) "custom_parameters" IsObject
              (fun v =>
                 members0 ← MemberRange v;
                 HlmsCompute.forEach members0 (fun itor =>
                   let name := JString itor.1 in
                   if IsUint name && IsArray itor.2 then
                     let idxCustomParam := GetUint name in
                     value ← onImporter (decodeVector4Array itor.2);
                     callRenderable renderable (setCustomParameter idxCustomParam value)
                   else mret tt)) s0 = Ret tt s0).
  { intros s0. unfold whenMember. rewrite bind_unfold, memberIf_object.
    destruct (findMember members "custom_parameters") as [v |]; [| reflexivity].
    destruct v; try reflexivity. cbn [IsObject].
    rewrite bind_unfold. cbn [MemberRange mret M_ret]. apply custom_parameters_loop. }
  rewrite Hcustom.
  rewrite bind_unfold, memberIf_object. fold (memberOf members "is_v1_material" IsBool).
  fold isV1Material.
  rewrite <- (withRenderableCalls_nil renderable s) at 1.
  rewrite bind_unfold,
    (whenMember_renderable_calls members "datablock" IsString _ renderable
       (fun v => [if negb isV1Material then setDatablock (fromCString (GetString v))
                  else setDatablockOrMaterialName (fromCString (GetString v))
                         AUTODETECT_RESOURCE_GROUP_NAME]))
    by (intros; destruct isV1Material; apply Hcall).
  rewrite bind_unfold,
    (whenMember_renderable_calls members "custom_parameter" IsUint _ renderable
       (fun v => [set_mCustomParameter (to_uint8 (GetUint v))]))
    by (intros; apply Hcall).
  rewrite bind_unfold,
    (whenMember_renderable_calls members "render_queue_sub_group" IsUint _ renderable
       (fun v => [setRenderQueueSubGroup (to_uint8 (GetUint v))]))
    by (intros; apply Hcall).
  rewrite bind_unfold,
    (whenMember_renderable_calls members "polygon_mode_overrideable" IsBool _ renderable
       (fun v => [setPolygonModeOverrideable (GetBool v)]))
    by (intros; apply Hcall).
  rewrite bind_unfold,
    (whenMember_renderable_calls members "use_identity_view" IsBool _ renderable
       (fun v => [setUseIdentityView (GetBool v)]))
    by (intros; apply Hcall).
  rewrite (whenMember_renderable_calls members "use_identity_projection" IsBool _ renderable
             (fun v => [setUseIdentityProjection (GetBool v)]))
    by (intros; apply Hcall).
  reflexivity.
Qed.

Lemma Forall_optional {A B} (P : B -> Prop) (o : option A) (c : A -> B) :
  (forall x, P (c x)) -> Forall P (match o with Some x => [c x] | None => [] end).
Proof. intros Hc. destruct o; [apply Forall_singleton, Hc | apply Forall_nil_2]. Qed.

(** X13.  [importRenderable] never calls [setCustomParameter], whatever
    "custom_parameters" holds: the loop asks the name of each member for
    IsUint(), and the name of a member is a string. *)
Theorem importRenderable_never_sets_custom_parameters members renderable s it calls :
  mItems s !! renderable.1 = Some it ->
  subItems it !! renderable.2 = Some calls ->
  exists added,
    importRenderable (JObject members) renderable s =
      Ret tt (withRenderableCalls renderable added s) /\
    Forall (fun c => isCustomParameterCall c = false) added.
Proof.
  intros Hit Hsub. eexists. split; [exact (importRenderable_calls _ _ _ _ _ Hit Hsub) |].
  repeat apply Forall_app_2; try apply Forall_nil_2;
    apply Forall_optional; intros x; try reflexivity.
  destruct (negb _); reflexivity.
Qed.

Lemma importRenderable_never_sets_custom_parameters_witness :
  exists added,
    importRenderable
      (JObject [("custom_parameters", JObject [("7", JArray [JInt 1; JInt 2; JInt 3; JInt 4])]);
                ("custom_parameter", JInt 300)])
      (0%nat, 0%nat) oneItem =
      Ret tt (withRenderableCalls (0%nat, 0%nat) added oneItem) /\
    Forall (fun c => isCustomParameterCall c = false) added.
Proof.
  exact (importRenderable_never_sets_custom_parameters _ (0%nat, 0%nat) oneItem _ _
           eq_refl eq_refl).
Defined.

Lemma datablockCalls_app a b : datablockCalls (a ++ b) = datablockCalls a ++ datablockCalls b.
Proof. apply omap_app. Qed.

Lemma datablockCalls_optional {A} (o : option A) (c : A -> RenderableCall) :
  (forall x, match c x with
             | setDatablock _ | setDatablockOrMaterialName _ _ => False
             | _ => True
             end) ->
  datablockCalls (match o with Some x => [c x] | None => [] end) = [].
Proof.
  intros Hc. destruct o as [x |]; [| reflexivity].
  specialize (Hc x). cbn. destruct (c x); try contradiction; reflexivity.
Qed.

(** X14.  [importRenderable] sets the datablock at most once: when "datablock"
    is a string, through [setDatablock] unless "is_v1_material" is the boolean
    true, in which case through [setDatablockOrMaterialName] with the
    autodetect resource group; when it is absent or not a string, not at all.
    The name passed is the string read as a C string, up to its first NUL. *)
Theorem importRenderable_datablock_by_material_version members renderable s it calls :
  mItems s !! renderable.1 = Some it ->
  subItems it !! renderable.2 = Some calls ->
  exists added,
    importRenderable (JObject members) renderable s =
      Ret tt (withRenderableCalls renderable added s) /\
    datablockCalls added =
      match memberOf members "datablock" IsString with
      | Some v => [(fromCString (GetString v),
                    match memberOf members "is_v1_material" IsBool with
                    | Some b => GetBool b
                    | None => false
                    end)]
      | None => []
      end.
Proof.
  intros Hit Hsub. eexists. split; [exact (importRenderable_calls _ _ _ _ _ Hit Hsub) |].
  rewrite !datablockCalls_app.
  rewrite (datablockCalls_optional (memberOf members "custom_parameter" IsUint))
    by (intros; exact I).
  rewrite (datablockCalls_optional (memberOf members "render_queue_sub_group" IsUint))
    by (intros; exact I).
  rewrite (datablockCalls_optional (memberOf members "polygon_mode_overrideable" IsBool))
    by (intros; exact I).
  rewrite (datablockCalls_optional (memberOf members "use_identity_view" IsBool))
    by (intros; exact I).
  rewrite (datablockCalls_optional (memberOf members "use_identity_projection" IsBool))
    by (intros; exact I).
  rewrite !app_nil_r. cbn [app datablockCalls omap].
  destruct (memberOf members "datablock" IsString) as [v |]; [| reflexivity].
  destruct (match memberOf members "is_v1_material" IsBool with
            | Some b => GetBool b
            | None => false
            end); reflexivity.
Qed.

Lemma importRenderable_datablock_by_material_version_witness :
  exists added,
    importRenderable
      (JObject [("datablock", JString ("Rocks" +:+ String Ascii.zero "Moss"));
                ("is_v1_material", JBool true)])
      (0%nat, 0%nat) oneItem =
      Ret tt (withRenderableCalls (0%nat, 0%nat) added oneItem) /\
    datablockCalls added = [("Rocks", true)].
Proof.
  exact (importRenderable_datablock_by_material_version
           [("datablock", JString ("Rocks" +:+ String Ascii.zero "Moss"));
            ("is_v1_material", JBool true)]
           (0%nat, 0%nat) oneItem _ _ eq_refl eq_refl).
Defined.

(** *** Items of the scene *)

Lemma touchesOnly_refl item s : touchesOnly item s s.
Proof. repeat split; reflexivity. Qed.

Lemma touchesOnly_trans item s1 s2 s3 :
  touchesOnly item s1 s2 -> touchesOnly item s2 s3 -> touchesOnly item s1 s3.
Proof.
  intros (Hi1 & Hl1 & Ho1 & Hc1) (Hi2 & Hl2 & Ho2 & Hc2). repeat split.
  - congruence.
  - congruence.
  - intros k Hk. rewrite Ho2, Ho1 by exact Hk. reflexivity.
  - congruence.
Qed.

Lemma touchesOnly_withObjectCalls item added lines s :
  touchesOnly item s (withObjectCalls item added lines s).
Proof.
  repeat split.
  - apply withObjectCalls_length.
  - intros k Hk. cbn. rewrite list_lookup_alter_ne by congruence. reflexivity.
  - cbn. rewrite list_lookup_alter_eq. destruct (mItems s !! item); reflexivity.
Qed.

Lemma touchesOnly_withRenderableCalls item sub added s :
  touchesOnly item s (withRenderableCalls (item, sub) added s).
Proof.
  repeat split.
  - cbn. apply length_alter.
  - intros k Hk. cbn. rewrite list_lookup_alter_ne by congruence. reflexivity.
  - cbn. rewrite list_lookup_alter_eq. destruct (mItems s !! item) as [it |]; [| reflexivity].
    cbn. unfold createdAs. cbn. rewrite length_alter. reflexivity.
Qed.

(** The loop over "sub_items": every index is one of a sub-item the item has
    and of an element of the array. *)
Lemma sub_items_loop elements item numSubItems (indices : list Z) :
  Forall (fun i => 0 <= i /\ (Z.to_nat i < length elements)%nat /\
                   (Z.to_nat i < numSubItems)%nat) indices ->
  forall s,
    (length ∘ subItems) <$> mItems s !! item = Some numSubItems ->
    exists s',
      HlmsCompute.forEach indices (fun i =>
        subItemValue ← at_ (JArray elements) i;
        if IsObject subItemValue
        then importSubItem subItemValue (item, Z.to_nat i)
        else mret tt) s = Ret tt s' /\
      touchesOnly item s s'.
Proof.
  induction 1 as [| i indices (Hi & Helem & Hsub) _ IH]; intros s Hitem.
  { exists s. split; [reflexivity | apply touchesOnly_refl]. }
  assert (Hstep : exists s1,
            (subItemValue ← at_ (JArray elements) i;
             if IsObject subItemValue
             then importSubItem subItemValue (item, Z.to_nat i)
             else mret tt) s = Ret tt s1 /\ touchesOnly item s s1).
  { rewrite bind_unfold. cbn [at_].
    destruct (lookup_lt_is_Some_2 _ _ Helem) as [v Hv]. rewrite Hv.
    destruct (Z.leb_spec 0 i) as [_ |]; [| lia]. cbn [mret M_ret].
    destruct v as [| | | | | | members];
      try (exists s; split; [reflexivity | apply touchesOnly_refl]).
    cbn [IsObject]. unfold importSubItem, whenMember.
    rewrite bind_unfold, memberIf_object.
    destruct (findMember members "renderable") as [[| | | | | | renderable] |];
      try (exists s; split; [reflexivity | apply touchesOnly_refl]).
    cbn [IsObject].
    destruct (mItems s !! item) as [it |] eqn:Hit; [| discriminate].
    injection Hitem as Hlen. cbn in Hlen.
    destruct (lookup_lt_is_Some_2 (subItems it) (Z.to_nat i)) as [calls Hcalls]; [lia |].
    eexists. split.
    - apply (importRenderable_calls renderable (item, Z.to_nat i) s it calls Hit Hcalls).
    - apply touchesOnly_withRenderableCalls. }
  destruct Hstep as (s1 & Hrun1 & Htouch1).
  destruct (IH s1) as (s' & Hrun & Htouch).
  { destruct Htouch1 as (_ & _ & _ & Hcreated).
    destruct (mItems s !! item) as [it |] eqn:Hit; [| discriminate].
    destruct (mItems s1 !! item) as [it1 |]; [| discriminate].
    cbn in *. unfold createdAs in Hcreated. congruence. }
  exists s'. split; [| eapply touchesOnly_trans; eassumption].
  cbn [HlmsCompute.forEach]. rewrite bind_unfold, Hrun1. exact Hrun.
Qed.

(** What [importItems] does with an entry once its item is created. *)
Lemma importItem_after_create itemMembers (movableObjectValue : option Value) item s :
  (item < length (mItems s))%nat ->
  match movableObjectValue with
  | Some mo => exists moMembers, mo = JObject moMembers /\
                 forall v, findMember moMembers "local_aabb" = Some v -> aabbDecodes v
  | None => True
  end ->
  exists s',
    (_ ← match movableObjectValue with
         | Some mo => importMovableObject mo item
         | None => mret tt
         end;
     whenMember (JObject itemMembers) "sub_items" IsArray
       (fun subItemsArray =>
          size ← Size subItemsArray;
          it ← derefItem item;
          let numSubItems := Z.min (Z.of_nat (length (subItems it))) size in
          HlmsCompute.forEach (seqZ 0 numSubItems) (fun i =>
            subItemValue ← at_ subItemsArray i;
            if IsObject subItemValue
            then importSubItem subItemValue (item, Z.to_nat i)
            else mret tt))) s = Ret tt s' /\
    touchesOnly item s s'.
Proof.
  intros Hitem Hmovable.
  assert (Hfirst : exists s1,
            match movableObjectValue with
            | Some mo => importMovableObject mo item
            | None => mret tt
            end s = Ret tt s1 /\ touchesOnly item s s1).
  { destruct movableObjectValue as [mo |].
    - destruct Hmovable as (moMembers & -> & Haabb).
      destruct (importMovableObject_calls moMembers item s Hitem Haabb)
        as (added & lines & Hrun & _).
      eexists. split; [exact Hrun | apply touchesOnly_withObjectCalls].
    - exists s. split; [reflexivity | apply touchesOnly_refl]. }
  destruct Hfirst as (s1 & Hrun1 & Htouch1).
  rewrite bind_unfold, Hrun1.
  assert (Hitem1 : (item < length (mItems s1))%nat)
    by (destruct Htouch1 as (_ & -> & _); exact Hitem).
  destruct (lookup_lt_is_Some_2 _ _ Hitem1) as [it Hit].
  unfold whenMember. rewrite bind_unfold, memberIf_object.
  destruct (findMember itemMembers "sub_items") as [[| | | | | elements |] |];
    try (exists s1; split; [reflexivity | exact Htouch1]).
  cbn [IsArray]. rewrite bind_unfold. cbn [Size mret M_ret].
  rewrite bind_unfold. unfold derefItem at 1. rewrite Hit.
  destruct (sub_items_loop elements item (length (subItems it))
              (seqZ 0 (Z.min (Z.of_nat (length (subItems it)))
                             (Z.of_nat (length elements)))))
    with (s := s1) as (s' & Hrun & Htouch).
  { apply Forall_seqZ. intros i Hi. lia. }
  { rewrite Hit. reflexivity. }
  exists s'. split; [exact Hrun | eapply touchesOnly_trans; eassumption].
Qed.

(** An item that only the last position of the list was touched on. *)
Lemma touchesOnly_last i items log it0 s' :
  touchesOnly (length items)
    {| importer := i; mItems := items ++ [it0]; logged := log |} s' ->
  exists it, importer s' = i /\ mItems s' = items ++ [it] /\ createdAs it = createdAs it0.
Proof.
  intros (Himp & Hlen & Hother & Hcreated). cbn [importer mItems] in *.
  rewrite lookup_app_r, Nat.sub_diag in Hcreated by lia. cbn in Hcreated.
  destruct (mItems s' !! length items) as [it |] eqn:Hit; [| discriminate].
  cbn [fmap option_fmap option_map] in Hcreated.
  assert (Hsame : createdAs it = createdAs it0) by congruence.
  exists it. split; [exact Himp |]. split; [| exact Hsame].
  apply list_eq. intros k. destruct (decide (k = length items)) as [-> | Hk].
  - rewrite Hit, lookup_app_r, Nat.sub_diag by lia. reflexivity.
  - rewrite Hother by exact Hk. destruct (decide (k < length items)%nat).
    + rewrite !lookup_app_l by lia. reflexivity.
    + rewrite !lookup_ge_None_2 by (rewrite length_app; cbn; lia). reflexivity.
Qed.

Lemma sceneNodeTypeOf_is_static moMembers :
  (if match (match findMember moMembers "is_static" with
             | Some x => if IsBool x then Some x else None
             | None => None
             end) with
      | Some v => GetBool v
      | None => false
      end
   then SCENE_STATIC else SCENE_DYNAMIC) = sceneNodeTypeOf moMembers.
Proof.
  unfold sceneNodeTypeOf. destruct (findMember moMembers "is_static") as [x |]; [| reflexivity].
  destruct (IsBool x); reflexivity.
Qed.

(** X15.  The body of the loop of [importItems] for an entry that is an
    object: if [createItem] throws, the exception leaves with nothing changed;
    otherwise, provided local_aabb decodes, it returns having appended exactly
    one item, created from the "mesh" string (empty when absent), the resource
    group (autodetect when absent or empty) and the static flag of
    "movable_object", while the items that existed and the importer's nodes
    are untouched.  Both strings are read as C strings, up to the first NUL:
    a resource group that starts with NUL is empty. *)
Theorem importItem_creates_one_item loadMesh itemMembers s :
  match loadMesh (meshNameOf itemMembers) (resourceGroupOf itemMembers) with
  | inl e => importItem loadMesh (JObject itemMembers) s = Raise e s
  | inr (numSubItems, aabb) =>
      (forall mo v, movableObjectOf itemMembers = Some mo ->
                    findMember mo "local_aabb" = Some v -> aabbDecodes v) ->
      exists it s',
        importItem loadMesh (JObject itemMembers) s = Ret tt s' /\
        importer s' = importer s /\
        mItems s' = mItems s ++ [it] /\
        createdAs it = (meshNameOf itemMembers, resourceGroupOf itemMembers,
                        itemTypeOf itemMembers, aabb, numSubItems)
  end.
Proof.
  unfold importItem.
  rewrite bind_unfold, memberIf_object. fold (memberOf itemMembers "mesh" IsString).
  fold (meshNameOf itemMembers).
  rewrite bind_unfold, memberIf_object.
  fold (memberOf itemMembers "mesh_resource_group" IsString).
  replace (if String.eqb _ "" then AUTODETECT_RESOURCE_GROUP_NAME else _)
    with (resourceGroupOf itemMembers)
    by (unfold resourceGroupOf;
        destruct (memberOf itemMembers "mesh_resource_group" IsString); reflexivity).
  rewrite bind_unfold, memberIf_object.
  fold (memberOf itemMembers "movable_object" IsObject).
  unfold itemTypeOf, movableObjectOf.
  assert (Hobject : forall v, memberOf itemMembers "movable_object" IsObject = Some v ->
                              exists moMembers, v = JObject moMembers).
  { unfold memberOf. intros v Hv.
    destruct (findMember itemMembers "movable_object") as [x |]; [| discriminate].
    destruct x; try discriminate. injection Hv as <-. eexists. reflexivity. }
  destruct (memberOf itemMembers "movable_object" IsObject) as [mo |].
  - destruct (Hobject mo eq_refl) as [moMembers ->].
    rewrite !bind_unfold, memberIf_object. cbn [mret M_ret].
    rewrite sceneNodeTypeOf_is_static.
    rewrite bind_unfold.
    destruct (loadMesh (meshNameOf itemMembers) (resourceGroupOf itemMembers))
      as [e | [numSubItems aabb]] eqn:Hload; unfold createItem; rewrite Hload;
      [reflexivity |].
    intros Haabb.
    set (created := {| importer := importer s; mItems := _; logged := logged s |}).
    destruct (importItem_after_create itemMembers (Some (JObject moMembers))
                (length (mItems s)) created) as (s' & Hrun & Htouch).
    { cbn. rewrite length_app. cbn. lia. }
    { eexists. split; [reflexivity |]. intros v. apply Haabb. reflexivity. }
    destruct (touchesOnly_last _ _ _ _ _ Htouch) as (it & Himp & Hitems & Hcreated).
    exists it, s'. split; [exact Hrun |]. split; [exact Himp |]. split; [exact Hitems |].
    rewrite Hcreated. unfold createdAs. cbn. rewrite length_replicate. reflexivity.
  - rewrite !bind_unfold. cbn [mret M_ret].
    rewrite bind_unfold.
    destruct (loadMesh (meshNameOf itemMembers) (resourceGroupOf itemMembers))
      as [e | [numSubItems aabb]] eqn:Hload; unfold createItem; rewrite Hload;
      [reflexivity |].
    intros _.
    set (created := {| importer := importer s; mItems := _; logged := logged s |}).
    destruct (importItem_after_create itemMembers None (length (mItems s)) created)
      as (s' & Hrun & Htouch).
    { cbn. rewrite length_app. cbn. lia. }
    { exact I. }
    destruct (touchesOnly_last _ _ _ _ _ Htouch) as (it & Himp & Hitems & Hcreated).
    exists it, s'. split; [exact Hrun |]. split; [exact Himp |]. split; [exact Hitems |].
    rewrite Hcreated. unfold createdAs. cbn. rewrite length_replicate. reflexivity.
Qed.

Lemma importItem_creates_one_item_witness :
  exists it s',
    importItem (fun _ _ => inr (1%nat, crateBox)) (JObject crateEntry) initialImport =
      Ret tt s' /\
    mItems s' = [it] /\
    createdAs it = ("crate.mesh", "Autodetect", SCENE_STATIC, crateBox, 1%nat).
Proof.
  pose proof (importItem_creates_one_item (fun _ _ => inr (1%nat, crateBox))
                crateEntry initialImport) as H.
  cbv beta iota in H.
  destruct H as (it & s' & Hrun & _ & Hitems & Hcreated).
  { intros mo v Hmo Hfind. vm_compute in Hmo. injection Hmo as <-. discriminate Hfind. }
  exists it, s'. split; [exact Hrun |]. split; [exact Hitems | exact Hcreated].
Defined.

(** *** The whole scene *)

(** X16.  [importScene] in full: it records the file name first; a parse error
    throws ERR_INVALIDPARAMS with "SceneFormatImporter::importScene" in the
    place of the description and the message in the place of the source; a
    root that is not an object, or one whose "scene_nodes" or "items" is an
    array, fails an assertion of rapidjson (both are walked as objects); every
    other document returns with no node and no item imported. *)
Theorem importScene_never_imports
    (loadMesh : string -> string -> Exception + (nat * Aabb))
    (Parse : string -> option Value) depth filename jsonString s :
  importScene loadMesh Parse depth filename jsonString s =
  match Parse jsonString with
  | None =>
      Raise {| number := ERR_INVALIDPARAMS;
               description := "SceneFormatImporter::importScene";
               source := "Invalid JSON string in file " +:+ filename |}
            (named filename s)
  | Some (JObject members) =>
      match memberOf members "scene_nodes" IsArray, memberOf members "items" IsArray with
      | None, None => Ret tt (named filename s)
      | _, _ => AssertFailed
      end
  | Some _ => AssertFailed
  end.
Proof.
  unfold importScene. rewrite bind_unfold.
  change (onImporter _ s) with (Ret tt (named filename s)).
  destruct (Parse jsonString) as [[| | | | | | members] |]; try reflexivity.
  rewrite bind_unfold, memberIf_object. fold (memberOf members "scene_nodes" IsArray).
  destruct (memberOf members "scene_nodes" IsArray) as [nodes |] eqn:Hnodes.
  - unfold memberOf in Hnodes.
    destruct (findMember members "scene_nodes") as [v |]; [| discriminate].
    destruct v; try discriminate. injection Hnodes as <-.
    rewrite bind_unfold. unfold onImporter. rewrite importSceneNodes_on_array. reflexivity.
  - rewrite bind_unfold. cbn [mret M_ret].
    rewrite bind_unfold, memberIf_object. fold (memberOf members "items" IsArray).
    destruct (memberOf members "items" IsArray) as [items |] eqn:Hitems; [| reflexivity].
    unfold memberOf in Hitems.
    destruct (findMember members "items") as [v |]; [| discriminate].
    destruct v; try discriminate. injection Hitems as <-. reflexivity.
Qed.

End SceneFormatMore.

(** ** Facts about the render system, the jobs by name and [dispatch] *)
Module HlmsComputeMore.
Import Machine MachineFacts Exec ExecFacts HlmsCompute HlmsComputeFacts HlmsComputeJobs.

#[local] Existing Instance sameJobsAndPsos_preorder.

Section Collaborators.

Variable _updateAutoProperties : HlmsComputeJob -> HlmsComputeJob.
Variable parseTemplate :
  string -> list string -> HlmsPropertyVec -> bool * string * HlmsPropertyVec.
Variable OGRE_HASH128_FUNC : string -> Hash.

#[local] Abbreviation compileShader := (compileShader parseTemplate OGRE_HASH128_FUNC).
#[local] Abbreviation dispatch_lookup :=
  (dispatch_lookup _updateAutoProperties parseTemplate OGRE_HASH128_FUNC).
#[local] Abbreviation dispatch :=
  (dispatch _updateAutoProperties parseTemplate OGRE_HASH128_FUNC).
#[local] Abbreviation beforeCompile := (beforeCompile _updateAutoProperties).

(** *** [compileShader] *)

(** X17.  [compileShader], whether it returns or throws, changes no job,
    leaves the PSO cache mComputeShaderCache as it was (the caller appends the
    entry) and leaves the settings of the generator alone. *)
Theorem compileShader_leaves_jobs_and_psos job finalHash h :
  match compileShader job finalHash h with
  | Ret _ h' | Raise _ h' =>
      jobs h' = jobs h /\
      mComputeShaderCache h' = mComputeShaderCache h /\
      settings h' = settings h
  | _ => True
  end.
Proof. exact (frames_compileShader parseTemplate OGRE_HASH128_FUNC job finalHash h). Qed.

(** X18.  [compileShader] for a job whose template sets hlms_disable_stage: no
    program is created and the compiled-shader cache is untouched; the PSO has
    a null shader and the thread counts of the expanded properties; it is
    passed to the render system and returned unless one of the two products of
    counts, formed in uint32 where they wrap, is zero, and then
    ERR_INVALIDPARAMS is thrown with the render system not called; either way
    the disable flag is reset to 0. *)
Theorem compileShader_disabled_stage job finalHash h j :
  jobs h !! job = Some j ->
  let expanded :=
    parseTemplate (mSourceFilename j) (mIncludedPieceFiles j)
      (mergedProperties (settings h) (this_mSetProperties h)) in
  getProperty expanded.2 HlmsBaseProp.DisableStage <> 0 ->
  match compileShader job finalHash h with
  | Ret p h' =>
      p = psoOf None expanded.2 /\
      hasZeroProduct p = false /\
      renderSystem h' = renderSystem h ++ [_hlmsComputePipelineStateObjectCreated p] /\
      programs h' = programs h /\
      mCompiledShaderCache h' = mCompiledShaderCache h /\
      this_mSetProperties h' = setProperty HlmsBaseProp.DisableStage 0 expanded.2
  | Raise e h' =>
      e = invalidParams /\
      hasZeroProduct (psoOf None expanded.2) = true /\
      renderSystem h' = renderSystem h /\
      programs h' = programs h /\
      mCompiledShaderCache h' = mCompiledShaderCache h /\
      this_mSetProperties h' = setProperty HlmsBaseProp.DisableStage 0 expanded.2
  | _ => False
  end.
Proof.
  intros Hj expanded Hdisabled.
  pose proof (compileShader_disabled parseTemplate OGRE_HASH128_FUNC job finalHash h j Hj)
    as H.
  subst expanded.
  destruct (parseTemplate (mSourceFilename j) (mIncludedPieceFiles j)
              (mergedProperties (settings h) (this_mSetProperties h)))
    as [[syntaxError outString] props].
  cbn [snd] in *.
  destruct (H Hdisabled) as (h1 & (Hs & Hsc & Hcc & Hpc & Hjobs & Hprog & Hrs) & Hprops & Hrun).
  rewrite Hrun.
  destruct (hasZeroProduct (psoOf None props)) eqn:Hzero.
  - repeat split; assumption.
  - cbn [renderSystem programs mCompiledShaderCache this_mSetProperties with_renderSystem].
    repeat split; assumption.
Qed.

(** *** [dispatch] *)

Lemma with_renderSystem_same h : with_renderSystem (renderSystem h ++ []) h = h.
Proof. destruct h. unfold with_renderSystem. cbn. rewrite app_nil_r. reflexivity. Qed.

Lemma with_renderSystem_app a b h :
  with_renderSystem (renderSystem (with_renderSystem (renderSystem h ++ a) h) ++ b)
    (with_renderSystem (renderSystem h ++ a) h) =
  with_renderSystem (renderSystem h ++ a ++ b) h.
Proof. unfold with_renderSystem. cbn. rewrite app_assoc. reflexivity. Qed.

Lemma rsCall_calls c h : rsCall c h = Ret tt (with_renderSystem (renderSystem h ++ [c]) h).
Proof. reflexivity. Qed.

Lemma forEach_calls {A} (l : list A) (body : A -> M HlmsCompute unit)
    (calls : A -> list RenderSystemCall) :
  (forall x h, body x h = Ret tt (with_renderSystem (renderSystem h ++ calls x) h)) ->
  forall h, forEach l body h =
            Ret tt (with_renderSystem (renderSystem h ++ (l ≫= calls)) h).
Proof.
  intros Hbody. induction l as [| x l IH]; intros h; cbn [forEach].
  - cbn. rewrite with_renderSystem_same. reflexivity.
  - rewrite bind_unfold, Hbody, IH, with_renderSystem_app. reflexivity.
Qed.

Lemma bindTextureSlot_calls itTex h :
  bindTextureSlot itTex h =
  Ret tt (with_renderSystem (renderSystem h ++ textureSlotCalls itTex) h).
Proof.
  unfold bindTextureSlot, textureSlotCalls. destruct (buffer itTex); [reflexivity |].
  rewrite bind_unfold, rsCall_calls, rsCall_calls, with_renderSystem_app. reflexivity.
Qed.

Lemma bindUavSlot_calls itUav h :
  bindUavSlot itUav h =
  Ret tt (with_renderSystem (renderSystem h ++ uavSlotCalls itUav) h).
Proof. unfold bindUavSlot, uavSlotCalls. destruct (buffer itUav); reflexivity. Qed.

(** The second half of [dispatch], for a job whose index designates [e]. *)
Lemma dispatch_bindings_calls job h j e :
  jobs h !! job = Some j ->
  mComputeShaderCache h !! Z.to_nat (mPsoCacheHash j) = Some e ->
  dispatch_bindings job h =
  Ret tt (with_renderSystem
            (renderSystem h ++ slotCalls j ++ [_setComputePso (pso e); _dispatch (pso e)]) h).
Proof.
  intros Hj He. unfold dispatch_bindings, deref.
  rewrite bind_unfold. cbn [get]. rewrite bind_unfold, Hj, He.
  rewrite bind_unfold,
    (forEach_calls _ _ (fun itConst =>
       [ConstBuffer_bindBufferCS (cbBuffer itConst) (cbSlotIdx itConst)]))
    by (intros; apply rsCall_calls).
  rewrite bind_unfold, (forEach_calls _ _ textureSlotCalls)
    by (intros; apply bindTextureSlot_calls).
  rewrite with_renderSystem_app.
  rewrite bind_unfold, (forEach_calls _ _ uavSlotCalls)
    by (intros; apply bindUavSlot_calls).
  rewrite with_renderSystem_app.
  rewrite bind_unfold, rsCall_calls, with_renderSystem_app.
  rewrite rsCall_calls, with_renderSystem_app.
  unfold slotCalls. rewrite <- !app_assoc. do 3 f_equal.
Qed.

Lemma dispatch_in_bounds h job j e :
  jobs h !! job = Some j ->
  0 <= mPsoCacheHash j ->
  mComputeShaderCache h !! Z.to_nat (mPsoCacheHash j) = Some e ->
  dispatch job h =
  Ret tt (with_renderSystem
            (renderSystem h ++ slotCalls j ++ [_setComputePso (pso e); _dispatch (pso e)]) h).
Proof.
  intros Hj H0 He.
  rewrite dispatch_unfold.
  rewrite (dispatch_lookup_in_bounds _ _ _ h job j Hj)
    by (apply lookup_lt_Some in He; lia).
  apply dispatch_bindings_calls; assumption.
Qed.

(** X19.  [dispatch] of a job whose mPsoCacheHash is the index of a cache
    entry: nothing is looked up or compiled, no member but the render system's
    call list changes, and the render system receives the const buffers, then
    the texture slots (a buffer bind, or texture and samplerblock), then the
    UAV slots, then [_setComputePso] and [_dispatch] with the PSO of that
    entry. *)
Theorem dispatch_in_bounds_uses_cached_pso h job j e :
  jobs h !! job = Some j ->
  0 <= mPsoCacheHash j ->
  mComputeShaderCache h !! Z.to_nat (mPsoCacheHash j) = Some e ->
  dispatch job h =
  Ret tt (with_renderSystem
            (renderSystem h ++ slotCalls j ++ [_setComputePso (pso e); _dispatch (pso e)]) h).
Proof. apply dispatch_in_bounds. Qed.

(** What the first half of [dispatch] does to the cache and to the jobs. *)
Lemma dispatch_lookup_frame h job j :
  jobs h !! job = Some j ->
  is_size (mPsoCacheHash j) ->
  match dispatch_lookup job h with
  | Ret _ h1 =>
      (mComputeShaderCache h1 = mComputeShaderCache h \/
       exists e, mComputeShaderCache h1 = mComputeShaderCache h ++ [e] /\
                 HlmsCompute.job e = job) /\
      (forall job2, job2 <> job -> jobs h1 !! job2 = jobs h !! job2) /\
      exists j1,
        jobs h1 !! job = Some j1 /\
        0 <= mPsoCacheHash j1 < Z.of_nat (length (mComputeShaderCache h1))
  | Raise _ h1 =>
      mComputeShaderCache h1 = mComputeShaderCache h /\
      (forall job2, job2 <> job -> jobs h1 !! job2 = jobs h !! job2)
  | _ => True
  end.
Proof.
  intros Hj Hsize.
  destruct (Z.leb_spec (Z.of_nat (length (mComputeShaderCache h))) (mPsoCacheHash j))
    as [Hout | Hin].
  - destruct (std_find (mComputeShaderCache h)
                {| job := job; setProperties := mSetProperties (_updateAutoProperties j);
                   pso := initializedPso |}) as [i |] eqn:Hfind.
    + rewrite (dispatch_lookup_hit _ _ _ h job j i Hj Hout Hfind).
      cbn [with_jobs jobs mComputeShaderCache].
      split; [left; reflexivity |].
      split; [intros job2 Hne; apply lookup_insert_ne; congruence |].
      eexists. rewrite lookup_insert_eq. split; [reflexivity |].
      cbn [job_setPsoCacheHash mPsoCacheHash].
      apply std_find_Some in Hfind as (e & Hi & _). apply lookup_lt_Some in Hi. lia.
    + rewrite (dispatch_lookup_miss _ _ _ h job j Hj Hout Hsize Hfind).
      pose proof (frames_compileShader parseTemplate OGRE_HASH128_FUNC job
                    (wrap_u32 (Z.of_nat (length (mComputeShaderCache h))))
                    (beforeCompile h job j)) as Hframe.
      destruct (compileShader job _ (beforeCompile h job j)) as [compiled h2 | e h2 | | |];
        try exact I; destruct Hframe as (Hjobs & Hcache & _);
        cbn [HlmsCompute.beforeCompile with_mSetProperties with_jobs jobs
               mComputeShaderCache] in Hjobs, Hcache.
      * cbn [with_jobs with_mComputeShaderCache jobs mComputeShaderCache].
        split; [right; eexists; split; reflexivity |].
        split; [intros job2 Hne; apply lookup_insert_ne; congruence |].
        eexists. rewrite lookup_insert_eq. split; [reflexivity |].
        cbn [job_setPsoCacheHash mPsoCacheHash]. rewrite length_app. cbn [length]. lia.
      * split; [exact Hcache |]. intros job2 Hne. rewrite Hjobs.
        apply lookup_insert_ne. congruence.
  - rewrite (dispatch_lookup_in_bounds _ _ _ h job j Hj Hin).
    split; [left; reflexivity |]. split; [reflexivity |].
    exists j. split; [exact Hj |]. unfold is_size in Hsize. lia.
Qed.

(** X20.  [dispatch] never removes or changes an entry of the PSO cache: when
    it returns the cache is the old one, or the old one with one entry for the
    dispatched job appended; when it throws the cache is unchanged; and no job
    other than the one dispatched is changed. *)
Theorem dispatch_cache_only_grows h job j :
  jobs h !! job = Some j ->
  is_size (mPsoCacheHash j) ->
  match dispatch job h with
  | Ret _ h' =>
      (mComputeShaderCache h' = mComputeShaderCache h \/
       exists e, mComputeShaderCache h' = mComputeShaderCache h ++ [e] /\
                 HlmsCompute.job e = job) /\
      (forall job2, job2 <> job -> jobs h' !! job2 = jobs h !! job2)
  | Raise _ h' =>
      mComputeShaderCache h' = mComputeShaderCache h /\
      (forall job2, job2 <> job -> jobs h' !! job2 = jobs h !! job2)
  | _ => True
  end.
Proof.
  intros Hj Hsize.
  pose proof (dispatch_lookup_frame h job j Hj Hsize) as Hlookup.
  rewrite dispatch_unfold.
  destruct (dispatch_lookup job h) as [[] h1 | e h1 | | |]; try exact I.
  - destruct Hlookup as (Hcache & Hjobs & j1 & Hj1 & Hidx).
    destruct (lookup_lt_is_Some_2 (mComputeShaderCache h1) (Z.to_nat (mPsoCacheHash j1))
                ltac:(lia)) as [e He].
    rewrite (dispatch_bindings_calls job h1 j1 e Hj1 He).
    split; assumption.
  - exact Hlookup.
Qed.

(** X21.  After a [dispatch] that returned, the job's mPsoCacheHash is the
    index of an entry of the cache, and a second [dispatch] of the job only
    issues the slot bindings, [_setComputePso] and [_dispatch] with the PSO of
    that entry. *)
Theorem dispatch_again_reuses_entry h job j h1 :
  jobs h !! job = Some j ->
  is_size (mPsoCacheHash j) ->
  dispatch job h = Ret tt h1 ->
  exists j1 e,
    jobs h1 !! job = Some j1 /\
    mComputeShaderCache h1 !! Z.to_nat (mPsoCacheHash j1) = Some e /\
    dispatch job h1 =
    Ret tt (with_renderSystem
              (renderSystem h1 ++ slotCalls j1 ++ [_setComputePso (pso e); _dispatch (pso e)])
              h1).
Proof.
  intros Hj Hsize Hrun.
  pose proof (dispatch_lookup_frame h job j Hj Hsize) as Hlookup.
  rewrite dispatch_unfold in Hrun.
  destruct (dispatch_lookup job h) as [[] h0 | e h0 | | |]; try discriminate.
  destruct Hlookup as (_ & _ & j1 & Hj1 & Hidx).
  destruct (lookup_lt_is_Some_2 (mComputeShaderCache h0) (Z.to_nat (mPsoCacheHash j1))
              ltac:(lia)) as [e He].
  rewrite (dispatch_bindings_calls job h0 j1 e Hj1 He) in Hrun.
  injection Hrun as <-.
  exists j1, e. split; [exact Hj1 |]. split; [exact He |].
  apply dispatch_in_bounds; [exact Hj1 | lia | exact He].
Qed.

End Collaborators.

(** *** The render system *)

Lemma changeRenderSystem_profiles (supported : RenderSystem) exts profile ext hq dbg out
    target ps sc cc pc js pr rs lg :
  forEach ["hlsl"; "glsles"; "glsl"] (fun profile =>
    if supported profile then set_mShaderProfile profile else mret tt)
    {| settings := {| mRsSpecificExtensions := exts; mShaderProfile := profile;
                      mShaderFileExt := ext; mHighQuality := hq; mDebugOutput := dbg;
                      mOutputPath := out; mComputeShaderTarget := target |};
       this_mSetProperties := ps; mShaderCache := sc; mCompiledShaderCache := cc;
       mComputeShaderCache := pc; jobs := js; programs := pr; renderSystem := rs;
       logMessages := lg |} =
  Ret tt
    {| settings := {| mRsSpecificExtensions := exts;
                      mShaderProfile := preferredProfile supported profile;
                      mShaderFileExt := ext; mHighQuality := hq; mDebugOutput := dbg;
                      mOutputPath := out; mComputeShaderTarget := target |};
       this_mSetProperties := ps; mShaderCache := sc; mCompiledShaderCache := cc;
       mComputeShaderCache := pc; jobs := js; programs := pr; renderSystem := rs;
       logMessages := lg |}.
Proof.
  unfold preferredProfile. cbn [forEach]. rewrite !bind_unfold.
  destruct (supported "hlsl"), (supported "glsles"), (supported "glsl"); reflexivity.
Qed.

Lemma changeRenderSystem_targets (supported : RenderSystem) exts profile ext hq dbg out
    target ps sc cc pc js pr rs lg :
  forEach BestD3DComputeShaderTargets (fun target =>
    h ← get;
    match mComputeShaderTarget (settings h) with
    | None => if supported target then set_mComputeShaderTarget target else mret tt
    | Some _ => mret tt
    end)
    {| settings := {| mRsSpecificExtensions := exts; mShaderProfile := profile;
                      mShaderFileExt := ext; mHighQuality := hq; mDebugOutput := dbg;
                      mOutputPath := out; mComputeShaderTarget := target |};
       this_mSetProperties := ps; mShaderCache := sc; mCompiledShaderCache := cc;
       mComputeShaderCache := pc; jobs := js; programs := pr; renderSystem := rs;
       logMessages := lg |} =
  Ret tt
    {| settings := {| mRsSpecificExtensions := exts; mShaderProfile := profile;
                      mShaderFileExt := ext; mHighQuality := hq; mDebugOutput := dbg;
                      mOutputPath := out;
                      mComputeShaderTarget :=
                        match target with
                        | Some t => Some t
                        | None => firstSupported supported BestD3DComputeShaderTargets
                        end |};
       this_mSetProperties := ps; mShaderCache := sc; mCompiledShaderCache := cc;
       mComputeShaderCache := pc; jobs := js; programs := pr; renderSystem := rs;
       logMessages := lg |}.
Proof.
  unfold firstSupported, BestD3DComputeShaderTargets. cbn [forEach List.find].
  rewrite !bind_unfold. cbn [get settings mComputeShaderTarget].
  destruct target as [t |]; [reflexivity |].
  destruct (supported "cs_5_0"); [reflexivity |].
  rewrite ?bind_unfold. cbn [get settings mComputeShaderTarget mret M_ret].
  destruct (supported "cs_4_1"); [reflexivity |].
  rewrite ?bind_unfold. cbn [get settings mComputeShaderTarget mret M_ret].
  destruct (supported "cs_4_0"); reflexivity.
Qed.

(** X22.  [_changeRenderSystem]: with no render system it only does what the
    base class does; with one, the shader profile becomes glsl if supported,
    else glsles, else hlsl, else stays what the base class left; a compute
    shader target that is already set is kept, and an unset one is chosen only
    when the profile is hlsl, as the first of cs_5_0, cs_4_1, cs_4_0 the
    render system supports; no other setting changes. *)
Theorem changeRenderSystem_selection
    (Hlms_changeRenderSystem :
       option RenderSystem -> HlmsCompute -> HlmsCompute * option RenderSystem)
    newRs h :
  let base := Hlms_changeRenderSystem newRs h in
  exists cfg,
    _changeRenderSystem Hlms_changeRenderSystem newRs h = Ret tt (with_settings cfg base.1) /\
    match base.2 with
    | None => cfg = settings base.1
    | Some isShaderProfileSupported =>
        mShaderProfile cfg =
          preferredProfile isShaderProfileSupported (mShaderProfile (settings base.1)) /\
        mComputeShaderTarget cfg =
          match mComputeShaderTarget (settings base.1) with
          | Some target => Some target
          | None =>
              if String.eqb (mShaderProfile cfg) "hlsl"
              then firstSupported isShaderProfileSupported BestD3DComputeShaderTargets
              else None
          end /\
        mRsSpecificExtensions cfg = mRsSpecificExtensions (settings base.1) /\
        mShaderFileExt cfg = mShaderFileExt (settings base.1) /\
        mHighQuality cfg = mHighQuality (settings base.1) /\
        mDebugOutput cfg = mDebugOutput (settings base.1) /\
        mOutputPath cfg = mOutputPath (settings base.1)
    end.
Proof.
  intros base. unfold _changeRenderSystem. rewrite bind_unfold. cbn [get].
  fold base. destruct base as [[cfg ps sc cc pc js pr rs lg] [supported |]]; cbn [fst snd].
  2: { eexists. split; reflexivity. }
  destruct cfg as [exts profile ext hq dbg out target].
  rewrite bind_unfold. cbn [put].
  rewrite bind_unfold, changeRenderSystem_profiles.
  rewrite bind_unfold. cbn [get settings mShaderProfile].
  destruct (String.eqb (preferredProfile supported profile) "hlsl") eqn:Hp.
  - rewrite changeRenderSystem_targets. eexists. split; [reflexivity |].
    cbn [settings mShaderProfile mComputeShaderTarget mRsSpecificExtensions mShaderFileExt
           mHighQuality mDebugOutput mOutputPath].
    rewrite Hp. repeat split.
  - eexists. split; [reflexivity |].
    cbn [settings mShaderProfile mComputeShaderTarget mRsSpecificExtensions mShaderFileExt
           mHighQuality mDebugOutput mOutputPath].
    rewrite Hp. destruct target; repeat split.
Qed.

(** *** The jobs by name *)

Lemma newAddress_fresh h : jobs h !! newAddress h = None.
Proof. unfold newAddress. apply not_elem_of_dom_1. apply is_fresh. Qed.

Lemma findComputeJob_by_name (getFriendlyText : IdString -> string) datablockName s :
  findComputeJob getFriendlyText datablockName s =
  match mComputeJobs s !! datablockName with
  | Some itor => Ret (computeJob itor) s
  | None =>
      Raise {| number := ERR_ITEM_NOT_FOUND;
               description :=
                 "Compute Job with name " +:+ getFriendlyText datablockName +:+ " not found";
               source := "HlmsCompute::findComputeJob" |} s
  end.
Proof.
  unfold findComputeJob, findComputeJobNoThrow. rewrite !bind_unfold. cbn [get mret M_ret].
  destruct (mComputeJobs s !! datablockName); reflexivity.
Qed.

(** X23.  [createComputeJob] makes a job at an address where none lived and
    maps the name to it (replacing an entry of that name); after it
    [findComputeJobNoThrow] and [findComputeJob] give that job for the name,
    and [findComputeJob] of any other name gives what was registered before,
    throwing ERR_ITEM_NOT_FOUND with the friendly text of the name when
    nothing was. *)
Theorem createComputeJob_then_find
    (HlmsComputeJob_new : IdString -> string -> list string -> HlmsComputeJob)
    (getFriendlyText : IdString -> string)
    datablockName refName sourceFilename includedPieceFiles s :
  let job := newAddress (hlms s) in
  let s' :=
    {| hlms := with_jobs
                 (<[job := HlmsComputeJob_new datablockName sourceFilename includedPieceFiles]>
                    (jobs (hlms s)))
                 (hlms s);
       mComputeJobs := <[datablockName := {| computeJob := job; name := refName |}]>
                         (mComputeJobs s) |} in
  jobs (hlms s) !! job = None /\
  createComputeJob HlmsComputeJob_new datablockName refName sourceFilename
    includedPieceFiles s = Ret job s' /\
  findComputeJobNoThrow datablockName s' = Ret (Some job) s' /\
  findComputeJob getFriendlyText datablockName s' = Ret job s' /\
  forall other,
    other <> datablockName ->
    findComputeJob getFriendlyText other s' =
    match mComputeJobs s !! other with
    | Some itor => Ret (computeJob itor) s'
    | None =>
        Raise {| number := ERR_ITEM_NOT_FOUND;
                 description :=
                   "Compute Job with name " +:+ getFriendlyText other +:+ " not found";
                 source := "HlmsCompute::findComputeJob" |} s'
    end.
Proof.
  intros job s'. split; [apply newAddress_fresh |]. split; [reflexivity |].
  assert (Hfind : findComputeJobNoThrow datablockName s' = Ret (Some job) s').
  { unfold findComputeJobNoThrow. rewrite bind_unfold. cbn [get mret M_ret].
    unfold s' at 1. cbn [mComputeJobs]. rewrite lookup_insert_eq. reflexivity. }
  split; [exact Hfind |]. split.
  - unfold findComputeJob. rewrite bind_unfold, Hfind. reflexivity.
  - intros other Hother. rewrite findComputeJob_by_name.
    unfold s' at 1. cbn [mComputeJobs].
    rewrite lookup_insert_ne by congruence. reflexivity.
Qed.

(** The loop of [destroyAllComputeJobs] over entries whose jobs are alive and
    pairwise different. *)
Lemma destroy_loop (l : list (IdString * ComputeJobEntry)) :
  forall h names,
    NoDup ((fun itor => computeJob itor.2) <$> l) ->
    (forall itor, itor ∈ l -> is_Some (jobs h !! computeJob itor.2)) ->
    forEach l (fun itor => onHlms (OGRE_DELETE (computeJob itor.2)))
      {| hlms := h; mComputeJobs := names |} =
    Ret tt {| hlms := with_jobs (foldl (fun m itor => delete (computeJob itor.2) m) (jobs h) l) h;
              mComputeJobs := names |}.
Proof.
  induction l as [| itor l IH]; intros h names Hnodup Halive.
  - cbn. destruct h; reflexivity.
  - cbn [forEach foldl]. rewrite bind_unfold.
    destruct (Halive itor ltac:(left)) as [j Hj].
    unfold onHlms at 1, OGRE_DELETE. cbn [hlms]. rewrite bind_unfold. cbn [get].
    rewrite Hj. cbn [modify mComputeJobs].
    apply NoDup_cons in Hnodup as [Hnotin Hnodup].
    rewrite IH; [destruct h; reflexivity | exact Hnodup |].
    intros itor' Hin. cbn [with_jobs jobs].
    rewrite lookup_delete_ne; [apply Halive; right; exact Hin |].
    intros Heq. apply Hnotin. rewrite Heq.
    apply (list_elem_of_fmap_2 (fun itor => computeJob itor.2)). exact Hin.
Qed.

Lemma lookup_foldl_delete (l : list (IdString * ComputeJobEntry))
    (m : gmap JobPtr HlmsComputeJob) p :
  foldl (fun m itor => delete (computeJob itor.2) m) m l !! p =
  if bool_decide (p ∈ (fun itor => computeJob itor.2) <$> l) then None else m !! p.
Proof.
  revert m. induction l as [| itor l IH]; intros m; [reflexivity |].
  cbn [foldl fmap list_fmap]. rewrite IH.
  destruct (decide (p = computeJob itor.2)) as [-> | Hne].
  - rewrite lookup_delete_eq.
    rewrite (bool_decide_eq_true_2 (computeJob itor.2 ∈ _ :: _)) by left.
    destruct (bool_decide _); reflexivity.
  - rewrite lookup_delete_ne by congruence.
    apply (f_equal (fun b : bool => if b then None else m !! p)).
    apply bool_decide_ext. rewrite elem_of_cons. tauto.
Qed.

Lemma destroy_all s :
  namesAlive s ->
  exists js,
    destroyAllComputeJobs s = Ret tt {| hlms := with_jobs js (hlms s); mComputeJobs := ∅ |} /\
    (forall n e, mComputeJobs s !! n = Some e -> js !! computeJob e = None) /\
    (forall p, (forall n e, mComputeJobs s !! n = Some e -> computeJob e <> p) ->
               js !! p = jobs (hlms s) !! p).
Proof.
  intros [Halive Hinj]. unfold destroyAllComputeJobs. rewrite bind_unfold. cbn [get].
  exists (foldl (fun m itor => delete (computeJob itor.2) m) (jobs (hlms s))
            (map_to_list (mComputeJobs s))).
  split.
  - rewrite bind_unfold. destruct s as [h names]. cbn [hlms mComputeJobs] in *.
    rewrite destroy_loop; [reflexivity | |].
    + apply NoDup_fmap_2_strong; [| apply NoDup_map_to_list].
      intros [n1 e1] [n2 e2] H1 H2 Heq. cbn in Heq.
      apply elem_of_map_to_list in H1, H2.
      pose proof (Hinj n1 n2 e1 e2 H1 H2 Heq) as ->.
      rewrite H1 in H2. injection H2 as ->. reflexivity.
    + intros [n e] Hin. apply elem_of_map_to_list in Hin. exact (Halive n e Hin).
  - split.
    + intros n e Hn. rewrite lookup_foldl_delete.
      rewrite bool_decide_eq_true_2; [reflexivity |].
      apply (list_elem_of_fmap_2 (fun itor => computeJob itor.2) _ (n, e)).
      apply elem_of_map_to_list. exact Hn.
    + intros p Hp. rewrite lookup_foldl_delete.
      rewrite bool_decide_eq_false_2; [reflexivity |].
      intros Hin. apply list_elem_of_fmap in Hin as ([n e] & -> & Hin).
      apply elem_of_map_to_list in Hin. exact (Hp n e Hin eq_refl).
Qed.

(** X24.  [destroyAllComputeJobs], when every registered job is alive and no
    two names share a job: it returns with an empty name map, every job that
    had a name deleted, and every other job left alone; the PSO cache is not
    touched. *)
Theorem destroyAllComputeJobs_deletes_named_jobs s :
  namesAlive s ->
  exists js,
    destroyAllComputeJobs s = Ret tt {| hlms := with_jobs js (hlms s); mComputeJobs := ∅ |} /\
    (forall n e, mComputeJobs s !! n = Some e -> js !! computeJob e = None) /\
    (forall p, (forall n e, mComputeJobs s !! n = Some e -> computeJob e <> p) ->
               js !! p = jobs (hlms s) !! p).
Proof. apply destroy_all. Qed.

(** The loop of [clearShaderCache] when an entry's job is not alive. *)
Lemma clearShaderCache_loop_dangling (entries : list ComputePsoCache) :
  forall h,
    (exists e, e ∈ entries /\ jobs h !! job e = None) ->
    forEach entries (fun itor =>
        _ ← rsCall (_hlmsComputePipelineStateObjectDestroyed (pso itor));
        j ← deref (job itor);
        store (job itor) (job_setPsoCacheHash SIZE_MAX j)) h = UndefinedBehaviour.
Proof.
  induction entries as [| e0 entries IH]; intros h (e & Hin & Hdead).
  - apply elem_of_nil in Hin. contradiction.
  - cbn [forEach]. rewrite 2!bind_unfold. cbn [rsCall modify].
    rewrite bind_unfold. unfold deref at 1. cbn [jobs with_renderSystem].
    destruct (jobs h !! job e0) as [j0 |] eqn:Hj0; [| reflexivity].
    cbn [store modify]. apply IH.
    apply elem_of_cons in Hin as [-> | Hin]; [congruence |].
    exists e. split; [exact Hin |]. cbn [with_jobs with_renderSystem jobs].
    rewrite lookup_insert_ne by congruence. exact Hdead.
Qed.

(** X25.  [destroyAllComputeJobs] leaves the entries of the PSO cache in
    place: when an entry of the cache belongs to a registered job,
    [clearShaderCache] after [destroyAllComputeJobs] writes mPsoCacheHash
    through the pointer of a deleted job, which is undefined behaviour. *)
Theorem clearShaderCache_after_destroyAllComputeJobs s n e entry :
  namesAlive s ->
  mComputeJobs s !! n = Some e ->
  entry ∈ mComputeShaderCache (hlms s) ->
  job entry = computeJob e ->
  (_ ← destroyAllComputeJobs; onHlms clearShaderCache) s = UndefinedBehaviour.
Proof.
  intros Halive Hn Hentry Hjob.
  pose proof (destroy_all s Halive) as (js & Hrun & Hdeleted & _).
  rewrite bind_unfold, Hrun. unfold onHlms. cbn [hlms].
  unfold clearShaderCache. rewrite bind_unfold. cbn [get].
  rewrite bind_unfold.
  rewrite clearShaderCache_loop_dangling; [reflexivity |].
  exists entry. cbn [with_jobs mComputeShaderCache jobs]. split; [exact Hentry |].
  rewrite Hjob. exact (Hdeleted n e Hn).
Qed.

(** X26.  [clearShaderCache], when the job of every cache entry is alive: it
    returns with both caches empty, has told the render system of the
    destruction of each cached PSO in cache order, has set mPsoCacheHash to
    (size_t)-1 on exactly the jobs that own an entry, and has left every other
    job as it was. *)
Theorem clearShaderCache_resets_entry_owners h :
  (forall e, e ∈ mComputeShaderCache h -> is_Some (jobs h !! job e)) ->
  exists h',
    clearShaderCache h = Ret tt h' /\
    mComputeShaderCache h' = [] /\
    mCompiledShaderCache h' = ∅ /\
    renderSystem h' =
      renderSystem h ++
      ((fun e => _hlmsComputePipelineStateObjectDestroyed (pso e)) <$> mComputeShaderCache h) /\
    (forall p, p ∈ job <$> mComputeShaderCache h ->
               mPsoCacheHash <$> jobs h' !! p = Some SIZE_MAX) /\
    (forall p, p ∉ job <$> mComputeShaderCache h -> jobs h' !! p = jobs h !! p).
Proof. apply clearShaderCache_spec. Qed.

(** *** Sample runs *)

Lemma oneEntryHlms_owners_alive :
  forall e, e ∈ mComputeShaderCache oneEntryHlms -> is_Some (jobs oneEntryHlms !! job e).
Proof.
  intros e He. apply list_elem_of_singleton in He as ->. eexists. reflexivity.
Qed.

Lemma clearShaderCache_resets_entry_owners_witness :
  exists h',
    clearShaderCache oneEntryHlms = Ret tt h' /\
    mComputeShaderCache h' = [] /\
    mPsoCacheHash <$> jobs h' !! 0%nat = Some SIZE_MAX /\
    jobs h' !! 1%nat = jobs oneEntryHlms !! 1%nat.
Proof.
  destruct (clearShaderCache_resets_entry_owners oneEntryHlms oneEntryHlms_owners_alive)
    as (h' & Hrun & Hcache & _ & _ & Howners & Hothers).
  exists h'. split; [exact Hrun |]. split; [exact Hcache |]. split.
  - apply Howners. apply list_elem_of_singleton. reflexivity.
  - apply Hothers. intros H. apply list_elem_of_singleton in H. discriminate H.
Defined.

Lemma compileShader_disabled_stage_witness :
  exists h',
    compileShader plainTemplate constHash 1%nat 1
      (with_mSetProperties sharedProperties oneEntryHlms) =
      Ret (psoOf None (mergedProperties glslSettings sharedProperties)) h' /\
    programs h' = [] /\
    mCompiledShaderCache h' = ∅.
Proof.
  pose proof (compileShader_disabled_stage plainTemplate constHash 1%nat 1
                (with_mSetProperties sharedProperties oneEntryHlms)
                (newJob "b.glsl" sharedProperties) eq_refl) as H.
  cbv zeta in H. specialize (H ltac:(vm_compute; discriminate)).
  destruct (compileShader plainTemplate constHash 1%nat 1
              (with_mSetProperties sharedProperties oneEntryHlms))
    as [p h' | e h' | | |]; [| | contradiction ..].
  - destruct H as (-> & _ & _ & Hprograms & Hcache & _).
    exists h'. split; [reflexivity |]. split; [exact Hprograms | exact Hcache].
  - destruct H as (_ & Hzero & _). vm_compute in Hzero. discriminate Hzero.
Defined.

Lemma dispatch_in_bounds_uses_cached_pso_witness :
  dispatch noAutoProperties plainTemplate constHash 0%nat oneEntryHlms =
  Ret tt (with_renderSystem
            (renderSystem oneEntryHlms ++
             [ _setComputePso (psoOf None sharedProperties);
               _dispatch (psoOf None sharedProperties) ])
            oneEntryHlms).
Proof.
  exact (dispatch_in_bounds_uses_cached_pso noAutoProperties plainTemplate constHash
           oneEntryHlms 0%nat _ _ eq_refl (Z.le_refl 0) eq_refl).
Defined.

Lemma dispatch_cache_only_grows_witness :
  exists h',
    dispatch noAutoProperties plainTemplate constHash 1%nat oneEntryHlms = Ret tt h' /\
    (mComputeShaderCache h' = mComputeShaderCache oneEntryHlms \/
     exists e, mComputeShaderCache h' = mComputeShaderCache oneEntryHlms ++ [e] /\
               job e = 1%nat) /\
    jobs h' !! 0%nat = jobs oneEntryHlms !! 0%nat.
Proof.
  set (h1 := stateOf (dispatch noAutoProperties plainTemplate constHash 1%nat oneEntryHlms)
               oneEntryHlms).
  assert (Hrun : dispatch noAutoProperties plainTemplate constHash 1%nat oneEntryHlms
                 = Ret tt h1) by (vm_compute; reflexivity).
  pose proof (dispatch_cache_only_grows noAutoProperties plainTemplate constHash
                oneEntryHlms 1%nat (newJob "b.glsl" sharedProperties) eq_refl
                ltac:(vm_compute; split; [discriminate | reflexivity])) as H.
  rewrite Hrun in H. destruct H as [Hcache Hjobs].
  exists h1. split; [exact Hrun |]. split; [exact Hcache |]. apply Hjobs. discriminate.
Defined.

Lemma dispatch_again_reuses_entry_witness :
  exists h1 h2,
    dispatch noAutoProperties plainTemplate constHash 1%nat oneEntryHlms = Ret tt h1 /\
    dispatch noAutoProperties plainTemplate constHash 1%nat h1 = Ret tt h2 /\
    mComputeShaderCache h2 = mComputeShaderCache h1 /\
    jobs h2 = jobs h1.
Proof.
  set (h1 := stateOf (dispatch noAutoProperties plainTemplate constHash 1%nat oneEntryHlms)
               oneEntryHlms).
  assert (Hrun : dispatch noAutoProperties plainTemplate constHash 1%nat oneEntryHlms
                 = Ret tt h1) by (vm_compute; reflexivity).
  destruct (dispatch_again_reuses_entry noAutoProperties plainTemplate constHash
              oneEntryHlms 1%nat (newJob "b.glsl" sharedProperties) h1 eq_refl
              ltac:(vm_compute; split; [discriminate | reflexivity]) Hrun)
    as (j1 & e & _ & _ & Hagain).
  exists h1. eexists. split; [exact Hrun |]. split; [exact Hagain |].
  split; reflexivity.
Defined.

Lemma oneEntryWithNames_alive : namesAlive oneEntryWithNames.
Proof.
  split.
  - intros n e Hn. cbn in Hn.
    apply lookup_insert_Some in Hn as [[<- <-] | [_ Hn]]; [eexists; reflexivity |].
    apply lookup_singleton_Some in Hn as [<- <-]. eexists. reflexivity.
  - intros n1 n2 e1 e2 H1 H2 Heq. cbn in H1, H2.
    apply lookup_insert_Some in H1 as [[<- <-] | [_ H1]];
      apply lookup_insert_Some in H2 as [[<- <-] | [_ H2]];
      try apply lookup_singleton_Some in H1 as [<- <-];
      try apply lookup_singleton_Some in H2 as [<- <-];
      try reflexivity; discriminate Heq.
Qed.

Lemma destroyAllComputeJobs_deletes_named_jobs_witness :
  exists js,
    destroyAllComputeJobs oneEntryWithNames =
      Ret tt {| hlms := with_jobs js oneEntryHlms; mComputeJobs := ∅ |} /\
    js !! 0%nat = None /\ js !! 1%nat = None.
Proof.
  destruct (destroyAllComputeJobs_deletes_named_jobs oneEntryWithNames
              oneEntryWithNames_alive) as (js & Hrun & Hdeleted & _).
  exists js. split; [exact Hrun |]. split.
  - exact (Hdeleted 7 {| computeJob := 0%nat; name := "blur" |} eq_refl).
  - exact (Hdeleted 9 {| computeJob := 1%nat; name := "downsample" |} eq_refl).
Defined.

Lemma clearShaderCache_after_destroyAllComputeJobs_witness :
  (_ ← destroyAllComputeJobs; onHlms clearShaderCache) oneEntryWithNames
  = UndefinedBehaviour.
Proof.
  refine (clearShaderCache_after_destroyAllComputeJobs oneEntryWithNames 7
            {| computeJob := 0%nat; name := "blur" |}
            {| job := 0%nat; setProperties := sharedProperties;
               pso := psoOf None sharedProperties |}
            oneEntryWithNames_alive eq_refl _ eq_refl).
  apply list_elem_of_singleton. reflexivity.
Defined.

End HlmsComputeMore.
